(** * FluMatch: tabulation of BLAST top hits and the tab-separated report

    A shallow embedding of [tabulate_hsp_xml], [blast_report], [strain_name]
    and [prokka_annotate] from [flumatch.py], together with the parts of the
    Python run time they rely on: list slicing, indexing, binary64 floating
    point arithmetic with the conversions from [int], [str] of an int with
    its limit on the number of digits, [repr] of a float, the [csv] writer
    with its default dialect and a tab delimiter, and [os.path] on a POSIX
    host.

    Texts are strings of one-byte characters.  The destination of the
    report is taken to be writable, and to hold every character written. *)

From Stdlib Require Import ZArith List Bool Ascii String Lia Znumtheory.
From Stdlib Require Import Floats.SpecFloat.
From Stdlib Require Import Numbers.DecimalString.
From Stdlib Require Numbers.DecimalFacts Numbers.DecimalPos.
Import ListNotations.

Open Scope Z_scope.

(** ** Python exceptions raised by the modelled code *)

Inductive exn : Type :=
| IndexError
| OverflowError
| ZeroDivisionError
| ValueError.

(** The text CPython attaches to each of them. *)
Definition exn_message (e : exn) : string :=
  match e with
  | IndexError => "list index out of range"
  | OverflowError => "int too large to convert to float"
  | ZeroDivisionError => "float division by zero"
  | ValueError =>
      "Exceeds the limit (4300 digits) for integer string conversion; use sys.set_int_max_str_digits() to increase the limit"
  end.

Inductive result (A : Type) : Type :=
| Ok (a : A)
| Raise (e : exn).

Arguments Ok {A} a.
Arguments Raise {A} e.

Definition bind {A B : Type} (c : result A) (k : A -> result B) : result B :=
  match c with
  | Ok a => k a
  | Raise e => Raise e
  end.

Notation "x <- c ;; k" := (bind c (fun x => k))
  (at level 61, c at next level, right associativity).

(** ** Python floats: IEEE 754 binary64 *)

Definition float : Type := spec_float.

Definition prec : Z := 53.
Definition emax : Z := 1024.

(** The double nearest to an int, ties to even; an infinity when the int
    is out of range. *)
Definition nearest_double (z : Z) : float := binary_normalize prec emax z 0 false.

(** [float(z)] for an [int] z, as [PyLong_AsDouble] computes it: the nearest
    double, and [OverflowError] when that is out of range. *)
Definition int_to_float (z : Z) : result float :=
  match nearest_double z with
  | S754_infinity _ => Raise OverflowError
  | f => Ok f
  end.

Definition is_zero (x : float) : bool :=
  match x with
  | S754_zero _ => true
  | _ => false
  end.

(** [x * z] with [x] a float and [z] an int. *)
Definition float_mul_int (x : float) (z : Z) : result float :=
  y <- int_to_float z ;;
  Ok (SFmul prec emax x y).

(** [x / z] with [x] a float and [z] an int: both operands are converted
    before the divisor is tested. *)
Definition float_truediv_int (x : float) (z : Z) : result float :=
  y <- int_to_float z ;;
  if is_zero y then Raise ZeroDivisionError
  else Ok (SFdiv prec emax x y).

(** [abs(x)] on a float. *)
Definition float_abs (x : float) : float := SFabs x.

(** The literal [100.] *)
Definition float_100 : float := S754_finite false 7036874417766400 (-46).

Definition float_zero : float := S754_zero false.

Definition float_le (x y : float) : bool := SFleb x y.

(** ** Python lists: [l[0]] and [l[0:stop]] *)

Definition getitem0 {A : Type} (l : list A) : result A :=
  match l with
  | [] => Raise IndexError
  | x :: _ => Ok x
  end.

(** The adjusted stop index of [l[0:stop]] on a list of [len] items. *)
Definition slice_stop (len stop : Z) : Z :=
  if stop <? 0 then Z.max (stop + len) 0
  else Z.min stop len.

Definition slice0 {A : Type} (l : list A) (stop : Z) : list A :=
  firstn (Z.to_nat (slice_stop (Z.of_nat (List.length l)) stop)) l.

(** ** The parsed BLAST records read by the script *)

Module HSP.
Record t : Type := mk {
  identities : Z;
  align_length : Z;
  query_start : Z;
  query_end : Z;
  sbjct_start : Z;
  sbjct_end : Z;
  expect : float
}.
End HSP.

Module Alignment.
Record t : Type := mk {
  hit_def : string;
  length : Z;
  hsps : list HSP.t
}.
End Alignment.

Module Blast.
Record t : Type := mk {
  query : string;
  query_length : Z;
  alignments : list Alignment.t
}.
End Blast.

(** ** Rows: the tuples yielded by the generator *)

Inductive pyval : Type :=
| PStr (s : string)
| PInt (z : Z)
| PFloat (x : float).

Definition row : Type := list pyval.

(** The body of the inner loop of [tabulate_hsp_xml]: the tuple built from
    one record [res] and one of its alignments [aln]. *)
Definition tabulate_row (res : Blast.t) (aln : Alignment.t) : result row :=
  hsp <- getitem0 (Alignment.hsps aln) ;;
  let query := Blast.query res in
  let strain := Alignment.hit_def aln in
  let identities := HSP.identities hsp in
  let align_length := HSP.align_length hsp in
  let query_length := Blast.query_length res in
  let strain_length := Alignment.length aln in
  identity_perc <- (x <- float_mul_int float_100 identities ;;
                    float_truediv_int x align_length) ;;
  query_cov <- (x <- float_mul_int float_100 align_length ;;
                y <- float_truediv_int x query_length ;;
                Ok (float_abs y)) ;;
  let query_start := HSP.query_start hsp in
  let query_end := HSP.query_end hsp in
  let sbjct_start := HSP.sbjct_start hsp in
  let sbjct_end := HSP.sbjct_end hsp in
  let e_value := HSP.expect hsp in
  Ok [ PStr query; PStr strain; PFloat query_cov; PFloat identity_perc;
       PInt identities; PInt align_length; PInt query_start; PInt query_end;
       PInt sbjct_start; PInt sbjct_end; PInt query_length;
       PInt strain_length; PFloat e_value ].

(** What a consumer observes when it exhausts a generator: the values
    yielded, in order, and the exception that ended the iteration, if any. *)
Definition trace : Type := (list row * option exn)%type.

(** The inner [for aln in ...] loop over the alignments still to visit. *)
Fixpoint tabulate_alignments (res : Blast.t) (alns : list Alignment.t) : trace :=
  match alns with
  | [] => ([], None)
  | aln :: alns' =>
      match tabulate_row res aln with
      | Raise e => ([], Some e)
      | Ok r =>
          let '(rs, o) := tabulate_alignments res alns' in (r :: rs, o)
      end
  end.

(** The generator [tabulate_hsp_xml(result, num_top_results)], run to its
    end. *)
Fixpoint tabulate_hsp_xml (result : list Blast.t) (num_top_results : Z) : trace :=
  match result with
  | [] => ([], None)
  | res :: result' =>
      match tabulate_alignments res (slice0 (Blast.alignments res) num_top_results) with
      | (rs, Some e) => (rs, Some e)
      | (rs, None) =>
          let '(rs', o) := tabulate_hsp_xml result' num_top_results in
          (rs ++ rs', o)
      end
  end.

(** *** The same generator, one [next] at a time *)

Record gen : Type := mk_gen {
  gen_inner : option (Blast.t * list Alignment.t);
  gen_outer : list Blast.t;
  gen_top : Z
}.

Inductive signal : Type :=
| Yield (r : row) (g : gen)
| Raised (e : exn)
| StopIteration.

Definition gen_start (result : list Blast.t) (num_top_results : Z) : gen :=
  mk_gen None result num_top_results.

Definition gen_emit (res : Blast.t) (aln : Alignment.t)
    (alns : list Alignment.t) (outer : list Blast.t) (n : Z) : signal :=
  match tabulate_row res aln with
  | Ok r => Yield r (mk_gen (Some (res, alns)) outer n)
  | Raise e => Raised e
  end.

(** Advance the outer loop to the next record with a non-empty slice. *)
Fixpoint gen_resume (outer : list Blast.t) (n : Z) : signal :=
  match outer with
  | [] => StopIteration
  | res :: outer' =>
      match slice0 (Blast.alignments res) n with
      | [] => gen_resume outer' n
      | aln :: alns => gen_emit res aln alns outer' n
      end
  end.

Definition gen_next (g : gen) : signal :=
  match gen_inner g with
  | Some (res, aln :: alns) => gen_emit res aln alns (gen_outer g) (gen_top g)
  | _ => gen_resume (gen_outer g) (gen_top g)
  end.

(** A [for] loop over the generator: it calls [next] until the generator
    stops or raises. *)
Inductive drains : gen -> list row -> option exn -> Prop :=
| drains_stop g :
    gen_next g = StopIteration -> drains g [] None
| drains_raise g e :
    gen_next g = Raised e -> drains g [] (Some e)
| drains_yield g r g' rs o :
    gen_next g = Yield r g' -> drains g' rs o -> drains g (r :: rs) o.

(** ** [str] of an int and [repr] of a float *)

Open Scope string_scope.
Open Scope Z_scope.

Definition int_str (z : Z) : string := NilZero.string_of_int (Z.to_int z).

(** The number of decimal digits of an int, its sign left out. *)
Definition int_digits (z : Z) : Z :=
  Z.of_nat (String.length (int_str (Z.abs z))).

(** The most decimal digits that [str] prints for an int,
    [sys.get_int_max_str_digits()]: 4300 on a host that does not change
    it. *)
Definition int_max_str_digits : Z := 4300.

(** Decimal candidates [d * 10^k] are compared with binary values
    [num / den] by cross multiplication. *)
Definition cmp_dec (d k num den : Z) : comparison :=
  if 0 <=? k then (d * 10 ^ k * den ?= num)
  else (d * den ?= num * 10 ^ (- k)).

Definition floor_dec (k num den : Z) : Z :=
  if 0 <=? k then num / (den * 10 ^ k)
  else (num * 10 ^ (- k)) / den.

Definition dec_digits (z : Z) : Z :=
  match z with
  | Zpos p => Z.of_nat (Decimal.nb_digits (Pos.to_uint p))
  | _ => 1
  end.

Definition floor_log10 (num den : Z) : Z :=
  let K := dec_digits num - dec_digits den in
  match cmp_dec 1 K num den with
  | Gt => K - 1
  | _ => K
  end.

(** Does [d * 10^k] read back as the float whose rounding interval is
    [lo / den .. hi / den]?  The end points belong to the interval when the
    float's mantissa is even. *)
Definition in_range (even : bool) (d k lo hi den : Z) : bool :=
  match cmp_dec d k lo den, cmp_dec d k hi den with
  | Gt, Lt => true
  | Eq, Lt => even
  | Gt, Eq => even
  | _, _ => false
  end.

(** The shortest decimal that reads back as the float, and among those of
    that length the one nearest to it: try 1, 2, ... significant digits (17
    are enough for any double). *)
Fixpoint shortest (fuel : nat) (n K10 : Z) (even : bool) (v lo hi den : Z) : Z * Z :=
  let k := K10 - n + 1 in
  let dl := floor_dec k v den in
  let dh := dl + 1 in
  match fuel with
  | O => (dl, k)
  | S fuel' =>
      match in_range even dl k lo hi den, in_range even dh k lo hi den with
      | true, true =>
          match cmp_dec (dl + dh) k (2 * v) den with
          | Gt => (dl, k)
          | Lt => (dh, k)
          | Eq => (if Z.even dl then dl else dh, k)
          end
      | true, false => (dl, k)
      | false, true => (dh, k)
      | false, false => shortest fuel' (n + 1) K10 even v lo hi den
      end
  end.

Fixpoint strip_zeros (fuel : nat) (d : Z) : Z :=
  match fuel with
  | O => d
  | S fuel' => if d mod 10 =? 0 then strip_zeros fuel' (d / 10) else d
  end.

Fixpoint zeros (n : nat) : string :=
  match n with
  | O => EmptyString
  | S n' => String "0" (zeros n')
  end.

Definition exp_str (x : Z) : string :=
  (if x <? 0 then "-" else "+") ++
  (if Z.abs x <? 10 then "0" else EmptyString) ++ int_str (Z.abs x).

(** Layout of the digits [0.DIGITS * 10^decpt] as [repr] prints them. *)
Definition format_repr (digits : string) (decpt : Z) : string :=
  let L := Z.of_nat (String.length digits) in
  if (16 <? decpt) || (decpt <? -3) then
    match digits with
    | EmptyString => EmptyString
    | String c EmptyString => String c EmptyString
    | String c rest => String c (String "." rest)
    end ++ "e" ++ exp_str (decpt - 1)
  else if decpt <=? 0 then
    "0." ++ zeros (Z.to_nat (- decpt)) ++ digits
  else if L <=? decpt then
    digits ++ zeros (Z.to_nat (decpt - L)) ++ ".0"
  else
    substring 0 (Z.to_nat decpt) digits ++ "." ++
    substring (Z.to_nat decpt) (Z.to_nat (L - decpt)) digits.

Definition finite_repr (m : positive) (e : Z) : string :=
  let m := Zpos m in
  let lo4 := if (m =? 2 ^ 52) && (-1074 <? e) then 4 * m - 1 else 4 * m - 2 in
  let scale := if 2 <=? e then 2 ^ (e - 2) else 1 in
  let den := if 2 <=? e then 1 else 2 ^ (2 - e) in
  let v := 4 * m * scale in
  let lo := lo4 * scale in
  let hi := (4 * m + 2) * scale in
  let '(d, k) := shortest 17 1 (floor_log10 v den) (Z.even m) v lo hi den in
  format_repr (int_str (strip_zeros 17 d)) (k + dec_digits d).

Definition float_repr (x : float) : string :=
  match x with
  | S754_nan => "nan"
  | S754_infinity s => if s then "-inf" else "inf"
  | S754_zero s => if s then "-0.0" else "0.0"
  | S754_finite s m e => (if s then "-" else EmptyString) ++ finite_repr m e
  end.

(** ** The csv writer: [csv.writer(f, delimiter='\t')]

    The dialect is the default one but for the delimiter: fields are quoted
    only when they have to be, quotes inside a field are doubled, and lines
    end in carriage return, line feed.  The file is a text file on a host
    whose line separator is the line feed, so the lines reach the file as
    the writer produces them. *)

Definition delimiter : ascii := "009"%char.
Definition quotechar : ascii := "034"%char.
Definition lineterminator : string := String "013" (String "010" EmptyString).

Fixpoint mem_char (c : ascii) (s : string) : bool :=
  match s with
  | EmptyString => false
  | String c' s' => Ascii.eqb c c' || mem_char c s'
  end.

(** The characters that make the writer quote a field. *)
Definition special (c : ascii) : bool :=
  Ascii.eqb c delimiter || Ascii.eqb c quotechar || mem_char c lineterminator.

Fixpoint needs_quote (s : string) : bool :=
  match s with
  | EmptyString => false
  | String c s' => special c || needs_quote s'
  end.

(** With [doublequote] set, a quote inside a field is written twice. *)
Fixpoint double_quotes (s : string) : string :=
  match s with
  | EmptyString => EmptyString
  | String c s' =>
      if Ascii.eqb c quotechar then String c (String c (double_quotes s'))
      else String c (double_quotes s')
  end.

Definition csv_field (s : string) : string :=
  if needs_quote s
  then String quotechar (double_quotes s ++ String quotechar EmptyString)
  else s.

Fixpoint join (sep : ascii) (l : list string) : string :=
  match l with
  | [] => EmptyString
  | [x] => x
  | x :: l' => x ++ String sep (join sep l')
  end.

(** The line written for a record.  A record that would come out empty (a
    single empty field) is written as a pair of quotes. *)
Definition csv_line (fields : list string) : string :=
  let body := join delimiter (map csv_field fields) in
  match fields, body with
  | _ :: _, EmptyString => String quotechar (String quotechar lineterminator)
  | _, _ => body ++ lineterminator
  end.

(** The files of the host, by path. *)
Definition filesystem : Type := string -> option string.

Definition fs_store (fs : filesystem) (path content : string) : filesystem :=
  fun p => if String.eqb p path then Some content else fs p.

Section Report.

(** How the run time prints a float. *)
Variable repr : float -> string.

(** [str(v)], the text the writer puts in a field.  For an int of more
    than [int_max_str_digits] digits, counted without the sign, [str]
    raises [ValueError]. *)
Definition py_str (v : pyval) : result string :=
  match v with
  | PStr s => Ok s
  | PInt z =>
      if int_digits z <=? int_max_str_digits then Ok (int_str z)
      else Raise ValueError
  | PFloat x => Ok (repr x)
  end.

(** The texts of the fields of a record, from left to right. *)
Fixpoint row_texts (r : row) : result (list string) :=
  match r with
  | [] => Ok []
  | v :: r' =>
      s <- py_str v ;;
      fields <- row_texts r' ;;
      Ok (s :: fields)
  end.

(** [out.writerow(r)] on a file whose content so far is [f].  The writer
    puts the whole line together before it writes any of it, so a field
    that cannot be printed leaves the file as it is. *)
Definition writerow (f : string) (r : row) : result string :=
  fields <- row_texts r ;;
  Ok (f ++ csv_line fields).

(** The [for] loop over the rows the generator yields before it ends with
    [o]: each row is written as it comes, and the first [writerow] that
    raises ends the loop before the generator is resumed. *)
Fixpoint write_rows (f : string) (rows : list row) (o : option exn)
    : string * option exn :=
  match rows with
  | [] => (f, o)
  | r :: rows' =>
      match writerow f r with
      | Ok f' => write_rows f' rows' o
      | Raise e => (f, Some e)
      end
  end.

Definition headers : row :=
  [ PStr "Query"; PStr "Matching Strain"; PStr "Query Coverage";
    PStr "Percent ID"; PStr "Identities"; PStr "Alignment Length";
    PStr "Query Start"; PStr "Query End"; PStr "Subject Start";
    PStr "Subject End"; PStr "Query Length"; PStr "Strain Length";
    PStr "e-value" ].

(** [blast_report(reportpath, result, num_top_results)]: the file is opened
    for writing, which empties it; the header is written; each row is
    written as the generator yields it; an exception of the generator or
    of the writer leaves the [with] block, which closes the file with what
    was written.  Returns the file system afterwards and the exception, if
    any. *)
Definition blast_report (fs : filesystem) (reportpath : string)
    (result : list Blast.t) (num_top_results : Z) : filesystem * option exn :=
  let f := EmptyString in
  match writerow f headers with
  | Raise e => (fs_store fs reportpath f, Some e)
  | Ok f =>
      let '(rows, o) := tabulate_hsp_xml result num_top_results in
      let '(f, o) := write_rows f rows o in
      (fs_store fs reportpath f, o)
  end.

End Report.

(** ** Reading a report back *)

(** [s.split(sep)] for a one-character separator. *)
Fixpoint split_on (sep : ascii) (s : string) : list string :=
  match s with
  | EmptyString => [EmptyString]
  | String c s' =>
      if Ascii.eqb c sep then EmptyString :: split_on sep s'
      else match split_on sep s' with
           | [] => [String c EmptyString]
           | w :: ws => String c w :: ws
           end
  end.

(** The lines of a text whose lines each end in carriage return, line
    feed. *)
Fixpoint split_crlf (s : string) : list string :=
  match s with
  | EmptyString => []
  | String c s' =>
      match s' with
      | String c' s'' =>
          if Ascii.eqb c "013" && Ascii.eqb c' "010" then EmptyString :: split_crlf s''
          else match split_crlf s' with
               | [] => [String c EmptyString]
               | w :: ws => String c w :: ws
               end
      | EmptyString => [String c EmptyString]
      end
  end.

Definition read_tsv (content : string) : list (list string) :=
  map (split_on delimiter) (split_crlf content).

Open Scope list_scope.

(** ** Vocabulary of the statements *)

(** The int converts to a float. *)
Definition convertible (z : Z) : bool :=
  match int_to_float z with
  | Ok _ => true
  | Raise _ => false
  end.

(** Nothing in the row computation of [aln] under [res] raises. *)
Definition row_ok (res : Blast.t) (aln : Alignment.t) : bool :=
  match Alignment.hsps aln with
  | [] => false
  | hsp :: _ =>
      convertible (HSP.identities hsp) &&
      convertible (HSP.align_length hsp) &&
      negb (HSP.align_length hsp =? 0) &&
      convertible (Blast.query_length res) &&
      negb (Blast.query_length res =? 0)
  end.

(** The alignments of [res] that the generator visits. *)
Definition taken (res : Blast.t) (n : Z) : list Alignment.t :=
  slice0 (Blast.alignments res) n.

(** The trace a generator still has to produce from a state. *)
Definition gen_trace (g : gen) : trace :=
  match gen_inner g with
  | Some (res, alns) =>
      match tabulate_alignments res alns with
      | (rs, Some e) => (rs, Some e)
      | (rs, None) =>
          let '(rs', o) := tabulate_hsp_xml (gen_outer g) (gen_top g) in
          (rs ++ rs', o)
      end
  | None => tabulate_hsp_xml (gen_outer g) (gen_top g)
  end.

(** A text without any character the csv writer treats specially. *)
Definition plain (s : string) : bool := negb (needs_quote s).

(** The names of every row to be written are plain. *)
Definition names_plain (result : list Blast.t) (n : Z) : bool :=
  forallb (fun res =>
             forallb (fun aln => plain (Blast.query res) &&
                                 plain (Alignment.hit_def aln))
                     (taken res n))
          result.

(** No row computation of the run raises. *)
Definition all_rows_ok (result : list Blast.t) (n : Z) : bool :=
  forallb (fun res => forallb (row_ok res) (taken res n)) result.

(** [needle in hay] on strings. *)
Fixpoint contains (needle hay : string) : bool :=
  prefix needle hay ||
  match hay with
  | EmptyString => false
  | String _ hay' => contains needle hay'
  end.

(** The text of a report: the lines of its records one after the
    other. *)
Fixpoint report_text (records : list (list string)) : string :=
  match records with
  | [] => EmptyString
  | fields :: records' => (csv_line fields ++ report_text records')%string
  end.

(** The (record, alignment) pairs the generator visits, in the order of
    its two loops. *)
Definition taken_pairs (result : list Blast.t) (n : Z)
    : list (Blast.t * Alignment.t) :=
  flat_map (fun res => map (pair res) (taken res n)) result.
(** The tuple that [tabulate_row] builds from the first HSP [hsp] of [aln]
    when nothing raises. *)
Definition row_values (res : Blast.t) (aln : Alignment.t) (hsp : HSP.t) : row :=
  [ PStr (Blast.query res);
    PStr (Alignment.hit_def aln);
    PFloat (float_abs
              (SFdiv prec emax
                 (SFmul prec emax float_100 (nearest_double (HSP.align_length hsp)))
                 (nearest_double (Blast.query_length res))));
    PFloat (SFdiv prec emax
              (SFmul prec emax float_100 (nearest_double (HSP.identities hsp)))
              (nearest_double (HSP.align_length hsp)));
    PInt (HSP.identities hsp);
    PInt (HSP.align_length hsp);
    PInt (HSP.query_start hsp);
    PInt (HSP.query_end hsp);
    PInt (HSP.sbjct_start hsp);
    PInt (HSP.sbjct_end hsp);
    PInt (Blast.query_length res);
    PInt (Alignment.length aln);
    PFloat (HSP.expect hsp) ].

(** The float [x] is the positive number [p * 2^k], with [p] below [2^53],
    in normal form. *)
Definition normal_of (x : float) (p k : Z) : Prop :=
  exists q : positive,
    x = S754_finite false q (k + Zdigits2 p - 53) /\
    Zpos q = p * 2 ^ (53 - Zdigits2 p).

(** Floats that are not a NaN and carry the sign [s]. *)
Inductive signed_as (s : bool) : float -> Prop :=
| signed_zero : signed_as s (S754_zero s)
| signed_infinity : signed_as s (S754_infinity s)
| signed_finite m e : signed_as s (S754_finite s m e).

(** A record of at least two fields, none of which the writer would
    quote. *)
Definition simple_fields (fields : list string) : Prop :=
  (2 <= List.length fields)%nat /\ Forall (fun s => plain s = true) fields.

(** A row of at least two values whose texts, where [str] gives one, the
    writer would not quote. *)
Definition simple_row (repr : float -> string) (r : row) : Prop :=
  (2 <= List.length r)%nat /\
  Forall (fun v => forall s, py_str repr v = Ok s -> plain s = true) r.

(** ** Sample inputs *)

(** The double nearest to 1e-50. *)
Definition float_1e_50 : float := S754_finite false 8424983333484575 (-219).

Definition sample_hsp (identities align_length : Z) : HSP.t :=
  HSP.mk identities align_length 1 100 1 100 float_1e_50.

(** One query of length 100 with one full-length match of 95 identities. *)
Definition one_match : list Blast.t :=
  [ Blast.mk "contig_1" 100
      [ Alignment.mk "A/duck/1" 100 [ sample_hsp 95 100 ] ] ].

(** One query with three matches, followed by a query without any. *)
Definition three_matches : list Blast.t :=
  [ Blast.mk "contig_1" 100
      [ Alignment.mk "A/duck/1" 100 [ sample_hsp 95 100; sample_hsp 10 20 ];
        Alignment.mk "A/duck/2" 120 [ sample_hsp 88 90 ];
        Alignment.mk "A/duck/3" 90 [ sample_hsp 70 80 ] ];
    Blast.mk "contig_2" 50 [] ].

(** The second match of the second query has an alignment of length 0. *)
Definition zero_length : list Blast.t :=
  [ Blast.mk "contig_1" 100 [ Alignment.mk "A/duck/1" 100 [ sample_hsp 95 100 ] ];
    Blast.mk "contig_2" 100
      [ Alignment.mk "A/duck/2" 120 [ sample_hsp 88 90 ];
        Alignment.mk "A/duck/3" 90 [ sample_hsp 0 0 ];
        Alignment.mk "A/duck/4" 90 [ sample_hsp 70 80 ] ] ].

(** A match with a negative alignment length. *)
Definition negative_length : list Blast.t :=
  [ Blast.mk "contig_1" 100 [ Alignment.mk "A/duck/1" 100 [ sample_hsp (-5) (-5) ] ] ].

(** Lengths that satisfy the data model and exceed the range of a double. *)
Definition huge_lengths : list Blast.t :=
  [ Blast.mk "contig_1" (2 ^ 1024)
      [ Alignment.mk "A/duck/1" (2 ^ 1024) [ sample_hsp (2 ^ 1024) (2 ^ 1024) ];
        Alignment.mk "A/duck/2" 120 [ sample_hsp 88 90 ] ] ].

(** A full-length match of 360287970189643 positions. *)
Definition long_match : list Blast.t :=
  [ Blast.mk "contig_1" 360287970189643
      [ Alignment.mk "A/duck/1" 360287970189643
          [ sample_hsp 360287970189643 360287970189643 ] ] ].



(** A file system without files. *)
Definition no_files : filesystem := fun _ => None.

(** Two matches, the second with the subject coordinate [sbjct_end]. *)
Definition long_coordinate (sbjct_end : Z) : list Blast.t :=
  [ Blast.mk "contig_1" 100
      [ Alignment.mk "A/duck/1" 100 [ sample_hsp 95 100 ];
        Alignment.mk "A/duck/2" 120
          [ HSP.mk 88 90 1 100 1 sbjct_end float_1e_50 ] ] ].
(** ** A decoder for the writer's format

    The decoder is no part of the program.  It serves to show that the
    text of a report determines the texts of the fields written: it is
    the inverse of the writer's quoting.  It goes through the text
    character by character, as the reader of the [csv] module does:
    outside quotes a tab ends a field and a carriage return, a line feed
    or the two in a row end a record; a field that opens with a quote runs
    to the next single quote, and a doubled quote inside stands for one
    quote.  It puts no limit on the length of a field. *)

Inductive reader_mode : Type :=
| RecordStart
| FieldStart
| Unquoted
| Quoted
| QuoteSeen
| AfterCR.

Record reader : Type := mk_reader {
  rd_records : list (list string);
  rd_fields : list string;
  rd_field : string;
  rd_mode : reader_mode
}.

Definition reader_init : reader := mk_reader [] [] EmptyString RecordStart.

Definition rd_push (c : ascii) (mode : reader_mode) (st : reader) : reader :=
  mk_reader (rd_records st) (rd_fields st)
            (rd_field st ++ String c EmptyString) mode.

Definition rd_set_mode (mode : reader_mode) (st : reader) : reader :=
  mk_reader (rd_records st) (rd_fields st) (rd_field st) mode.

Definition rd_end_field (st : reader) : reader :=
  mk_reader (rd_records st) (rd_fields st ++ [rd_field st]) EmptyString FieldStart.

Definition rd_end_record (mode : reader_mode) (st : reader) : reader :=
  mk_reader (rd_records st ++ [rd_fields st]) [] EmptyString mode.

(** A line end met outside quotes, in mode [mode]; [next] is the mode
    after it. *)
Definition rd_end_line (mode next : reader_mode) (st : reader) : reader :=
  match mode with
  | RecordStart => rd_end_record next st
  | _ => rd_end_record next (rd_end_field st)
  end.

(** A character met outside quotes, in mode [mode]. *)
Definition rd_outside (mode : reader_mode) (st : reader) (c : ascii) : reader :=
  if Ascii.eqb c delimiter then rd_end_field st
  else if Ascii.eqb c "013" then rd_end_line mode AfterCR st
  else if Ascii.eqb c "010" then rd_end_line mode RecordStart st
  else if Ascii.eqb c quotechar then
    match mode with
    | RecordStart | FieldStart => rd_set_mode Quoted st
    | QuoteSeen => rd_push c Quoted st
    | _ => rd_push c Unquoted st
    end
  else rd_push c Unquoted st.

Definition reader_step (st : reader) (c : ascii) : reader :=
  match rd_mode st with
  | Quoted =>
      if Ascii.eqb c quotechar then rd_set_mode QuoteSeen st
      else rd_push c Quoted st
  | AfterCR =>
      if Ascii.eqb c "010" then rd_set_mode RecordStart st
      else rd_outside RecordStart st c
  | mode => rd_outside mode st c
  end.

Fixpoint reader_run (st : reader) (s : string) : reader :=
  match s with
  | EmptyString => st
  | String c s' => reader_run (reader_step st c) s'
  end.

(** The records read once the text is exhausted. *)
Definition reader_finish (st : reader) : list (list string) :=
  match rd_mode st with
  | RecordStart | AfterCR => rd_records st
  | _ => rd_records st ++ [rd_fields st ++ [rd_field st]]
  end.

Definition decode (content : string) : list (list string) :=
  reader_finish (reader_run reader_init content).

(** A row with names that the writer has to quote: a tab, a quote, a line
    end. *)
Definition awkward_names : list Blast.t :=
  [ Blast.mk (String "a" (String "009" "b")) 100
      [ Alignment.mk (String "c" (String "034" (String "d" (String "013" (String "010" "e")))))
          100 [ sample_hsp 95 100 ] ];
    Blast.mk EmptyString 100
      [ Alignment.mk (String "034" EmptyString) 100 [ sample_hsp 88 90 ] ] ].

(** ** Strings by index, and [os.path] on a POSIX host *)

(** [s.rfind(c)] for a character: the index of its last occurrence, or
    -1. *)
Fixpoint rfind (c : ascii) (s : string) : Z :=
  match s with
  | EmptyString => -1
  | String x s' =>
      let r := rfind c s' in
      if 0 <=? r then r + 1 else if Ascii.eqb x c then 0 else -1
  end.

Fixpoint str_drop (n : nat) (s : string) : string :=
  match n, s with
  | O, _ => s
  | S n', String _ s' => str_drop n' s'
  | S _, EmptyString => EmptyString
  end.

Fixpoint str_take (n : nat) (s : string) : string :=
  match n, s with
  | O, _ => EmptyString
  | S n', String c s' => String c (str_take n' s')
  | S _, EmptyString => EmptyString
  end.

(** [s[start:stop]], both indices adjusted as for a list. *)
Definition str_slice (s : string) (start stop : Z) : string :=
  let len := Z.of_nat (String.length s) in
  let a := slice_stop len start in
  let b := slice_stop len stop in
  str_take (Z.to_nat (b - a)) (str_drop (Z.to_nat a) s).

(** [s[start:]] and [s[:stop]]. *)
Definition str_from (s : string) (start : Z) : string :=
  str_slice s start (Z.of_nat (String.length s)).

Definition str_to (s : string) (stop : Z) : string := str_slice s 0 stop.

(** [s.endswith(c)] for a character. *)
Fixpoint endswith (c : ascii) (s : string) : bool :=
  match s with
  | EmptyString => false
  | String x EmptyString => Ascii.eqb x c
  | String _ s' => endswith c s'
  end.

Definition sep : ascii := "/"%char.
Definition extsep : ascii := "."%char.

(** [os.path.basename(p)] *)
Definition basename (p : string) : string :=
  let i := rfind sep p + 1 in
  str_from p i.

(** The loop of [os.path.splitext] that looks for a character other than a
    dot between [filenameIndex] and [dotIndex]; [k] is the number of
    indices left to visit. *)
Fixpoint splitext_scan (k : nat) (p : string) (filenameIndex dotIndex : Z)
    : string * string :=
  match k with
  | O => (p, str_to p 0)
  | S k' =>
      if negb (String.eqb (str_slice p filenameIndex (filenameIndex + 1))
                          (String extsep EmptyString))
      then (str_to p dotIndex, str_from p dotIndex)
      else splitext_scan k' p (filenameIndex + 1) dotIndex
  end.

(** [os.path.splitext(p)]: the extension starts at the last dot of the last
    component, unless only dots come before it there. *)
Definition splitext (p : string) : string * string :=
  let sepIndex := rfind sep p in
  let dotIndex := rfind extsep p in
  if sepIndex <? dotIndex then
    let filenameIndex := sepIndex + 1 in
    splitext_scan (Z.to_nat (dotIndex - filenameIndex)) p filenameIndex dotIndex
  else (p, str_to p 0).

(** One turn of the loop of [os.path.join]. *)
Definition join_step (path b : string) : string :=
  if prefix (String sep EmptyString) b then b
  else if match path with EmptyString => true | _ => endswith sep path end
       then (path ++ b)%string
       else (path ++ String sep b)%string.

(** [os.path.join(a, *p)] *)
Definition path_join (a : string) (p : list string) : string :=
  fold_left join_step p a.

(** ** Names and commands *)

(** [strain_name(fasta)] *)
Definition strain_name (fasta : string) : string :=
  fst (splitext (basename fasta)).

(** The commands handed to [subprocess], oldest first. *)
Definition processes : Type := list (list string).

(** [prokka_annotate(prokka_dir, fasta, cores)]: the command is run and its
    exit status dropped; the path of the annotated genes is returned. *)
Definition prokka_annotate (ran : processes) (prokka_dir fasta : string) (cores : Z)
    : processes * string :=
  let strain := strain_name fasta in
  let prokka :=
    [ "prokka";
      "--kingdom"; "Viruses";
      "--outdir"; path_join prokka_dir [strain];
      "--prefix"; strain;
      "--locustag"; strain;
      "--cpus"; int_str cores;
      fasta ] in
  let ran := ran ++ [prokka] in
  (ran, path_join prokka_dir [strain; (strain ++ ".ffn")%string]).

(** A name made of dots only (or empty): [os.path.splitext] finds no
    extension in it. *)
Fixpoint only_dots (s : string) : bool :=
  match s with
  | EmptyString => true
  | String c s' => Ascii.eqb c extsep && only_dots s'
  end.

(** The least positive int that Python refuses to convert to a float:
    halfway between the largest double and [2^1024]. *)
Definition float_limit : Z := 2 ^ 1024 - 2 ^ 970.

(** An infinity, of either sign. *)
Definition is_infinity (x : float) : bool :=
  match x with
  | S754_infinity _ => true
  | _ => false
  end.
(** * Binary64 arithmetic *)

Lemma digits2_pos_bounds (p : positive) :
  2 ^ (Zpos (digits2_pos p) - 1) <= Zpos p < 2 ^ Zpos (digits2_pos p).
Proof.
  induction p as [p IH | p IH | ]; simpl digits2_pos.
  - rewrite Pos2Z.inj_succ, (Pos2Z.inj_xI p).
    replace (Z.succ (Zpos (digits2_pos p)) - 1) with (Z.succ (Zpos (digits2_pos p) - 1)) by lia.
    rewrite !Z.pow_succ_r by lia.
    set (lo := 2 ^ (Zpos (digits2_pos p) - 1)) in *.
    set (hi := 2 ^ Zpos (digits2_pos p)) in *. lia.
  - rewrite Pos2Z.inj_succ, (Pos2Z.inj_xO p).
    replace (Z.succ (Zpos (digits2_pos p)) - 1) with (Z.succ (Zpos (digits2_pos p) - 1)) by lia.
    rewrite !Z.pow_succ_r by lia.
    set (lo := 2 ^ (Zpos (digits2_pos p) - 1)) in *.
    set (hi := 2 ^ Zpos (digits2_pos p)) in *. lia.
  - simpl. lia.
Qed.

Lemma Zdigits2_bounds (m : Z) :
  0 < m -> 2 ^ (Zdigits2 m - 1) <= m < 2 ^ Zdigits2 m.
Proof.
  destruct m as [ | p | p ]; try lia. intros _. apply digits2_pos_bounds.
Qed.

Lemma Zdigits2_pos (m : Z) : 0 < m -> 0 < Zdigits2 m.
Proof. destruct m; simpl; lia. Qed.

Lemma Zdigits2_unique (m d : Z) :
  2 ^ (d - 1) <= m < 2 ^ d -> 0 < m -> Zdigits2 m = d.
Proof.
  intros Hb Hm.
  pose proof (Zdigits2_bounds m Hm) as Hd.
  pose proof (Zdigits2_pos m Hm) as Hp.
  assert (Hd0 : 0 < d).
  { destruct (Z_lt_le_dec 0 d) as [ | Hle ]; [ assumption | ].
    exfalso. destruct (Z.eq_dec d 0) as [ -> | ].
    - simpl in Hb. lia.
    - rewrite (Z.pow_neg_r 2 d) in Hb by lia. lia. }
  destruct (Z.lt_trichotomy (Zdigits2 m) d) as [ Hlt | [ Heq | Hgt ] ]; [ | assumption | ].
  - exfalso.
    assert (2 ^ Zdigits2 m <= 2 ^ (d - 1)) by (apply Z.pow_le_mono_r; lia). lia.
  - exfalso.
    assert (2 ^ d <= 2 ^ (Zdigits2 m - 1)) by (apply Z.pow_le_mono_r; lia). lia.
Qed.

Lemma shr_1_nonneg (m : Z) (r s : bool) :
  0 <= m ->
  shr_1 (Build_shr_record m r s) = Build_shr_record (m / 2) (Z.odd m) (r || s).
Proof.
  intros Hm. destruct m as [ | [ p | p | ] | p ]; try lia; cbn [shr_1].
  - reflexivity.
  - f_equal. rewrite (Pos2Z.inj_xI p). apply Z.div_unique with (r := 1); lia.
  - f_equal. rewrite (Pos2Z.inj_xO p). apply Z.div_unique with (r := 0); lia.
  - reflexivity.
Qed.

Lemma iter_pos_nat {A : Type} (f : A -> A) (n : positive) (x : A) :
  SpecFloat.iter_pos f n x = Nat.iter (Pos.to_nat n) f x.
Proof.
  revert x. induction n as [ n IH | n IH | ]; intros x; cbn [SpecFloat.iter_pos].
  - rewrite !IH, Pos2Nat.inj_xI.
    replace (S (2 * Pos.to_nat n))%nat with (Pos.to_nat n + (Pos.to_nat n + 1))%nat by lia.
    rewrite !Nat.iter_add. reflexivity.
  - rewrite !IH, Pos2Nat.inj_xO.
    replace (2 * Pos.to_nat n)%nat with (Pos.to_nat n + Pos.to_nat n)%nat by lia.
    rewrite Nat.iter_add. reflexivity.
  - reflexivity.
Qed.

Lemma iter_shr_m (n : nat) (rec : shr_record) :
  0 <= shr_m rec ->
  shr_m (Nat.iter n shr_1 rec) = shr_m rec / 2 ^ Z.of_nat n.
Proof.
  intros Hm. induction n as [ | n IH ].
  - simpl. rewrite Z.div_1_r. reflexivity.
  - rewrite Nat.iter_succ.
    assert (Hn : 0 <= shr_m (Nat.iter n shr_1 rec)).
    { rewrite IH. apply Z.div_pos; [ assumption | apply Z.pow_pos_nonneg; lia ]. }
    destruct (Nat.iter n shr_1 rec) as [ m r s ] eqn:E. cbn [shr_m] in *.
    rewrite shr_1_nonneg by assumption. cbn [shr_m].
    rewrite IH, Nat2Z.inj_succ, Z.pow_succ_r by lia.
    rewrite Z.div_div by (try apply Z.pow_pos_nonneg; lia).
    f_equal. lia.
Qed.

Lemma iter_shr_exact (n : nat) (q : Z) :
  0 <= q ->
  Nat.iter n shr_1 (Build_shr_record (q * 2 ^ Z.of_nat n) false false)
  = Build_shr_record q false false.
Proof.
  intros Hq. revert q Hq. induction n as [ | n IH ]; intros q Hq.
  - simpl. f_equal. lia.
  - rewrite Nat.iter_succ_r.
    assert (H2 : 0 < 2 ^ Z.of_nat n) by (apply Z.pow_pos_nonneg; lia).
    rewrite shr_1_nonneg by (apply Z.mul_nonneg_nonneg; [ lia | apply Z.pow_nonneg; lia ]).
    rewrite Nat2Z.inj_succ, Z.pow_succ_r by lia.
    replace (q * (2 * 2 ^ Z.of_nat n)) with (q * 2 ^ Z.of_nat n * 2) by lia.
    rewrite Z.div_mul by lia.
    rewrite Z.odd_mul. simpl (Z.odd 2). rewrite andb_false_r. simpl orb.
    apply IH. assumption.
Qed.

(** [shr] on a non-negative mantissa. *)
Lemma shr_m_nonneg (rec : shr_record) (e n : Z) :
  0 <= shr_m rec ->
  shr_m (fst (shr rec e n)) = shr_m rec / 2 ^ Z.max n 0 /\
  snd (shr rec e n) = e + Z.max n 0.
Proof.
  intros Hm. destruct n as [ | p | p ]; cbn [shr fst snd].
  - simpl. rewrite Z.div_1_r. split; [ reflexivity | lia ].
  - rewrite iter_pos_nat, iter_shr_m by assumption.
    rewrite positive_nat_Z. rewrite Z.max_l by lia. split; reflexivity.
  - simpl. rewrite Z.div_1_r. split; [ reflexivity | lia ].
Qed.


Lemma shr_m_of_loc (m : Z) (l : location) : shr_m (shr_record_of_loc m l) = m.
Proof. destruct l as [ | [ | | ] ]; reflexivity. Qed.

Lemma loc_of_shr_record_of_loc (m : Z) (l : location) :
  loc_of_shr_record (shr_record_of_loc m l) = l.
Proof. destruct l as [ | [ | | ] ]; reflexivity. Qed.

Lemma round_nearest_even_bounds (m : Z) (l : location) :
  m <= round_nearest_even m l <= m + 1.
Proof.
  destruct l as [ | [ | | ] ]; cbn [round_nearest_even]; try lia.
  destruct (Z.even m); lia.
Qed.

Lemma round_nearest_even_exact (m : Z) : round_nearest_even m loc_Exact = m.
Proof. reflexivity. Qed.

Lemma fexp_eq (x : Z) : fexp prec emax x = Z.max (x - 53) (-1074).
Proof. reflexivity. Qed.

(** The two stages of [binary_round_aux]: a shift to the working precision
    with rounding, then a second shift in case the rounding carried. *)
Lemma binary_round_aux_stages (s : bool) (m e : Z) (l : location) :
  0 <= m ->
  let n1 := Z.max (fexp prec emax (Zdigits2 m + e) - e) 0 in
  let r1 := fst (shr (shr_record_of_loc m l) e (fexp prec emax (Zdigits2 m + e) - e)) in
  let m1 := round_nearest_even (m / 2 ^ n1) (loc_of_shr_record r1) in
  let e1 := e + n1 in
  let n2 := Z.max (fexp prec emax (Zdigits2 m1 + e1) - e1) 0 in
  binary_round_aux prec emax s m e l =
  match m1 / 2 ^ n2 with
  | Z0 => S754_zero s
  | Zpos p => if e1 + n2 <=? emax - prec then S754_finite s p (e1 + n2) else S754_infinity s
  | Zneg _ => S754_nan
  end.
Proof.
  intros Hm n1 r1 m1 e1 n2.
  unfold binary_round_aux, shr_fexp.
  pose proof (shr_m_nonneg (shr_record_of_loc m l) e
                (fexp prec emax (Zdigits2 m + e) - e)) as H1.
  rewrite shr_m_of_loc in H1. specialize (H1 Hm). destruct H1 as [H1m H1e].
  fold r1 in H1m. fold n1 in H1m, H1e.
  destruct (shr (shr_record_of_loc m l) e (fexp prec emax (Zdigits2 m + e) - e))
    as [mrs' e'] eqn:E1.
  cbn [fst snd] in *. subst r1. rewrite H1m. subst e'. fold m1. fold e1.
  assert (Hm1 : 0 <= m1).
  { pose proof (round_nearest_even_bounds (m / 2 ^ n1) (loc_of_shr_record mrs')).
    fold m1 in H.
    assert (0 <= m / 2 ^ n1) by (apply Z.div_pos; [ assumption | apply Z.pow_pos_nonneg; lia ]).
    lia. }
  pose proof (shr_m_nonneg (shr_record_of_loc m1 loc_Exact) e1
                (fexp prec emax (Zdigits2 m1 + e1) - e1)) as H2.
  rewrite shr_m_of_loc in H2. specialize (H2 Hm1). destruct H2 as [H2m H2e].
  fold n2 in H2m, H2e.
  destruct (shr (shr_record_of_loc m1 loc_Exact) e1 (fexp prec emax (Zdigits2 m1 + e1) - e1))
    as [mrs'' e''] eqn:E2.
  cbn [fst snd] in *. rewrite H2m, H2e. reflexivity.
Qed.

Lemma binary_round_aux_not_nan (s : bool) (m e : Z) (l : location) :
  0 <= m -> binary_round_aux prec emax s m e l <> S754_nan.
Proof.
  intros Hm. rewrite binary_round_aux_stages by assumption.
  cbv zeta.
  set (n1 := Z.max (fexp prec emax (Zdigits2 m + e) - e) 0).
  set (l1 := loc_of_shr_record _).
  set (m1 := round_nearest_even (m / 2 ^ n1) l1).
  set (n2 := Z.max _ 0).
  assert (0 <= m1 / 2 ^ n2).
  { apply Z.div_pos; [ | apply Z.pow_pos_nonneg; lia ].
    pose proof (round_nearest_even_bounds (m / 2 ^ n1) l1). fold m1 in H.
    assert (0 <= m / 2 ^ n1) by (apply Z.div_pos; [ assumption | apply Z.pow_pos_nonneg; lia ]).
    lia. }
  destruct (m1 / 2 ^ n2) as [ | p | p ]; try lia; try discriminate.
  destruct (_ <=? _); discriminate.
Qed.

Lemma div_pow2_pos (m n : Z) :
  0 < m -> 0 <= n -> n <= Zdigits2 m - 1 -> 0 < m / 2 ^ n.
Proof.
  intros Hm Hn Hle.
  pose proof (Zdigits2_bounds m Hm) as [Hlo _].
  assert (2 ^ n <= 2 ^ (Zdigits2 m - 1)) by (apply Z.pow_le_mono_r; lia).
  apply Z.div_str_pos. split; [ apply Z.pow_pos_nonneg; lia | lia ].
Qed.

(** No underflow to zero from a positive mantissa at an exponent in range. *)
Lemma binary_round_aux_nonzero (s : bool) (m e : Z) (l : location) :
  0 < m -> -1074 <= e ->
  exists p E, binary_round_aux prec emax s m e l =
              (if E <=? emax - prec then S754_finite s p E else S754_infinity s).
Proof.
  intros Hm He. rewrite binary_round_aux_stages by lia.
  cbv zeta.
  set (n1 := Z.max (fexp prec emax (Zdigits2 m + e) - e) 0).
  set (l1 := loc_of_shr_record _).
  set (m1 := round_nearest_even (m / 2 ^ n1) l1).
  set (e1 := e + n1).
  set (n2 := Z.max _ 0).
  pose proof (Zdigits2_pos m Hm) as Hd.
  assert (Hq1 : 0 < m / 2 ^ n1).
  { apply div_pow2_pos; try lia. subst n1. rewrite fexp_eq. lia. }
  assert (Hm1 : 0 < m1).
  { pose proof (round_nearest_even_bounds (m / 2 ^ n1) l1). fold m1 in H. lia. }
  pose proof (Zdigits2_pos m1 Hm1) as Hd1.
  assert (Hq2 : 0 < m1 / 2 ^ n2).
  { apply div_pow2_pos; try lia. subst n2. rewrite fexp_eq. subst e1. lia. }
  destruct (m1 / 2 ^ n2) as [ | p | p ]; try lia.
  exists p, (e1 + n2). reflexivity.
Qed.

Lemma shr_exact (q e n : Z) :
  0 <= q -> 0 <= n ->
  shr (Build_shr_record (q * 2 ^ n) false false) e n = (Build_shr_record q false false, e + n).
Proof.
  intros Hq Hn. destruct n as [ | p | p ]; try lia; cbn [shr].
  - f_equal; [ f_equal | ]; lia.
  - rewrite iter_pos_nat. rewrite <- (positive_nat_Z p) at 1.
    rewrite iter_shr_exact by assumption. reflexivity.
Qed.

(** Rounding a value that already fits the precision changes nothing. *)
Lemma binary_round_aux_exact (s : bool) (q : positive) (e n : Z) :
  2 ^ 52 <= Zpos q < 2 ^ 53 -> 0 <= n ->
  -1074 <= e + n <= 971 ->
  binary_round_aux prec emax s (Zpos q * 2 ^ n) e loc_Exact = S754_finite s q (e + n).
Proof.
  intros Hq Hn He.
  assert (Hp : 0 < 2 ^ n) by (apply Z.pow_pos_nonneg; lia).
  assert (Hd : Zdigits2 (Zpos q * 2 ^ n) = 53 + n).
  { apply Zdigits2_unique; [ | lia ].
    replace (53 + n - 1) with (52 + n) by lia.
    rewrite !Z.pow_add_r by lia. nia. }
  rewrite binary_round_aux_stages by lia. cbv zeta.
  rewrite Hd, fexp_eq.
  replace (Z.max (53 + n + e - 53) (-1074) - e) with n by lia.
  rewrite Z.max_l by lia.
  change (shr_record_of_loc (Zpos q * 2 ^ n) loc_Exact)
    with (Build_shr_record (Zpos q * 2 ^ n) false false).
  rewrite shr_exact by lia. cbn [fst loc_of_shr_record].
  rewrite Z.div_mul by lia. rewrite round_nearest_even_exact.
  assert (Hdq : Zdigits2 (Zpos q) = 53) by (apply Zdigits2_unique; [ exact Hq | lia ]).
  rewrite Hdq, fexp_eq.
  replace (Z.max (Z.max (53 + (e + n) - 53) (-1074) - (e + n)) 0) with 0 by lia.
  rewrite Z.pow_0_r, Z.div_1_r, Z.add_0_r.
  replace (e + n <=? emax - prec) with true; [ reflexivity | ].
  symmetry. apply Z.leb_le. unfold emax, prec. lia.
Qed.


Lemma pos_iter_xO (p k : positive) :
  Zpos (Pos.iter xO p k) = Zpos p * 2 ^ Zpos k.
Proof.
  induction k as [ | k IH ] using Pos.peano_ind.
  - simpl. lia.
  - rewrite Pos.iter_succ, (Pos2Z.inj_xO (Pos.iter xO p k)), IH.
    rewrite Pos2Z.inj_succ, Z.pow_succ_r by lia. lia.
Qed.

Lemma normal_mantissa (p : Z) :
  0 < p < 2 ^ 53 ->
  Zdigits2 p <= 53 /\ 2 ^ 52 <= p * 2 ^ (53 - Zdigits2 p) < 2 ^ 53.
Proof.
  intros Hp.
  pose proof (Zdigits2_bounds p (proj1 Hp)) as Hb.
  pose proof (Zdigits2_pos p (proj1 Hp)) as Hd.
  assert (Hle : Zdigits2 p <= 53).
  { destruct (Z_le_gt_dec (Zdigits2 p) 53) as [ | Hgt ]; [ assumption | exfalso ].
    assert (2 ^ 53 <= 2 ^ (Zdigits2 p - 1)) by (apply Z.pow_le_mono_r; lia). lia. }
  split; [ exact Hle | ].
  assert (H52 : 2 ^ 52 = 2 ^ (Zdigits2 p - 1) * 2 ^ (53 - Zdigits2 p)).
  { rewrite <- Z.pow_add_r by lia. f_equal. lia. }
  assert (H53 : 2 ^ 53 = 2 ^ Zdigits2 p * 2 ^ (53 - Zdigits2 p)).
  { rewrite <- Z.pow_add_r by lia. f_equal. lia. }
  assert (0 < 2 ^ (53 - Zdigits2 p)) by (apply Z.pow_pos_nonneg; lia).
  rewrite H52, H53. nia.
Qed.

Lemma binary_round_aux_normal (s : bool) (q : positive) (e : Z) :
  2 ^ 52 <= Zpos q < 2 ^ 53 -> -1074 <= e <= 971 ->
  binary_round_aux prec emax s (Zpos q) e loc_Exact = S754_finite s q e.
Proof.
  intros Hq He.
  pose proof (binary_round_aux_exact s q e 0 Hq) as H.
  rewrite Z.pow_0_r, Z.mul_1_r, Z.add_0_r in H. apply H; lia.
Qed.

(** Ints below [2^53] convert exactly. *)
Lemma nearest_double_small (p : Z) :
  0 < p < 2 ^ 53 -> normal_of (nearest_double p) p 0.
Proof.
  intros Hp. destruct (normal_mantissa p Hp) as [Hle Hm].
  destruct p as [ | p | p ]; try lia.
  unfold normal_of, nearest_double, binary_normalize, binary_round.
  cbn [Zdigits2] in *. rewrite Z.add_0_r, fexp_eq.
  set (d := Zpos (digits2_pos p)) in *.
  replace (Z.max (d - 53) (-1074)) with (d - 53) by lia.
  unfold shl_align. rewrite Z.sub_0_r.
  destruct (d - 53) as [ | k | k ] eqn:Ek; try lia.
  - assert (Hd : d = 53) by lia. rewrite Hd in Hm. simpl (2 ^ (53 - 53)) in Hm.
    rewrite Z.mul_1_r in Hm.
    exists p. split.
    + rewrite binary_round_aux_normal by lia. f_equal. lia.
    + rewrite Hd. simpl. lia.
  - assert (Hk : 53 - d = Zpos k) by lia.
    exists (Pos.iter xO p k). split.
    + rewrite binary_round_aux_normal.
      * f_equal. lia.
      * rewrite pos_iter_xO, <- Hk. exact Hm.
      * lia.
    + rewrite pos_iter_xO, Hk. reflexivity.
Qed.

(** [100. * x] is exact while [25 * p] stays below [2^53]. *)
Lemma mul_100_exact (x : float) (p : Z) :
  0 < p -> 25 * p < 2 ^ 53 ->
  normal_of x p 0 -> normal_of (SFmul prec emax float_100 x) (25 * p) 2.
Proof.
  intros Hp H25 (q & -> & Hq).
  assert (Hp53 : 0 < p < 2 ^ 53) by lia.
  destruct (normal_mantissa p Hp53) as [Hdp _].
  assert (H25' : 0 < 25 * p < 2 ^ 53) by lia.
  destruct (normal_mantissa (25 * p) H25') as [Hd25 Hm25].
  pose proof (Zdigits2_bounds p Hp) as Hbp.
  pose proof (Zdigits2_bounds (25 * p) (proj1 H25')) as Hb25.
  pose proof (Zdigits2_pos p Hp) as Hdpos.
  set (d := Zdigits2 p) in *. set (d' := Zdigits2 (25 * p)) in *.
  assert (Hdd : d <= d').
  { destruct (Z_le_gt_dec d d') as [ | Hgt ]; [ assumption | exfalso ].
    assert (2 ^ d' <= 2 ^ (d - 1)) by (apply Z.pow_le_mono_r; lia). lia. }
  assert (HQ : 0 < 25 * p * 2 ^ (53 - d')).
  { assert (0 < 2 ^ (53 - d')) by (apply Z.pow_pos_nonneg; lia). nia. }
  destruct (25 * p * 2 ^ (53 - d')) as [ | Q | Q ] eqn:EQ; try lia.
  exists Q. split; [ | symmetry; exact EQ ].
  unfold float_100. cbn [SFmul xorb].
  replace (Zpos (7036874417766400 * q)) with (Zpos Q * 2 ^ (48 - d + d')).
  - rewrite binary_round_aux_exact by lia. f_equal. lia.
  - rewrite Pos2Z.inj_mul, Hq, <- EQ.
    change (Zpos 7036874417766400) with (25 * 2 ^ 48).
    replace (25 * p * 2 ^ (53 - d') * 2 ^ (48 - d + d'))
      with (25 * p * (2 ^ (53 - d') * 2 ^ (48 - d + d'))) by lia.
    rewrite <- Z.pow_add_r by lia.
    replace (25 * 2 ^ 48 * (p * 2 ^ (53 - d))) with (25 * p * (2 ^ 48 * 2 ^ (53 - d))) by lia.
    rewrite <- Z.pow_add_r by lia.
    f_equal. f_equal. lia.
Qed.


Lemma new_location_exact (m : Z) : new_location m 0 = loc_Exact.
Proof. unfold new_location. destruct (Z.even m); reflexivity. Qed.

Lemma Zdigits2_53 (m : Z) : 2 ^ 52 <= m < 2 ^ 53 -> Zdigits2 m = 53.
Proof. intros H. apply Zdigits2_unique; [ exact H | lia ]. Qed.

Lemma Zdigits2_54 (m : Z) : 2 ^ 53 <= m < 2 ^ 54 -> Zdigits2 m = 54.
Proof. intros H. apply Zdigits2_unique; [ exact H | lia ]. Qed.

(** Division of two normal numbers: a 53 or 54 bit quotient is formed, then
    rounded. *)
Lemma SFdiv_normal (m1 m2 : positive) (e1 e2 : Z) :
  2 ^ 52 <= Zpos m1 < 2 ^ 53 -> 2 ^ 52 <= Zpos m2 < 2 ^ 53 ->
  -1021 <= e1 - e2 ->
  SFdiv prec emax (S754_finite false m1 e1) (S754_finite false m2 e2) =
  binary_round_aux prec emax false
    ((Zpos m1 * 2 ^ 53) / Zpos m2) (e1 - e2 - 53)
    (new_location (Zpos m2) ((Zpos m1 * 2 ^ 53) mod Zpos m2)).
Proof.
  intros H1 H2 He. cbn [SFdiv xorb]. unfold SFdiv_core_binary.
  rewrite (Zdigits2_53 _ H1), (Zdigits2_53 _ H2), fexp_eq.
  replace (Z.min (Z.max (53 + e1 - (53 + e2) - 53) (-1074)) (e1 - e2))
    with (e1 - e2 - 53) by lia.
  replace (e1 - e2 - (e1 - e2 - 53)) with 53 by lia.
  cbv iota. rewrite Z.shiftl_mul_pow2 by lia.
  unfold Z.div, Z.modulo.
  destruct (Z.div_eucl (Zpos m1 * 2 ^ 53) (Zpos m2)) as [q r]. reflexivity.
Qed.

Lemma pow2_le_100 (j : Z) : 2 ^ 52 <= 100 * 2 ^ j -> 46 <= j.
Proof.
  intros H. destruct (Z_le_gt_dec 46 j) as [ | Hlt ]; [ assumption | exfalso ].
  destruct (Z_lt_le_dec j 0) as [ Hneg | Hpos ].
  - rewrite (Z.pow_neg_r 2 j) in H by assumption. lia.
  - assert (2 ^ j <= 2 ^ 45) by (apply Z.pow_le_mono_r; lia). lia.
Qed.

Lemma pow2_succ_neg (e : Z) : e <= -1 -> 2 ^ (- e) = 2 * 2 ^ (- (e + 1)).
Proof.
  intros He. replace (- e) with (Z.succ (- (e + 1))) by lia.
  apply Z.pow_succ_r. lia.
Qed.

(** The second stage on a mantissa of 53 bits, or [2^53] after a carry. *)
Lemma carry_stage (m1 e1 : Z) :
  2 ^ 52 <= m1 <= 2 ^ 53 -> -1074 <= e1 <= -2 ->
  m1 <= 100 * 2 ^ (- e1) ->
  exists (M : positive) (E : Z),
    match m1 / 2 ^ Z.max (fexp prec emax (Zdigits2 m1 + e1) - e1) 0 with
    | Z0 => S754_zero false
    | Zpos p =>
        if e1 + Z.max (fexp prec emax (Zdigits2 m1 + e1) - e1) 0 <=? emax - prec
        then S754_finite false p (e1 + Z.max (fexp prec emax (Zdigits2 m1 + e1) - e1) 0)
        else S754_infinity false
    | Zneg _ => S754_nan
    end = S754_finite false M E /\
    2 ^ 52 <= Zpos M < 2 ^ 53 /\ E <= 0 /\ Zpos M <= 100 * 2 ^ (- E) /\
    (m1 < 2 ^ 53 -> Zpos M = m1 /\ E = e1).
Proof.
  intros Hm He Hle.
  destruct (Z_lt_le_dec m1 (2 ^ 53)) as [ Hlt | Hge ].
  - rewrite (Zdigits2_53 m1) by lia. rewrite fexp_eq.
    replace (Z.max (Z.max (53 + e1 - 53) (-1074) - e1) 0) with 0 by lia.
    rewrite Z.pow_0_r, Z.div_1_r, Z.add_0_r.
    destruct m1 as [ | p | p ]; try lia.
    exists p, e1.
    replace (e1 <=? emax - prec) with true
      by (symmetry; apply Z.leb_le; unfold emax, prec; lia).
    repeat split; try lia.
  - assert (Hm1 : m1 = 2 ^ 53) by lia. subst m1.
    rewrite (Zdigits2_54 (2 ^ 53)) by lia. rewrite fexp_eq.
    replace (Z.max (Z.max (54 + e1 - 53) (-1074) - e1) 0) with 1 by lia.
    change (2 ^ 53 / 2 ^ 1) with (Zpos 4503599627370496).
    exists 4503599627370496%positive, (e1 + 1).
    replace (e1 + 1 <=? emax - prec) with true
      by (symmetry; apply Z.leb_le; unfold emax, prec; lia).
    rewrite (pow2_succ_neg e1) in Hle by lia.
    repeat split; try lia.
Qed.

Lemma round_quotient_le (q e : Z) (l : location) :
  2 ^ 52 <= q < 2 ^ 54 -> -1074 <= e ->
  q <= 100 * 2 ^ (- e) ->
  (l <> loc_Exact -> q < 100 * 2 ^ (- e)) ->
  exists (M : positive) (E : Z),
    binary_round_aux prec emax false q e l = S754_finite false M E /\
    2 ^ 52 <= Zpos M < 2 ^ 53 /\ E <= 0 /\ Zpos M <= 100 * 2 ^ (- E).
Proof.
  intros Hq He Hle Hlt.
  assert (He46 : e <= -46).
  { assert (46 <= - e) by (apply pow2_le_100; lia). lia. }
  rewrite binary_round_aux_stages by lia. cbv zeta.
  destruct (Z_lt_le_dec q (2 ^ 53)) as [ Hq53 | Hq54 ].
  - (* a 53 bit quotient: no shift before rounding *)
    rewrite (Zdigits2_53 q) by lia. rewrite fexp_eq.
    replace (Z.max (53 + e - 53) (-1074) - e) with 0 by lia.
    cbn [shr fst Z.max]. rewrite loc_of_shr_record_of_loc.
    rewrite Z.pow_0_r, Z.div_1_r, Z.add_0_r.
    pose proof (round_nearest_even_bounds q l) as Hr.
    set (m1 := round_nearest_even q l) in *.
    assert (Hm1 : m1 <= 100 * 2 ^ (- e)).
    { destruct l as [ | c ].
      - subst m1. rewrite round_nearest_even_exact. exact Hle.
      - assert (q < 100 * 2 ^ (- e)) by (apply Hlt; discriminate). lia. }
    destruct (carry_stage m1 e) as (M & E & HE & HM & HE0 & HME & _); try lia.
    exists M, E. repeat split; try assumption; lia.
  - (* a 54 bit quotient: one bit is shifted out *)
    rewrite (Zdigits2_54 q) by lia. rewrite fexp_eq.
    replace (Z.max (54 + e - 53) (-1074) - e) with 1 by lia.
    cbn [shr fst Z.max SpecFloat.iter_pos]. rewrite Z.pow_1_r.
    rewrite (pow2_succ_neg e) in Hle, Hlt by lia.
    set (N' := 100 * 2 ^ (- (e + 1))) in *.
    assert (Hle' : q <= 2 * N') by lia.
    assert (Hlt' : l <> loc_Exact -> q < 2 * N') by (intros Hl; specialize (Hlt Hl); lia).
    clear Hle Hlt.
    set (l1 := loc_of_shr_record (shr_1 (shr_record_of_loc q l))).
    pose proof (round_nearest_even_bounds (q / 2) l1) as Hr.
    set (m1 := round_nearest_even (q / 2) l1) in *.
    assert (Hm1 : m1 <= N').
    { destruct (Z.odd q) eqn:Hodd.
      - (* q is odd, the bound is even *)
        assert (q < 2 * N').
        { destruct (Z.eq_dec q (2 * N')) as [ Heq | ]; [ | lia ].
          rewrite Heq, Z.odd_mul in Hodd. discriminate. }
        assert (q / 2 < N') by (apply Z.div_lt_upper_bound; lia). lia.
      - destruct l as [ | c ].
        + subst m1 l1. cbn [shr_record_of_loc]. rewrite shr_1_nonneg by lia.
          rewrite Hodd. cbn [loc_of_shr_record orb].
          rewrite round_nearest_even_exact.
          apply Z.div_le_upper_bound; lia.
        + assert (q < 2 * N') by (apply Hlt'; discriminate).
          assert (q / 2 < N') by (apply Z.div_lt_upper_bound; lia). lia. }
    assert (Hq2 : 2 ^ 52 <= q / 2 < 2 ^ 53).
    { split.
      - apply Z.div_le_lower_bound; lia.
      - apply Z.div_lt_upper_bound; lia. }
    destruct (carry_stage m1 (e + 1)) as (M & E & HE & HM & HE0 & HME & _); try lia.
    exists M, E. repeat split; try assumption; lia.
Qed.

(** The quotient that is exactly one hundred rounds to [100.] *)
Lemma round_quotient_100 (q e : Z) :
  2 ^ 52 <= q < 2 ^ 54 -> q = 100 * 2 ^ (- e) ->
  binary_round_aux prec emax false q e loc_Exact = float_100.
Proof.
  intros Hq Heq.
  assert (H46 : 46 <= - e) by (apply pow2_le_100; lia).
  assert (H47 : - e <= 47).
  { destruct (Z_le_gt_dec (- e) 47) as [ | Hgt ]; [ assumption | exfalso ].
    assert (2 ^ 48 <= 2 ^ (- e)) by (apply Z.pow_le_mono_r; lia). lia. }
  assert (He : e = -46 \/ e = -47) by lia.
  destruct He as [ -> | -> ]; subst q; vm_compute; reflexivity.
Qed.

Lemma float_le_100 (M : positive) (E : Z) :
  2 ^ 52 <= Zpos M < 2 ^ 53 -> E <= 0 -> Zpos M <= 100 * 2 ^ (- E) ->
  float_le (S754_finite false M E) float_100 = true.
Proof.
  intros HM HE Hle.
  assert (H46 : 46 <= - E) by (apply pow2_le_100; lia).
  unfold float_le, float_100, SFleb, SFcompare.
  destruct (Z.compare_spec E (-46)) as [ Heq | Hlt | Hgt ]; try reflexivity; try lia.
  subst E. change (100 * 2 ^ (- -46)) with (Zpos 7036874417766400) in Hle.
  rewrite Pos.compare_cont_spec. cbn [Pos.switch_Eq].
  destruct (Pos.compare_spec M 7036874417766400) as [ | | Hgt ]; try reflexivity; lia.
Qed.


Lemma pow2_split (a b : Z) : 0 <= a -> 0 <= b -> 2 ^ (a + b) = 2 ^ a * 2 ^ b.
Proof. intros. apply Z.pow_add_r; assumption. Qed.

(** The percentage [100. * i / a] for ints [0 <= i <= a] with [25 * a]
    below [2^53]. *)
Lemma identity_perc_bounds (i a : Z) :
  0 <= i <= a -> 1 <= a -> 25 * a < 2 ^ 53 ->
  let x := SFdiv prec emax (SFmul prec emax float_100 (nearest_double i))
                 (nearest_double a) in
  float_le float_zero x = true /\ float_le x float_100 = true /\
  (i = a -> x = float_100).
Proof.
  intros Hi Ha H25 x.
  assert (Ha53 : 0 < a < 2 ^ 53) by lia.
  destruct (nearest_double_small a Ha53) as (qa & Eqa & Hqa).
  destruct (normal_mantissa a Ha53) as [HdA HmA].
  rewrite <- Hqa in HmA.
  destruct (Z.eq_dec i 0) as [ -> | Hi0 ].
  - subst x. rewrite Eqa. cbn. repeat split; try reflexivity. lia.
  - assert (Hipos : 0 < i) by lia.
    assert (Hi53 : 0 < i < 2 ^ 53) by lia.
    pose proof (mul_100_exact _ i Hipos ltac:(lia) (nearest_double_small i Hi53))
      as (Q & EQ & HQ).
    assert (H25i : 0 < 25 * i < 2 ^ 53) by lia.
    destruct (normal_mantissa (25 * i) H25i) as [HdP HmP].
    rewrite <- HQ in HmP.
    pose proof (Zdigits2_bounds (25 * i) (proj1 H25i)) as HbP.
    pose proof (Zdigits2_bounds a (proj1 Ha53)) as HbA.
    pose proof (Zdigits2_pos a (proj1 Ha53)) as HdA0.
    pose proof (Zdigits2_pos (25 * i) (proj1 H25i)) as HdP0.
    set (dP := Zdigits2 (25 * i)) in *. set (dA := Zdigits2 a) in *.
    assert (Hd : dP <= dA + 5).
    { destruct (Z_le_gt_dec dP (dA + 5)) as [ | Hgt ]; [ assumption | exfalso ].
      assert (2 ^ (dA + 5) <= 2 ^ (dP - 1)) by (apply Z.pow_le_mono_r; lia).
      rewrite pow2_split in H by lia. change (2 ^ 5) with 32 in H. lia. }
    subst x. rewrite EQ, Eqa.
    rewrite SFdiv_normal by (try assumption; lia).
    set (e := 2 + dP - 53 - (0 + dA - 53) - 53).
    set (u := 53 - dP) in *. set (v := 53 - dA) in *.
    assert (He : - e = (u + 51) - v) by (subst e u v; lia).
    assert (Hpv : 0 < 2 ^ v) by (apply Z.pow_pos_nonneg; subst v; lia).
    assert (Hpu : 0 < 2 ^ (u + 51)) by (apply Z.pow_pos_nonneg; subst u; lia).
    assert (HN : 100 * 2 ^ (- e) * Zpos qa = 100 * a * 2 ^ (u + 51)).
    { rewrite Hqa, He.
      replace (u + 51) with (((u + 51) - v) + v) at 2 by lia.
      rewrite (pow2_split ((u + 51) - v) v) by (subst u v; lia). ring. }
    assert (HQ53 : Zpos Q * 2 ^ 53 = 100 * i * 2 ^ (u + 51)).
    { rewrite HQ, (pow2_split u 51) by (subst u; lia).
      change (2 ^ 53) with (4 * 2 ^ 51). ring. }
    set (q := Zpos Q * 2 ^ 53 / Zpos qa).
    set (r := (Zpos Q * 2 ^ 53) mod Zpos qa).
    assert (Hdm : Zpos Q * 2 ^ 53 = Zpos qa * q + r) by (apply Z.div_mod; lia).
    assert (Hr : 0 <= r < Zpos qa) by (apply Z.mod_pos_bound; lia).
    assert (Hq : 2 ^ 52 <= q < 2 ^ 54).
    { split.
      - apply Z.div_le_lower_bound; [ lia | ].
        change (2 ^ 53) with (2 ^ 52 * 2) in *. nia.
      - apply Z.div_lt_upper_bound; [ lia | ].
        change (2 ^ 54) with (2 ^ 53 * 2) in *. 
        change (2 ^ 53) with (2 ^ 52 * 2) in *. nia. }
    assert (Hle : Zpos qa * q + r <= 100 * 2 ^ (- e) * Zpos qa).
    { rewrite <- Hdm, HN, HQ53. apply Z.mul_le_mono_nonneg_r; lia. }
    assert (HqN : q <= 100 * 2 ^ (- e)) by nia.
    repeat split.
    + destruct (round_quotient_le q e (new_location (Zpos qa) r))
        as (M & E & -> & _); try assumption.
      * subst e u v. lia.
      * intros Hl. destruct (Z.eq_dec r 0) as [ Hr0 | Hr0 ].
        { rewrite Hr0, new_location_exact in Hl. contradiction. }
        { nia. }
      * reflexivity.
    + destruct (round_quotient_le q e (new_location (Zpos qa) r))
        as (M & E & -> & HM & HE & HME); try assumption.
      * subst e u v. lia.
      * intros Hl. destruct (Z.eq_dec r 0) as [ Hr0 | Hr0 ].
        { rewrite Hr0, new_location_exact in Hl. contradiction. }
        { nia. }
      * apply float_le_100; assumption.
    + intros Hia. subst i.
      assert (Hex : Zpos Q * 2 ^ 53 = 100 * 2 ^ (- e) * Zpos qa) by lia.
      assert (Hq100 : q = 100 * 2 ^ (- e)).
      { subst q. rewrite Hex. apply Z.div_mul. lia. }
      assert (Hr0 : r = 0).
      { subst r. rewrite Hex. apply Z.mod_mul. lia. }
      rewrite Hr0, new_location_exact.
      apply round_quotient_100; assumption.
Qed.


(** Rounding a non-negative mantissa never gives a NaN, and the sign is
    the one asked for. *)
Lemma binary_round_aux_signed (s : bool) (m e : Z) (l : location) :
  0 <= m -> signed_as s (binary_round_aux prec emax s m e l).
Proof.
  intros Hm.
  pose proof (binary_round_aux_not_nan s m e l Hm) as Hnan.
  rewrite binary_round_aux_stages in * by assumption. cbv zeta in *.
  destruct (_ / _) as [ | p | p ].
  - constructor.
  - destruct (_ <=? _); constructor.
  - contradiction.
Qed.

Lemma shl_align_exponent (p : positive) (ex ex' : Z) :
  Z.min ex ex' <= snd (shl_align p ex ex').
Proof.
  unfold shl_align. destruct (ex' - ex) eqn:E; cbn [snd]; lia.
Qed.

Lemma binary_round_nonzero (s : bool) (p : positive) :
  exists (q : positive) (E : Z),
    binary_round prec emax s p 0 =
    (if E <=? emax - prec then S754_finite s q E else S754_infinity s).
Proof.
  unfold binary_round.
  pose proof (shl_align_exponent p 0 (fexp prec emax (Zpos (digits2_pos p) + 0))) as He.
  destruct (shl_align p 0 (fexp prec emax (Zpos (digits2_pos p) + 0))) as [mz ez].
  cbn [snd] in He. rewrite fexp_eq in He.
  apply binary_round_aux_nonzero; lia.
Qed.

(** What [float(z)] can be. *)
Lemma int_to_float_Ok (z : Z) (x : float) :
  int_to_float z = Ok x ->
  (z = 0 /\ x = S754_zero false) \/
  (z <> 0 /\ exists m e, x = S754_finite (z <? 0) m e).
Proof.
  unfold int_to_float, nearest_double, binary_normalize. destruct z as [ | p | p ].
  - intros [= <-]. left. split; reflexivity.
  - destruct (binary_round_nonzero false p) as (q & E & ->).
    destruct (E <=? emax - prec); [ | discriminate ].
    intros [= <-]. right. split; [ lia | ]. exists q, E. reflexivity.
  - destruct (binary_round_nonzero true p) as (q & E & ->).
    destruct (E <=? emax - prec); [ | discriminate ].
    intros [= <-]. right. split; [ lia | ]. exists q, E. reflexivity.
Qed.

Lemma int_to_float_Raise (z : Z) (e : exn) :
  int_to_float z = Raise e -> e = OverflowError.
Proof.
  unfold int_to_float. destruct (nearest_double z); congruence.
Qed.

Lemma int_to_float_is_zero (z : Z) (x : float) :
  int_to_float z = Ok x -> is_zero x = (z =? 0).
Proof.
  intros H. destruct (int_to_float_Ok z x H) as [ [-> ->] | [Hz (m & e & ->)] ].
  - reflexivity.
  - symmetry. apply Z.eqb_neq. assumption.
Qed.

Lemma SFdiv_core_nonneg (m1 m2 : positive) (e1 e2 : Z) :
  0 <= fst (fst (SFdiv_core_binary prec emax (Zpos m1) e1 (Zpos m2) e2)).
Proof.
  unfold SFdiv_core_binary.
  set (m' := match _ - _ - _ with Z0 => Zpos m1 | Zpos _ => Z.shiftl (Zpos m1) _ | Zneg _ => 0 end).
  assert (Hm' : 0 <= m').
  { subst m'. destruct (_ - _ - _); try lia. apply Z.shiftl_nonneg. lia. }
  pose proof (Z.div_pos m' (Zpos m2) Hm' ltac:(lia)) as Hq.
  unfold Z.div in Hq.
  destruct (Z.div_eucl m' (Zpos m2)) as [q r]. exact Hq.
Qed.

Lemma SFdiv_signed (x : float) (s sy : bool) (my : positive) (ey : Z) :
  signed_as s x ->
  signed_as (xorb s sy) (SFdiv prec emax x (S754_finite sy my ey)).
Proof.
  intros [ | | m e ]; cbn [SFdiv]; try constructor.
  pose proof (SFdiv_core_nonneg m my e ey) as Hq.
  destruct (SFdiv_core_binary prec emax (Zpos m) e (Zpos my) ey) as [[q e'] l].
  apply binary_round_aux_signed. exact Hq.
Qed.

Lemma SFmul_100_signed (s : bool) (m : positive) (e : Z) :
  signed_as s (SFmul prec emax float_100 (S754_finite s m e)).
Proof.
  unfold float_100. cbn [SFmul xorb]. apply binary_round_aux_signed. lia.
Qed.

Lemma float_abs_signed (s : bool) (x : float) :
  signed_as s x -> float_le float_zero (float_abs x) = true.
Proof. intros [ | | m e ]; reflexivity. Qed.

(** The coverage [abs(100. * a / q)] of two ints that convert, with [q]
    not zero, is a float that is not below zero. *)
Lemma query_cov_nonneg (ya yq : float) (a q : Z) :
  int_to_float a = Ok ya -> int_to_float q = Ok yq -> is_zero yq = false ->
  float_le float_zero (float_abs (SFdiv prec emax (SFmul prec emax float_100 ya) yq)) = true.
Proof.
  intros Ha Hq Hz.
  destruct (int_to_float_Ok q yq Hq) as [ [_ ->] | [_ (mq & eq & ->)] ];
    [ discriminate | ].
  destruct (int_to_float_Ok a ya Ha) as [ [_ ->] | [_ (ma & ea & ->)] ].
  - reflexivity.
  - eapply float_abs_signed. apply SFdiv_signed. apply SFmul_100_signed.
Qed.

(** Ints from 0 to below [2^53] convert. *)
Lemma convertible_small (z : Z) : 0 <= z < 2 ^ 53 -> convertible z = true.
Proof.
  intros Hz. destruct (Z.eq_dec z 0) as [ -> | Hz0 ]; [ reflexivity | ].
  destruct (nearest_double_small z ltac:(lia)) as (q & Hq & _).
  unfold convertible, int_to_float. rewrite Hq. reflexivity.
Qed.

(** * The row computation *)

Lemma int_to_float_nearest (z : Z) (x : float) :
  int_to_float z = Ok x -> x = nearest_double z.
Proof.
  unfold int_to_float. destruct (nearest_double z); congruence.
Qed.

Lemma convertible_Ok (z : Z) :
  convertible z = true -> int_to_float z = Ok (nearest_double z).
Proof.
  unfold convertible. destruct (int_to_float z) as [ x | e ] eqn:E; [ | discriminate ].
  intros _. f_equal. apply int_to_float_nearest. exact E.
Qed.

Lemma convertible_Raise (z : Z) :
  convertible z = false -> int_to_float z = Raise OverflowError.
Proof.
  unfold convertible. destruct (int_to_float z) as [ x | e ] eqn:E; [ discriminate | ].
  intros _. f_equal. eapply int_to_float_Raise. exact E.
Qed.

Lemma convertible_0 : convertible 0 = true.
Proof. reflexivity. Qed.

Lemma float_mul_int_eq (x : float) (z : Z) :
  float_mul_int x z =
  if convertible z then Ok (SFmul prec emax x (nearest_double z))
  else Raise OverflowError.
Proof.
  unfold float_mul_int. destruct (convertible z) eqn:E.
  - rewrite (convertible_Ok z E). reflexivity.
  - rewrite (convertible_Raise z E). reflexivity.
Qed.

Lemma float_truediv_int_eq (x : float) (z : Z) :
  float_truediv_int x z =
  if convertible z then
    if z =? 0 then Raise ZeroDivisionError
    else Ok (SFdiv prec emax x (nearest_double z))
  else Raise OverflowError.
Proof.
  unfold float_truediv_int. destruct (convertible z) eqn:E.
  - pose proof (convertible_Ok z E) as H. rewrite H. cbn [bind].
    rewrite (int_to_float_is_zero z _ H). reflexivity.
  - rewrite (convertible_Raise z E). reflexivity.
Qed.

(** The row computation as a decision table over its inputs. *)
Lemma tabulate_row_eq (res : Blast.t) (aln : Alignment.t) :
  tabulate_row res aln =
  match Alignment.hsps aln with
  | [] => Raise IndexError
  | hsp :: _ =>
      if negb (convertible (HSP.identities hsp)) then Raise OverflowError
      else if negb (convertible (HSP.align_length hsp)) then Raise OverflowError
      else if HSP.align_length hsp =? 0 then Raise ZeroDivisionError
      else if negb (convertible (Blast.query_length res)) then Raise OverflowError
      else if Blast.query_length res =? 0 then Raise ZeroDivisionError
      else Ok (row_values res aln hsp)
  end.
Proof.
  unfold tabulate_row. destruct (Alignment.hsps aln) as [ | hsp rest ]; [ reflexivity | ].
  cbn [getitem0 bind]. rewrite !float_mul_int_eq.
  destruct (convertible (HSP.identities hsp)); [ | reflexivity ].
  cbn [negb bind]. rewrite float_truediv_int_eq.
  destruct (convertible (HSP.align_length hsp)); [ | reflexivity ].
  cbn [negb bind].
  destruct (HSP.align_length hsp =? 0); [ reflexivity | ].
  cbn [bind]. rewrite float_truediv_int_eq.
  destruct (convertible (Blast.query_length res)); [ | reflexivity ].
  cbn [negb bind].
  destruct (Blast.query_length res =? 0); reflexivity.
Qed.

Lemma row_ok_iff (res : Blast.t) (aln : Alignment.t) :
  row_ok res aln = true <-> exists r, tabulate_row res aln = Ok r.
Proof.
  rewrite tabulate_row_eq. unfold row_ok.
  destruct (Alignment.hsps aln) as [ | hsp rest ].
  - split; [ discriminate | intros [r H]; discriminate ].
  - destruct (convertible (HSP.identities hsp)),
             (convertible (HSP.align_length hsp)),
             (HSP.align_length hsp =? 0),
             (convertible (Blast.query_length res)),
             (Blast.query_length res =? 0); cbn;
      (split; [ try discriminate; eauto | intros [r H]; try discriminate; reflexivity ]).
Qed.

(** Records within the data model, with lengths below [2^53], raise
    nothing. *)
Lemma row_ok_data_model (res : Blast.t) (aln : Alignment.t)
    (hsp : HSP.t) (rest : list HSP.t) :
  Alignment.hsps aln = hsp :: rest ->
  0 <= HSP.identities hsp < 2 ^ 53 ->
  1 <= HSP.align_length hsp < 2 ^ 53 ->
  1 <= Blast.query_length res < 2 ^ 53 ->
  row_ok res aln = true.
Proof.
  intros Hh Hi Ha Hq. unfold row_ok. rewrite Hh.
  rewrite !convertible_small by lia.
  replace (HSP.align_length hsp =? 0) with false by (symmetry; apply Z.eqb_neq; lia).
  replace (Blast.query_length res =? 0) with false by (symmetry; apply Z.eqb_neq; lia).
  reflexivity.
Qed.

(** Only the first HSP of an alignment is read. *)
Lemma tabulate_row_first_hsp (res : Blast.t) (hit_def : string) (length : Z)
    (hsp : HSP.t) (rest : list HSP.t) :
  tabulate_row res (Alignment.mk hit_def length (hsp :: rest)) =
  tabulate_row res (Alignment.mk hit_def length [hsp]).
Proof. reflexivity. Qed.

Lemma tabulate_row_Ok (res : Blast.t) (aln : Alignment.t) (r : row) :
  tabulate_row res aln = Ok r ->
  exists hsp rest,
    Alignment.hsps aln = hsp :: rest /\ r = row_values res aln hsp /\
    convertible (HSP.identities hsp) = true /\
    convertible (HSP.align_length hsp) = true /\
    HSP.align_length hsp <> 0 /\
    convertible (Blast.query_length res) = true /\
    Blast.query_length res <> 0.
Proof.
  rewrite tabulate_row_eq.
  destruct (Alignment.hsps aln) as [ | hsp rest ]; [ discriminate | ].
  destruct (convertible (HSP.identities hsp)) eqn:Ei; [ | discriminate ].
  destruct (convertible (HSP.align_length hsp)) eqn:Ea; [ | discriminate ].
  destruct (Z.eqb_spec (HSP.align_length hsp) 0) as [ | Ha0 ]; [ discriminate | ].
  destruct (convertible (Blast.query_length res)) eqn:Eq; [ | discriminate ].
  destruct (Z.eqb_spec (Blast.query_length res) 0) as [ | Hq0 ]; [ discriminate | ].
  cbn. intros [= <-]. exists hsp, rest. repeat split; assumption.
Qed.


Lemma tabulate_row_ZeroDivisionError (res : Blast.t) (aln : Alignment.t) :
  tabulate_row res aln = Raise ZeroDivisionError <->
  exists hsp rest,
    Alignment.hsps aln = hsp :: rest /\
    convertible (HSP.identities hsp) = true /\
    (HSP.align_length hsp = 0 \/
     (convertible (HSP.align_length hsp) = true /\ Blast.query_length res = 0)).
Proof.
  rewrite tabulate_row_eq.
  destruct (Alignment.hsps aln) as [ | hsp rest ].
  - split; [ discriminate | intros (h & t & H & _); discriminate ].
  - split.
    + intros H. exists hsp, rest. split; [ reflexivity | ].
      destruct (convertible (HSP.identities hsp)); [ | discriminate ].
      split; [ reflexivity | ].
      destruct (convertible (HSP.align_length hsp)); [ | discriminate ].
      cbn in H.
      destruct (Z.eqb_spec (HSP.align_length hsp) 0); [ left; assumption | ].
      right. split; [ reflexivity | ].
      destruct (convertible (Blast.query_length res)); [ | discriminate ].
      cbn in H.
      destruct (Z.eqb_spec (Blast.query_length res) 0); [ assumption | discriminate ].
    + intros (h & t & [= <- <-] & Hi & Hcase). rewrite Hi. cbn [negb].
      destruct Hcase as [ H0 | [Ha Hq] ].
      * rewrite H0. reflexivity.
      * rewrite Ha, Hq. cbn. destruct (HSP.align_length hsp =? 0); reflexivity.
Qed.

(** * Traces of the generator *)

Lemma tabulate_alignments_app (res : Blast.t) (a b : list Alignment.t) :
  tabulate_alignments res (a ++ b) =
  match tabulate_alignments res a with
  | (rs, Some e) => (rs, Some e)
  | (rs, None) =>
      let '(rs', o) := tabulate_alignments res b in (rs ++ rs', o)
  end.
Proof.
  induction a as [ | aln a IH ]; cbn [app tabulate_alignments].
  - destruct (tabulate_alignments res b) as [rs' o]. reflexivity.
  - destruct (tabulate_row res aln) as [ r | e ]; [ | reflexivity ].
    rewrite IH. destruct (tabulate_alignments res a) as [rs [ e | ]].
    + reflexivity.
    + destruct (tabulate_alignments res b) as [rs' o]. reflexivity.
Qed.

Lemma tabulate_hsp_xml_app (pre post : list Blast.t) (n : Z) :
  tabulate_hsp_xml (pre ++ post) n =
  match tabulate_hsp_xml pre n with
  | (rs, Some e) => (rs, Some e)
  | (rs, None) =>
      let '(rs', o) := tabulate_hsp_xml post n in (rs ++ rs', o)
  end.
Proof.
  induction pre as [ | res pre IH ]; cbn [app tabulate_hsp_xml].
  - destruct (tabulate_hsp_xml post n) as [rs' o]. reflexivity.
  - destruct (tabulate_alignments res (slice0 (Blast.alignments res) n)) as [rs [ e | ]].
    + reflexivity.
    + rewrite IH. destruct (tabulate_hsp_xml pre n) as [rs1 [ e | ]].
      * reflexivity.
      * destruct (tabulate_hsp_xml post n) as [rs' o].
        rewrite app_assoc. reflexivity.
Qed.

(** A loop that ends normally yielded one row per alignment, in order. *)
Lemma tabulate_alignments_None (res : Blast.t) (alns : list Alignment.t) (rs : list row) :
  tabulate_alignments res alns = (rs, None) <->
  Forall2 (fun aln r => tabulate_row res aln = Ok r) alns rs.
Proof.
  revert rs. induction alns as [ | aln alns IH ]; intros rs; cbn [tabulate_alignments].
  - split.
    + intros [= <-]. constructor.
    + intros H. inversion H. reflexivity.
  - split.
    + destruct (tabulate_row res aln) as [ r | e ] eqn:Er; [ | discriminate ].
      destruct (tabulate_alignments res alns) as [rs' o] eqn:Et.
      intros [= <- ->]. constructor; [ assumption | ]. apply IH. reflexivity.
    + intros H. inversion H as [ | aln' r alns' rs' Hr Hrest ]; subst.
      rewrite Hr. apply IH in Hrest. rewrite Hrest. reflexivity.
Qed.

(** A loop that ends in an exception stopped at the first alignment whose
    row computation raises. *)
Lemma tabulate_alignments_Some (res : Blast.t) (alns : list Alignment.t)
    (rs : list row) (e : exn) :
  tabulate_alignments res alns = (rs, Some e) <->
  exists before aln after,
    alns = before ++ aln :: after /\
    tabulate_alignments res before = (rs, None) /\
    tabulate_row res aln = Raise e.
Proof.
  split.
  - revert rs. induction alns as [ | aln alns IH ]; intros rs; cbn [tabulate_alignments].
    + discriminate.
    + destruct (tabulate_row res aln) as [ r | e' ] eqn:Er.
      * destruct (tabulate_alignments res alns) as [rs' o] eqn:Et.
        intros [= <- ->].
        destruct (IH rs' eq_refl) as (before & a & after & -> & Hb & Ha).
        exists (aln :: before), a, after. repeat split; try assumption.
        cbn [tabulate_alignments]. rewrite Er, Hb. reflexivity.
      * intros [= <- <-]. exists [], aln, alns. repeat split. assumption.
  - intros (before & aln & after & -> & Hb & Ha).
    rewrite tabulate_alignments_app, Hb. cbn [tabulate_alignments].
    rewrite Ha. rewrite app_nil_r. reflexivity.
Qed.

Lemma tabulate_hsp_xml_cons (res : Blast.t) (result : list Blast.t) (n : Z) :
  tabulate_hsp_xml (res :: result) n =
  match tabulate_alignments res (taken res n) with
  | (rs, Some e) => (rs, Some e)
  | (rs, None) =>
      let '(rs', o) := tabulate_hsp_xml result n in (rs ++ rs', o)
  end.
Proof. reflexivity. Qed.

(** A run that ends normally yielded, record after record, one row per
    taken alignment. *)
Lemma tabulate_hsp_xml_None (result : list Blast.t) (n : Z) (rows : list row) :
  tabulate_hsp_xml result n = (rows, None) <->
  exists groups,
    rows = List.concat groups /\
    Forall2 (fun res g =>
               Forall2 (fun aln r => tabulate_row res aln = Ok r) (taken res n) g)
            result groups.
Proof.
  revert rows. induction result as [ | res result IH ]; intros rows.
  - cbn [tabulate_hsp_xml]. split.
    + intros [= <-]. exists []. split; [ reflexivity | constructor ].
    + intros (groups & -> & H). inversion H. reflexivity.
  - rewrite tabulate_hsp_xml_cons. split.
    + destruct (tabulate_alignments res (taken res n)) as [rs [ e | ]] eqn:Ea;
        [ discriminate | ].
      destruct (tabulate_hsp_xml result n) as [rs' o] eqn:Et.
      intros [= <- ->].
      destruct (proj1 (IH rs') eq_refl) as (groups & -> & Hg).
      exists (rs :: groups). split; [ reflexivity | ].
      constructor; [ | assumption ]. apply tabulate_alignments_None. assumption.
    + intros (groups & -> & H).
      inversion H as [ | res' g result' groups' Hg Hrest ]; subst.
      apply tabulate_alignments_None in Hg. rewrite Hg.
      assert (Ht : tabulate_hsp_xml result n = (List.concat groups', None)).
      { apply IH. exists groups'. split; [ reflexivity | assumption ]. }
      rewrite Ht. reflexivity.
Qed.

(** A run that ends in an exception: the records before the failing one
    were tabulated in full, then the alignments before the failing one. *)
Lemma tabulate_hsp_xml_Some (result : list Blast.t) (n : Z) (rows : list row) (e : exn) :
  tabulate_hsp_xml result n = (rows, Some e) <->
  exists pre res post before aln after rs1 rs2,
    result = pre ++ res :: post /\
    taken res n = before ++ aln :: after /\
    tabulate_hsp_xml pre n = (rs1, None) /\
    tabulate_alignments res before = (rs2, None) /\
    tabulate_row res aln = Raise e /\
    rows = rs1 ++ rs2.
Proof.
  split.
  - revert rows. induction result as [ | res result IH ]; intros rows.
    + discriminate.
    + rewrite tabulate_hsp_xml_cons.
      destruct (tabulate_alignments res (taken res n)) as [rs [ e' | ]] eqn:Ea.
      * intros [= <- <-].
        apply tabulate_alignments_Some in Ea.
        destruct Ea as (before & aln & after & Hsplit & Hb & Hr).
        exists [], res, result, before, aln, after, [], rs.
        repeat split; assumption.
      * destruct (tabulate_hsp_xml result n) as [rs' o] eqn:Et.
        intros [= <- ->].
        destruct (IH rs' eq_refl)
          as (pre & res' & post & before & aln & after & rs1 & rs2 &
              -> & Hsplit & Hpre & Hb & Hr & ->).
        exists (res :: pre), res', post, before, aln, after, (rs ++ rs1), rs2.
        repeat split; try assumption.
        -- rewrite tabulate_hsp_xml_cons, Ea, Hpre. reflexivity.
        -- apply app_assoc.
  - intros (pre & res & post & before & aln & after & rs1 & rs2 &
            -> & Hsplit & Hpre & Hb & Hr & ->).
    rewrite tabulate_hsp_xml_app, Hpre, tabulate_hsp_xml_cons.
    assert (Ha : tabulate_alignments res (taken res n) = (rs2, Some e)).
    { apply tabulate_alignments_Some. exists before, aln, after.
      repeat split; assumption. }
    rewrite Ha. reflexivity.
Qed.

(** Every row of a run is the row of a taken alignment of some record. *)
Lemma tabulate_alignments_rows (res : Blast.t) (alns : list Alignment.t) :
  Forall (fun r => exists aln, In aln alns /\ tabulate_row res aln = Ok r)
         (fst (tabulate_alignments res alns)).
Proof.
  induction alns as [ | aln alns IH ]; cbn [tabulate_alignments].
  - constructor.
  - destruct (tabulate_row res aln) as [ r | e ] eqn:Er; [ | constructor ].
    destruct (tabulate_alignments res alns) as [rs o]. cbn [fst] in *.
    constructor.
    + exists aln. split; [ left; reflexivity | assumption ].
    + eapply Forall_impl; [ | exact IH ].
      intros r' (a & Hin & Hr). exists a. split; [ right; assumption | assumption ].
Qed.

Lemma tabulate_hsp_xml_rows (result : list Blast.t) (n : Z) :
  Forall (fun r => exists res aln,
            In res result /\ In aln (taken res n) /\ tabulate_row res aln = Ok r)
         (fst (tabulate_hsp_xml result n)).
Proof.
  induction result as [ | res result IH ].
  - constructor.
  - rewrite tabulate_hsp_xml_cons.
    pose proof (tabulate_alignments_rows res (taken res n)) as Ha.
    destruct (tabulate_alignments res (taken res n)) as [rs [ e | ]]; cbn [fst] in *.
    + eapply Forall_impl; [ | exact Ha ].
      intros r (a & Hin & Hr). exists res, a.
      split; [ left; reflexivity | split; assumption ].
    + destruct (tabulate_hsp_xml result n) as [rs' o]. cbn [fst] in *.
      apply Forall_app. split.
      * eapply Forall_impl; [ | exact Ha ].
        intros r (a & Hin & Hr). exists res, a.
        split; [ left; reflexivity | split; assumption ].
      * eapply Forall_impl; [ | exact IH ].
        intros r (res' & a & Hin & Ha' & Hr). exists res', a.
        split; [ right; assumption | split; assumption ].
Qed.

(** * Slices *)

Lemma slice_stop_bounds (len stop : Z) :
  0 <= len -> 0 <= slice_stop len stop <= len.
Proof. unfold slice_stop. destruct (stop <? 0) eqn:E; lia. Qed.

Lemma slice0_length {A : Type} (l : list A) (stop : Z) :
  Z.of_nat (List.length (slice0 l stop)) = slice_stop (Z.of_nat (List.length l)) stop.
Proof.
  unfold slice0.
  pose proof (slice_stop_bounds (Z.of_nat (List.length l)) stop ltac:(lia)).
  rewrite length_firstn. lia.
Qed.

Lemma slice0_firstn {A : Type} (l : list A) (stop : Z) :
  slice0 l stop = firstn (List.length (slice0 l stop)) l.
Proof.
  pose proof (slice0_length l stop) as H.
  unfold slice0 at 1. f_equal. lia.
Qed.

(** [l[0:n]] for [n >= 0]: the first [n] items, or all of them. *)
Lemma slice0_nonneg {A : Type} (l : list A) (n : Z) :
  0 <= n ->
  slice0 l n = firstn (Z.to_nat n) l /\
  Z.of_nat (List.length (slice0 l n)) = Z.min (Z.of_nat (List.length l)) n.
Proof.
  intros Hn. split.
  - unfold slice0, slice_stop.
    replace (n <? 0) with false by (symmetry; apply Z.ltb_ge; lia).
    destruct (Z_le_gt_dec n (Z.of_nat (List.length l))) as [ Hle | Hgt ].
    + rewrite Z.min_l by lia. reflexivity.
    + rewrite Z.min_r by lia. rewrite Nat2Z.id, firstn_all.
      symmetry. apply firstn_all2. lia.
  - rewrite slice0_length. unfold slice_stop.
    replace (n <? 0) with false by (symmetry; apply Z.ltb_ge; lia). lia.
Qed.

(** [l[0:-m]] for [m >= 1]: all but the last [m] items. *)
Lemma slice0_negative {A : Type} (l : list A) (m : Z) :
  1 <= m ->
  Z.of_nat (List.length (slice0 l (- m))) = Z.max (Z.of_nat (List.length l) - m) 0 /\
  exists last,
    l = slice0 l (- m) ++ last /\
    Z.of_nat (List.length last) = Z.min m (Z.of_nat (List.length l)).
Proof.
  intros Hm.
  assert (Hlen : Z.of_nat (List.length (slice0 l (- m)))
                 = Z.max (Z.of_nat (List.length l) - m) 0).
  { rewrite slice0_length. unfold slice_stop.
    replace (- m <? 0) with true by (symmetry; apply Z.ltb_lt; lia). lia. }
  split; [ exact Hlen | ].
  exists (skipn (List.length (slice0 l (- m))) l). split.
  - rewrite (slice0_firstn l (- m)) at 1. symmetry. apply firstn_skipn.
  - rewrite length_skipn. lia.
Qed.

(** * The generator, one [next] at a time *)

Lemma gen_resume_trace (outer : list Blast.t) (n : Z) :
  match gen_resume outer n with
  | StopIteration => tabulate_hsp_xml outer n = ([], None)
  | Raised e => tabulate_hsp_xml outer n = ([], Some e)
  | Yield r g' =>
      tabulate_hsp_xml outer n = (r :: fst (gen_trace g'), snd (gen_trace g'))
  end.
Proof.
  induction outer as [ | res outer IH ]; cbn [gen_resume].
  - reflexivity.
  - rewrite tabulate_hsp_xml_cons. unfold taken.
    destruct (slice0 (Blast.alignments res) n) as [ | aln alns ].
    + cbn [tabulate_alignments].
      revert IH. destruct (gen_resume outer n) as [ r g' | e | ];
        intros IH; rewrite IH; reflexivity.
    + unfold gen_emit. cbn [tabulate_alignments].
      destruct (tabulate_row res aln) as [ r | e ]; [ | reflexivity ].
      unfold gen_trace. cbn [gen_inner gen_outer gen_top].
      destruct (tabulate_alignments res alns) as [rs [ e | ]].
      * reflexivity.
      * destruct (tabulate_hsp_xml outer n) as [rs' o]. reflexivity.
Qed.

(** One [next] peels one event off the trace. *)
Lemma gen_next_trace (g : gen) :
  match gen_next g with
  | StopIteration => gen_trace g = ([], None)
  | Raised e => gen_trace g = ([], Some e)
  | Yield r g' => gen_trace g = (r :: fst (gen_trace g'), snd (gen_trace g'))
  end.
Proof.
  destruct g as [ [ [res [ | aln alns ]] | ] outer n ];
    unfold gen_next; cbn [gen_inner gen_outer gen_top].
  - pose proof (gen_resume_trace outer n) as H. revert H.
    destruct (gen_resume outer n) as [ r g' | e | ]; intros H;
      unfold gen_trace at 1;
      cbn [gen_inner gen_outer gen_top tabulate_alignments];
      rewrite H; reflexivity.
  - unfold gen_emit.
    destruct (tabulate_row res aln) as [ r | e ] eqn:Er;
      unfold gen_trace at 1;
      cbn [gen_inner gen_outer gen_top tabulate_alignments]; rewrite Er;
      [ | reflexivity ].
    unfold gen_trace. cbn [gen_inner gen_outer gen_top].
    destruct (tabulate_alignments res alns) as [rs [ e | ]].
    + reflexivity.
    + destruct (tabulate_hsp_xml outer n) as [rs' o]. reflexivity.
  - apply gen_resume_trace.
Qed.

Lemma drains_trace (g : gen) (rs : list row) (o : option exn) :
  drains g rs o -> gen_trace g = (rs, o).
Proof.
  induction 1 as [ g Hn | g e Hn | g r g' rs o Hn Hd IH ];
    pose proof (gen_next_trace g) as Ht; rewrite Hn in Ht.
  - exact Ht.
  - exact Ht.
  - rewrite Ht, IH. reflexivity.
Qed.

Lemma trace_drains (rs : list row) :
  forall (g : gen) (o : option exn), gen_trace g = (rs, o) -> drains g rs o.
Proof.
  induction rs as [ | r rs IH ]; intros g o Hg;
    pose proof (gen_next_trace g) as Ht;
    destruct (gen_next g) as [ r' g' | e | ] eqn:Hn;
    rewrite Hg in Ht; try discriminate.
  - injection Ht as Ho. subst o. apply drains_raise. assumption.
  - injection Ht as Ho. subst o. apply drains_stop. assumption.
  - injection Ht as Hr Hrs Ho. subst r' rs o.
    eapply drains_yield; [ eassumption | ].
    apply IH. destruct (gen_trace g'); reflexivity.
Qed.

Lemma gen_start_trace (result : list Blast.t) (n : Z) :
  gen_trace (gen_start result n) = tabulate_hsp_xml result n.
Proof. reflexivity. Qed.

(** * Strings and the csv writer *)

Lemma string_app_assoc (a b c : string) :
  ((a ++ b) ++ c)%string = (a ++ (b ++ c))%string.
Proof. induction a as [ | x a IH ]; cbn; [ reflexivity | rewrite IH; reflexivity ]. Qed.

Lemma string_app_nil_r (a : string) : (a ++ EmptyString)%string = a.
Proof. induction a as [ | x a IH ]; cbn; [ reflexivity | rewrite IH; reflexivity ]. Qed.



Lemma plain_String (c : ascii) (s : string) :
  plain (String c s) = negb (special c) && plain s.
Proof. unfold plain. cbn [needs_quote]. apply negb_orb. Qed.

Lemma plain_no_char (c : ascii) (s : string) :
  special c = true -> plain s = true -> mem_char c s = false.
Proof.
  intros Hc. induction s as [ | x s IH ]; [ reflexivity | ].
  rewrite plain_String. intros [Hx Hs]%andb_prop. cbn [mem_char].
  rewrite (IH Hs), orb_false_r.
  destruct (Ascii.eqb_spec c x) as [ <- | ]; [ | reflexivity ].
  rewrite Hc in Hx. discriminate.
Qed.

Lemma csv_field_plain (s : string) : plain s = true -> csv_field s = s.
Proof.
  unfold plain, csv_field. destruct (needs_quote s); [ discriminate | reflexivity ].
Qed.

Lemma map_csv_field_plain (fields : list string) :
  Forall (fun f => plain f = true) fields -> map csv_field fields = fields.
Proof.
  induction 1 as [ | f fields Hf _ IH ]; cbn [map]; [ reflexivity | ].
  rewrite (csv_field_plain f Hf), IH. reflexivity.
Qed.

(** *** Splitting at a separator undoes [join] *)

Lemma split_on_not_nil (sep : ascii) (s : string) : split_on sep s <> [].
Proof.
  destruct s as [ | c s ]; cbn [split_on]; [ discriminate | ].
  destruct (Ascii.eqb c sep); [ discriminate | ].
  destruct (split_on sep s); discriminate.
Qed.

Lemma split_on_app (sep : ascii) (a b : string) :
  mem_char sep a = false ->
  split_on sep (a ++ String sep b) = a :: split_on sep b.
Proof.
  induction a as [ | c a IH ]; cbn [append split_on mem_char].
  - intros _. rewrite Ascii.eqb_refl. reflexivity.
  - intros [Hc Ha]%orb_false_elim.
    rewrite Ascii.eqb_sym, Hc, (IH Ha). reflexivity.
Qed.

Lemma split_on_whole (sep : ascii) (a : string) :
  mem_char sep a = false -> split_on sep a = [a].
Proof.
  induction a as [ | c a IH ]; cbn [split_on mem_char].
  - reflexivity.
  - intros [Hc Ha]%orb_false_elim.
    rewrite Ascii.eqb_sym, Hc, (IH Ha). reflexivity.
Qed.

Lemma split_on_join (sep : ascii) (fields : list string) :
  fields <> [] ->
  Forall (fun f => mem_char sep f = false) fields ->
  split_on sep (join sep fields) = fields.
Proof.
  intros Hne H. induction H as [ | f fields Hf Hrest IH ]; [ contradiction | ].
  destruct fields as [ | g fields ].
  - cbn [join]. apply split_on_whole. assumption.
  - change (join sep (f :: g :: fields))
      with (f ++ String sep (join sep (g :: fields)))%string.
    rewrite split_on_app by assumption.
    rewrite IH by discriminate. reflexivity.
Qed.

Lemma mem_char_app (c : ascii) (a b : string) :
  mem_char c (a ++ b) = mem_char c a || mem_char c b.
Proof.
  induction a as [ | x a IH ]; cbn [append mem_char]; [ reflexivity | ].
  rewrite IH, orb_assoc. reflexivity.
Qed.

Lemma mem_char_join (c sep : ascii) (fields : list string) :
  Ascii.eqb c sep = false ->
  Forall (fun f => mem_char c f = false) fields ->
  mem_char c (join sep fields) = false.
Proof.
  intros Hc H. induction H as [ | f fields Hf Hrest IH ]; [ reflexivity | ].
  destruct fields as [ | g fields ].
  - exact Hf.
  - change (join sep (f :: g :: fields))
      with (f ++ String sep (join sep (g :: fields)))%string.
    rewrite mem_char_app, Hf. cbn [mem_char orb]. rewrite Hc, IH. reflexivity.
Qed.

Lemma join_two_nonempty (sep : ascii) (f g : string) (fields : list string) :
  join sep (f :: g :: fields) <> EmptyString.
Proof.
  change (join sep (f :: g :: fields))
    with (f ++ String sep (join sep (g :: fields)))%string.
  destruct f; discriminate.
Qed.

(** *** Splitting into lines *)

Lemma split_crlf_line (body rest : string) :
  mem_char "013" body = false ->
  split_crlf (body ++ lineterminator ++ rest) = body :: split_crlf rest.
Proof.
  induction body as [ | c body IH ]; intros Hb.
  - reflexivity.
  - cbn [mem_char] in Hb. apply orb_false_elim in Hb as [Hc Hb].
    specialize (IH Hb).
    change ((String c body ++ lineterminator ++ rest)%string)
      with (String c (body ++ lineterminator ++ rest)%string).
    cbn [split_crlf].
    destruct ((body ++ lineterminator ++ rest)%string) as [ | c' s'' ] eqn:E.
    + discriminate.
    + rewrite Ascii.eqb_sym in Hc. rewrite Hc. cbn [andb].
      rewrite IH. reflexivity.
Qed.

(** *** The text of a report *)

Lemma report_text_app (a b : list (list string)) :
  report_text (a ++ b) = (report_text a ++ report_text b)%string.
Proof.
  induction a as [ | fields a IH ]; cbn [app report_text]; [ reflexivity | ].
  rewrite IH, string_app_assoc. reflexivity.
Qed.

Lemma csv_line_simple (fields : list string) :
  simple_fields fields ->
  csv_line fields = (join delimiter fields ++ lineterminator)%string.
Proof.
  intros [Hlen Hplain]. unfold csv_line.
  rewrite map_csv_field_plain by exact Hplain.
  destruct fields as [ | v [ | w fields ] ]; cbn [List.length] in Hlen; try lia.
  pose proof (join_two_nonempty delimiter v w fields) as Hne.
  destruct (join delimiter (v :: w :: fields)); [ contradiction | reflexivity ].
Qed.

Lemma read_tsv_report (records : list (list string)) :
  Forall simple_fields records ->
  read_tsv (report_text records) = records.
Proof.
  induction 1 as [ | fields records Hr _ IH ].
  - reflexivity.
  - cbn [report_text]. rewrite (csv_line_simple fields Hr), string_app_assoc.
    unfold read_tsv in *. destruct Hr as [Hlen Hplain].
    rewrite split_crlf_line.
    + cbn [map]. rewrite IH. f_equal.
      apply split_on_join.
      * destruct fields; cbn in *; [ lia | discriminate ].
      * eapply Forall_impl; [ | exact Hplain ].
        intros v Hv. apply plain_no_char; [ reflexivity | exact Hv ].
    + apply mem_char_join; [ reflexivity | ].
      eapply Forall_impl; [ | exact Hplain ].
      intros v Hv. apply plain_no_char; [ reflexivity | exact Hv ].
Qed.

(** *** The writer *)

Section ReportText.

Variable repr : float -> string.

(** [str] raises for nothing but an int of more than 4300 digits. *)
Lemma py_str_Raise (v : pyval) (e : exn) :
  py_str repr v = Raise e ->
  e = ValueError /\
  exists z, v = PInt z /\ int_max_str_digits < int_digits z.
Proof.
  destruct v as [ s | z | x ]; cbn [py_str]; try discriminate.
  destruct (Z.leb_spec (int_digits z) int_max_str_digits) as [ Hlt | Hge ];
    [ discriminate | ].
  intros [= <-]. split; [ reflexivity | ]. exists z. split; [ reflexivity | exact Hge ].
Qed.

Lemma py_str_int (z : Z) :
  int_digits z <= int_max_str_digits -> py_str repr (PInt z) = Ok (int_str z).
Proof.
  intros H. cbn [py_str].
  destruct (Z.leb_spec (int_digits z) int_max_str_digits); [ reflexivity | lia ].
Qed.

Lemma row_texts_Ok (r : row) :
  forall fields,
    row_texts repr r = Ok fields <->
    Forall2 (fun v s => py_str repr v = Ok s) r fields.
Proof.
  induction r as [ | v r IH ]; intros fields; cbn [row_texts].
  - split.
    + intros [= <-]. constructor.
    + intros H. inversion H. reflexivity.
  - destruct (py_str repr v) as [ s | e ] eqn:Ev; cbn [bind].
    + destruct (row_texts repr r) as [ l | e ] eqn:Er; cbn [bind].
      * split.
        -- intros [= <-]. constructor; [ exact Ev | ]. apply IH. reflexivity.
        -- intros H. inversion H as [ | v' s' r' l' Hv Hl ]; subst.
           rewrite Ev in Hv. injection Hv as <-.
           apply IH in Hl. injection Hl as <-. reflexivity.
      * split; [ discriminate | ].
        intros H. inversion H as [ | v' s' r' l' Hv Hl ]; subst.
        apply IH in Hl. discriminate Hl.
    + split; [ discriminate | ].
      intros H. inversion H as [ | v' s' r' l' Hv Hl ]; subst.
      rewrite Ev in Hv. discriminate Hv.
Qed.

Lemma row_texts_Raise (r : row) (e : exn) :
  row_texts repr r = Raise e ->
  e = ValueError /\
  exists z, In (PInt z) r /\ int_max_str_digits < int_digits z.
Proof.
  induction r as [ | v r IH ]; cbn [row_texts]; [ discriminate | ].
  destruct (py_str repr v) as [ s | e' ] eqn:Ev; cbn [bind].
  - destruct (row_texts repr r) as [ l | e' ] eqn:Er; cbn [bind]; [ discriminate | ].
    intros [= <-]. destruct (IH eq_refl) as (He & z & Hin & Hz).
    split; [ exact He | ]. exists z. split; [ right; exact Hin | exact Hz ].
  - intros [= <-]. destruct (py_str_Raise v e' Ev) as (He & z & -> & Hz).
    split; [ exact He | ]. exists z. split; [ left; reflexivity | exact Hz ].
Qed.

(** The loop writes the rows up to the first one that [str] refuses. *)
Lemma write_rows_spec (rows : list row) (o : option exn) :
  forall f : string,
  exists (written rest : list row) (texts : list (list string)),
    rows = written ++ rest /\
    Forall2 (Forall2 (fun v s => py_str repr v = Ok s)) written texts /\
    fst (write_rows repr f rows o) = (f ++ report_text texts)%string /\
    match rest with
    | [] => snd (write_rows repr f rows o) = o
    | r :: _ =>
        snd (write_rows repr f rows o) = Some ValueError /\
        exists z, In (PInt z) r /\ int_max_str_digits < int_digits z
    end.
Proof.
  induction rows as [ | r rows IH ]; intros f.
  - exists [], [], []. cbn [write_rows fst snd report_text app].
    rewrite string_app_nil_r. repeat split. constructor.
  - cbn [write_rows]. unfold writerow.
    destruct (row_texts repr r) as [ fields | e ] eqn:Er; cbn [bind].
    + destruct (IH (f ++ csv_line fields)%string) as (written & rest & texts & Hrows & Htexts & Hf & Hend).
      exists (r :: written), rest, (fields :: texts).
      split; [ rewrite Hrows; reflexivity | ].
      split; [ constructor; [ apply row_texts_Ok; exact Er | exact Htexts ] | ].
      split; [ rewrite Hf; cbn [report_text]; apply string_app_assoc | exact Hend ].
    + destruct (row_texts_Raise r e Er) as (-> & Hz).
      exists [], (r :: rows), []. cbn [fst snd report_text app].
      rewrite string_app_nil_r. repeat split; [ constructor | exact Hz ].
Qed.

Lemma writerow_headers :
  writerow repr EmptyString headers
  = Ok (csv_line [ "Query"; "Matching Strain"; "Query Coverage"; "Percent ID";
                   "Identities"; "Alignment Length"; "Query Start"; "Query End";
                   "Subject Start"; "Subject End"; "Query Length";
                   "Strain Length"; "e-value" ]).
Proof. reflexivity. Qed.

(** The report: the header line, then the lines of the rows written. *)
Lemma blast_report_spec (fs : filesystem) (reportpath : string)
    (result : list Blast.t) (n : Z) :
  exists (written rest : list row) (texts : list (list string)),
    fst (tabulate_hsp_xml result n) = written ++ rest /\
    Forall2 (Forall2 (fun v s => py_str repr v = Ok s)) written texts /\
    fst (blast_report repr fs reportpath result n)
    = fs_store fs reportpath
        (csv_line [ "Query"; "Matching Strain"; "Query Coverage"; "Percent ID";
                    "Identities"; "Alignment Length"; "Query Start"; "Query End";
                    "Subject Start"; "Subject End"; "Query Length";
                    "Strain Length"; "e-value" ]
         ++ report_text texts)%string /\
    match rest with
    | [] => snd (blast_report repr fs reportpath result n)
            = snd (tabulate_hsp_xml result n)
    | r :: _ =>
        snd (blast_report repr fs reportpath result n) = Some ValueError /\
        exists z, In (PInt z) r /\ int_max_str_digits < int_digits z
    end.
Proof.
  unfold blast_report. rewrite writerow_headers.
  destruct (tabulate_hsp_xml result n) as [rows o]. cbn [fst snd].
  destruct (write_rows_spec rows o
              (csv_line [ "Query"; "Matching Strain"; "Query Coverage"; "Percent ID";
                          "Identities"; "Alignment Length"; "Query Start"; "Query End";
                          "Subject Start"; "Subject End"; "Query Length";
                          "Strain Length"; "e-value" ]))
    as (written & rest & texts & Hrows & Htexts & Hf & Hend).
  exists written, rest, texts.
  destruct (write_rows repr _ rows o) as [f' o']. cbn [fst snd] in *.
  split; [ exact Hrows | ]. split; [ exact Htexts | ].
  split; [ rewrite Hf; reflexivity | exact Hend ].
Qed.

(** A row with an int of too many digits is refused. *)
Lemma row_texts_refused (r : row) (z : Z) :
  In (PInt z) r -> int_max_str_digits < int_digits z ->
  row_texts repr r = Raise ValueError.
Proof.
  intros Hin Hz. destruct (row_texts repr r) as [ fields | e ] eqn:Er.
  - apply row_texts_Ok in Er. exfalso.
    induction Er as [ | v s r fields Hv _ IH ]; [ contradiction | ].
    destruct Hin as [ -> | Hin ]; [ | exact (IH Hin) ].
    cbn [py_str] in Hv.
    destruct (Z.leb_spec (int_digits z) int_max_str_digits); [ lia | discriminate ].
  - f_equal. apply (row_texts_Raise r e Er).
Qed.

(** The loop stops at the first row that is refused. *)
Lemma write_rows_refused (written : list row) (texts : list (list string))
    (r : row) (rest : list row) (o : option exn) :
  Forall2 (fun row fields => row_texts repr row = Ok fields) written texts ->
  row_texts repr r = Raise ValueError ->
  forall f : string,
    write_rows repr f (written ++ r :: rest) o
    = ((f ++ report_text texts)%string, Some ValueError).
Proof.
  intros Hw Hr. induction Hw as [ | row fields written texts Hrow _ IH ]; intros f.
  - cbn [app write_rows report_text]. unfold writerow. rewrite Hr. cbn [bind].
    rewrite string_app_nil_r. reflexivity.
  - cbn [app write_rows report_text]. unfold writerow at 1. rewrite Hrow. cbn [bind].
    rewrite IH, string_app_assoc. reflexivity.
Qed.

Lemma blast_report_refused (fs : filesystem) (reportpath : string)
    (result : list Blast.t) (n : Z) (o : option exn)
    (written : list row) (texts : list (list string))
    (r : row) (rest : list row) (z : Z) :
  tabulate_hsp_xml result n = (written ++ r :: rest, o) ->
  Forall2 (fun row fields => row_texts repr row = Ok fields) written texts ->
  In (PInt z) r -> int_max_str_digits < int_digits z ->
  blast_report repr fs reportpath result n
  = (fs_store fs reportpath
       (csv_line [ "Query"; "Matching Strain"; "Query Coverage"; "Percent ID";
                   "Identities"; "Alignment Length"; "Query Start"; "Query End";
                   "Subject Start"; "Subject End"; "Query Length";
                   "Strain Length"; "e-value" ]
        ++ report_text texts)%string,
     Some ValueError).
Proof.
  intros Hrun Hw Hin Hz. unfold blast_report.
  rewrite writerow_headers, Hrun.
  rewrite (write_rows_refused written texts r rest o Hw
             (row_texts_refused r z Hin Hz)).
  reflexivity.
Qed.

Lemma simple_row_fields (r : row) (fields : list string) :
  simple_row repr r ->
  Forall2 (fun v s => py_str repr v = Ok s) r fields ->
  simple_fields fields.
Proof.
  intros [Hlen Hplain] H. split.
  - rewrite <- (Forall2_length H). exact Hlen.
  - clear Hlen. induction H as [ | v s r fields Hv _ IH ]; [ constructor | ].
    inversion Hplain as [ | v' r' Hpv Hpr ]; subst.
    constructor; [ apply Hpv; exact Hv | apply IH; exact Hpr ].
Qed.

End ReportText.

(** *** The digits of an int *)

Lemma string_of_uint_length (d : Decimal.uint) :
  String.length (NilEmpty.string_of_uint d) = Decimal.nb_digits d.
Proof. induction d; cbn; congruence. Qed.

Lemma int_digits_pos (p : positive) :
  int_digits (Zpos p) = Z.of_nat (Decimal.nb_digits (Pos.to_little_uint p)).
Proof.
  unfold int_digits, int_str. cbn [Z.abs Z.to_int NilZero.string_of_int].
  unfold NilZero.string_of_uint.
  pose proof (DecimalPos.Unsigned.to_uint_nonnil p) as Hnil.
  destruct (Pos.to_uint p) eqn:E; [ contradiction | .. ];
    rewrite <- E, string_of_uint_length; unfold Pos.to_uint;
    rewrite DecimalFacts.nb_digits_rev; reflexivity.
Qed.

(** Ten times a positive int has one digit more. *)
Lemma int_digits_tenfold (z : Z) :
  0 < z -> int_digits (10 * z) = int_digits z + 1.
Proof.
  destruct z as [ | p | p ]; try lia. intros _.
  change (10 * Z.pos p) with (Z.pos (10 * p)).
  rewrite !int_digits_pos.
  pose proof (DecimalPos.Unsigned.to_ldec_tenfold p) as H.
  change (DecimalPos.Unsigned.to_lu (10 * N.pos p))
    with (Pos.to_little_uint (10 * p)) in H.
  change (DecimalPos.Unsigned.to_lu (N.pos p)) with (Pos.to_little_uint p) in H.
  rewrite H. cbn [Decimal.nb_digits]. lia.
Qed.

Lemma int_digits_pow10 (k : nat) :
  int_digits (10 ^ Z.of_nat k) = Z.of_nat k + 1.
Proof.
  induction k as [ | k IH ]; [ reflexivity | ].
  rewrite Nat2Z.inj_succ, Z.pow_succ_r by lia.
  rewrite int_digits_tenfold by (apply Z.pow_pos_nonneg; lia).
  rewrite IH. lia.
Qed.

Lemma int_digits_opp (z : Z) : int_digits (- z) = int_digits z.
Proof. unfold int_digits. rewrite Z.abs_opp. reflexivity. Qed.

(** The smallest int of 4301 digits. *)
Lemma int_digits_limit : int_max_str_digits < int_digits (10 ^ 4300).
Proof.
  change (10 ^ 4300) with (10 ^ Z.of_nat 4300).
  rewrite int_digits_pow10. vm_compute. reflexivity.
Qed.


(** *** What [str] and [repr] print *)

Lemma string_of_uint_plain (d : Decimal.uint) :
  plain (NilEmpty.string_of_uint d) = true.
Proof.
  induction d as [ | d IH | d IH | d IH | d IH | d IH | d IH | d IH | d IH | d IH | d IH ];
    cbn [NilEmpty.string_of_uint]; try reflexivity;
    rewrite plain_String, IH; reflexivity.
Qed.

Lemma int_str_plain (z : Z) : plain (int_str z) = true.
Proof.
  unfold int_str, NilZero.string_of_int.
  destruct (Z.to_int z) as [ d | d ]; unfold NilZero.string_of_uint.
  - destruct d; try reflexivity; apply string_of_uint_plain.
  - rewrite plain_String. cbn [andb negb].
    destruct d; try reflexivity; apply string_of_uint_plain.
Qed.






(** *** Rows of the report *)

Lemma row_values_simple (repr : float -> string)
    (res : Blast.t) (aln : Alignment.t) (hsp : HSP.t) :
  (forall x, plain (repr x) = true) ->
  plain (Blast.query res) = true -> plain (Alignment.hit_def aln) = true ->
  simple_row repr (row_values res aln hsp).
Proof.
  intros Hrepr Hq Hs. split; [ cbn; lia | ].
  assert (Hint : forall z s, py_str repr (PInt z) = Ok s -> plain s = true).
  { intros z s. cbn [py_str].
    destruct (int_digits z <=? int_max_str_digits); [ | discriminate ].
    intros [= <-]. apply int_str_plain. }
  assert (Hfloat : forall x s, py_str repr (PFloat x) = Ok s -> plain s = true).
  { intros x s [= <-]. apply Hrepr. }
  assert (Hstr : forall t s, plain t = true -> py_str repr (PStr t) = Ok s -> plain s = true).
  { intros t s Ht [= <-]. exact Ht. }
  unfold row_values.
  repeat (constructor;
    [ intros s; first [ apply Hint | apply Hfloat | apply Hstr; assumption ] | ]).
  constructor.
Qed.

(** * The ints that convert to a float *)


Lemma iter_shr_r (n : nat) (rec : shr_record) :
  0 <= shr_m rec ->
  shr_r (Nat.iter (S n) shr_1 rec) = Z.odd (shr_m rec / 2 ^ Z.of_nat n).
Proof.
  intros Hm. rewrite Nat.iter_succ.
  pose proof (iter_shr_m n rec Hm) as Hn.
  assert (Hpos : 0 <= shr_m (Nat.iter n shr_1 rec)).
  { rewrite Hn. apply Z.div_pos; [ assumption | apply Z.pow_pos_nonneg; lia ]. }
  destruct (Nat.iter n shr_1 rec) as [ m r s ]. cbn [shr_m] in *.
  rewrite shr_1_nonneg by assumption. cbn [shr_r]. rewrite Hn. reflexivity.
Qed.

Lemma round_nearest_even_down (rec : shr_record) (q : Z) :
  shr_r rec = false -> round_nearest_even q (loc_of_shr_record rec) = q.
Proof. destruct rec as [ m [ | ] [ | ] ]; cbn; intros H; try discriminate; reflexivity. Qed.

Lemma round_nearest_even_up (rec : shr_record) (q : Z) :
  shr_r rec = true -> Z.odd q = true ->
  round_nearest_even q (loc_of_shr_record rec) = q + 1.
Proof.
  destruct rec as [ m [ | ] [ | ] ]; cbn; intros H Hodd; try discriminate;
    [ reflexivity | ].
  rewrite <- Z.negb_odd, Hodd. reflexivity.
Qed.



Lemma convertible_is_infinity (z : Z) :
  convertible z = negb (is_infinity (nearest_double z)).
Proof.
  unfold convertible, int_to_float. destruct (nearest_double z); reflexivity.
Qed.

Lemma binary_round_aux_sign (s : bool) (m e : Z) (l : location) :
  0 <= m ->
  is_infinity (binary_round_aux prec emax s m e l)
  = is_infinity (binary_round_aux prec emax false m e l).
Proof.
  intros Hm. rewrite !binary_round_aux_stages by assumption. cbv zeta.
  destruct (_ / _) as [ | p | p ]; try reflexivity.
  destruct (_ <=? _); reflexivity.
Qed.

Lemma convertible_opp (z : Z) : convertible (- z) = convertible z.
Proof.
  rewrite !convertible_is_infinity. f_equal.
  destruct z as [ | p | p ]; [ reflexivity | | ];
    cbn [Z.opp]; unfold nearest_double, binary_normalize, binary_round;
    destruct (shl_align p 0 _) as [mz ez];
    [ | symmetry ]; apply binary_round_aux_sign; lia.
Qed.

(** Rounding an int of more than 53 bits: the mantissa is the leading 53
    bits, or one more, and the exponent the number of bits dropped, or one
    more after a carry. *)
Lemma nearest_double_large (p : Z) :
  0 < p -> 54 <= Zdigits2 p ->
  let n := Zdigits2 p - 53 in
  let q := p / 2 ^ n in
  exists m1,
    q <= m1 <= q + 1 /\
    (Z.odd (p / 2 ^ (n - 1)) = false -> m1 = q) /\
    (Z.odd (p / 2 ^ (n - 1)) = true -> Z.odd q = true -> m1 = q + 1) /\
    is_infinity (nearest_double p) =
      negb (if m1 <? 2 ^ 53 then n <=? 971 else n + 1 <=? 971).
Proof.
  intros Hp Hd n q.
  pose proof (Zdigits2_bounds p Hp) as Hb.
  assert (Hn : 1 <= n) by (subst n; lia).
  assert (Hp2 : 0 < 2 ^ n) by (apply Z.pow_pos_nonneg; lia).
  assert (Hq : 2 ^ 52 <= q < 2 ^ 53).
  { assert (H1 : 2 ^ (Zdigits2 p - 1) = 2 ^ 52 * 2 ^ n).
    { rewrite <- pow2_split by lia. f_equal. subst n. lia. }
    assert (H2 : 2 ^ Zdigits2 p = 2 ^ 53 * 2 ^ n).
    { rewrite <- pow2_split by lia. f_equal. subst n. lia. }
    subst q. split.
    - apply Z.div_le_lower_bound; lia.
    - apply Z.div_lt_upper_bound; lia. }
  destruct p as [ | pp | pp ]; try lia.
  unfold nearest_double, binary_normalize, binary_round.
  change (Zpos (digits2_pos pp)) with (Zdigits2 (Zpos pp)).
  rewrite Z.add_0_r, fexp_eq.
  unfold shl_align.
  replace (Z.max (Zdigits2 (Zpos pp) - 53) (-1074) - 0) with n by (subst n; lia).
  destruct n as [ | np | np ] eqn:En; try lia.
  rewrite binary_round_aux_stages by lia. cbv zeta.
  rewrite Z.add_0_r, fexp_eq.
  replace (Z.max (Zdigits2 (Zpos pp) - 53) (-1074) - 0) with (Zpos np) by lia.
  rewrite (Z.max_l (Zpos np) 0) by lia. fold q.
  cbn [shr fst shr_record_of_loc].
  set (r1 := SpecFloat.iter_pos shr_1 np _).
  set (m1 := round_nearest_even q (loc_of_shr_record r1)).
  assert (Hr1 : shr_r r1 = Z.odd (Zpos pp / 2 ^ (Zpos np - 1))).
  { subst r1. rewrite iter_pos_nat.
    destruct (Pos.to_nat np) as [ | k ] eqn:Ek; [ lia | ].
    rewrite iter_shr_r by (cbn; lia). cbn [shr_m].
    f_equal. f_equal. f_equal. lia. }
  pose proof (round_nearest_even_bounds q (loc_of_shr_record r1)) as Hm1.
  fold m1 in Hm1.
  exists m1. split; [ exact Hm1 | ]. split; [ | split ].
  - intros Hodd. apply round_nearest_even_down. rewrite Hr1. exact Hodd.
  - intros Hodd Hq1. apply round_nearest_even_up; [ rewrite Hr1 | ]; assumption.
  - destruct (Z.ltb_spec m1 (2 ^ 53)) as [ Hlt | Hge ].
    + rewrite (Zdigits2_53 m1) by lia. rewrite fexp_eq.
      replace (Z.max (Z.max (53 + (0 + Zpos np) - 53) (-1074) - (0 + Zpos np)) 0)
        with 0 by lia.
      rewrite Z.pow_0_r, Z.div_1_r, Z.add_0_r.
      destruct m1 as [ | x | x ]; try lia.
      change (emax - prec) with 971. rewrite Z.add_0_l.
      destruct (Zpos np <=? 971); reflexivity.
    + assert (Hm : m1 = 2 ^ 53) by lia. rewrite Hm.
      rewrite (Zdigits2_54 (2 ^ 53)) by lia. rewrite fexp_eq.
      replace (Z.max (Z.max (54 + (0 + Zpos np) - 53) (-1074) - (0 + Zpos np)) 0)
        with 1 by lia.
      change (2 ^ 53 / 2 ^ 1) with (Zpos 4503599627370496).
      change (emax - prec) with 971. rewrite Z.add_0_l.
      destruct (Zpos np + 1 <=? 971); reflexivity.
Qed.

Lemma Zdigits2_le (p d : Z) : 0 < p -> p < 2 ^ d -> 0 <= d -> Zdigits2 p <= d.
Proof.
  intros Hp Hlt Hd. pose proof (Zdigits2_bounds p Hp) as Hb.
  destruct (Z_le_gt_dec (Zdigits2 p) d) as [ | Hgt ]; [ assumption | exfalso ].
  assert (2 ^ d <= 2 ^ (Zdigits2 p - 1)) by (apply Z.pow_le_mono_r; lia). lia.
Qed.

Lemma Zdigits2_ge (p d : Z) : 0 < p -> 2 ^ (d - 1) <= p -> d <= Zdigits2 p.
Proof.
  intros Hp Hle. pose proof (Zdigits2_bounds p Hp) as Hb.
  pose proof (Zdigits2_pos p Hp) as Hd.
  destruct (Z_le_gt_dec d (Zdigits2 p)) as [ | Hgt ]; [ assumption | exfalso ].
  assert (2 ^ Zdigits2 p <= 2 ^ (d - 1)) by (apply Z.pow_le_mono_r; lia). lia.
Qed.

(** The ints that convert to a float are those below
    [2^1024 - 2^970] in absolute value. *)
Lemma convertible_iff (z : Z) :
  convertible z = true <-> Z.abs z < 2 ^ 1024 - 2 ^ 970.
Proof.
  assert (Hpos : forall p, 0 < p ->
            (convertible p = true <-> p < 2 ^ 1024 - 2 ^ 970)).
  { intros p Hp.
    destruct (Z_lt_le_dec (Zdigits2 p) 54) as [ Hsmall | Hlarge ].
    - (* at most 53 bits *)
      pose proof (Zdigits2_bounds p Hp) as Hb.
      assert (Hp53 : p < 2 ^ 53).
      { assert (2 ^ Zdigits2 p <= 2 ^ 53) by (apply Z.pow_le_mono_r; lia). lia. }
      split; [ intros _ | intros _; apply convertible_small; lia ].
      assert (2 ^ 53 < 2 ^ 1024 - 2 ^ 970) by (vm_compute; reflexivity). lia.
    - destruct (nearest_double_large p Hp Hlarge) as (m1 & Hm1 & Hdown & Hup & Hinf).
      cbv zeta in *. rewrite convertible_is_infinity, Hinf, negb_involutive.
      pose proof (Zdigits2_bounds p Hp) as Hb.
      set (d := Zdigits2 p) in *.
      assert (H1024 : 2 ^ 1024 - 2 ^ 970 = (2 ^ 54 - 1) * 2 ^ 970)
        by (vm_compute; reflexivity).
      destruct (Z.lt_trichotomy d 1024) as [ Hlt | [ Heq | Hgt ] ].
      + (* fewer than 1024 bits: in range even after a carry *)
        assert (Hp' : p < 2 ^ 1024 - 2 ^ 970).
        { assert (2 ^ d <= 2 ^ 1023) by (apply Z.pow_le_mono_r; lia).
          assert (2 ^ 1023 < 2 ^ 1024 - 2 ^ 970) by (vm_compute; reflexivity). lia. }
        split; [ intros _; exact Hp' | intros _ ].
        destruct (m1 <? 2 ^ 53); apply Z.leb_le; lia.
      + (* 1024 bits: in range unless the rounding carries *)
        rewrite Heq in *. change (1024 - 53) with 971 in *.
        change (971 - 1) with 970 in *.
        assert (H970 : 0 < 2 ^ 970) by (vm_compute; reflexivity).
        assert (Hq970 : p / 2 ^ 971 = (p / 2 ^ 970) / 2).
        { rewrite Z.div_div by lia. reflexivity. }
        assert (Hhi : p / 2 ^ 970 < 2 ^ 54).
        { apply Z.div_lt_upper_bound; [ lia | ].
          change (2 ^ 1024) with (2 ^ 970 * 2 ^ 54) in Hb. lia. }
        split.
        * intros Hconv.
          destruct (Z_lt_le_dec p (2 ^ 1024 - 2 ^ 970)) as [ | Hge ];
            [ assumption | exfalso ].
          assert (Hlo : 2 ^ 54 - 1 <= p / 2 ^ 970).
          { apply Z.div_le_lower_bound; lia. }
          assert (Hval : p / 2 ^ 970 = 2 ^ 54 - 1) by lia.
          assert (Hq : p / 2 ^ 971 = 2 ^ 53 - 1).
          { rewrite Hq970, Hval. reflexivity. }
          assert (Hm : m1 = 2 ^ 53).
          { rewrite (Hup ltac:(rewrite Hval; reflexivity)
                         ltac:(rewrite Hq; reflexivity)), Hq. reflexivity. }
          rewrite Hm in Hconv. discriminate.
        * intros Hp'.
          assert (Hval : p / 2 ^ 970 < 2 ^ 54 - 1).
          { apply Z.div_lt_upper_bound; lia. }
          assert (Hlt53 : m1 < 2 ^ 53).
          { destruct (Z_lt_le_dec (p / 2 ^ 971) (2 ^ 53 - 1)) as [ | Hq ]; [ lia | ].
            assert (Hev : p / 2 ^ 970 = 2 ^ 54 - 2).
            { pose proof (Z.div_mod (p / 2 ^ 970) 2 ltac:(lia)) as Hdm.
              pose proof (Z.mod_pos_bound (p / 2 ^ 970) 2 ltac:(lia)).
              rewrite <- Hq970 in Hdm. lia. }
            rewrite (Hdown ltac:(rewrite Hev; reflexivity)).
            apply Z.div_lt_upper_bound; [ lia | ].
            change (2 ^ 1024) with (2 ^ 971 * 2 ^ 53) in Hb. lia. }
          apply Z.ltb_lt in Hlt53. rewrite Hlt53. reflexivity.
      + (* more than 1024 bits: out of range *)
        assert (Hp' : 2 ^ 1024 <= p).
        { assert (2 ^ 1024 <= 2 ^ (d - 1)) by (apply Z.pow_le_mono_r; lia). lia. }
        split.
        * intros Hconv. exfalso.
          destruct (m1 <? 2 ^ 53); apply Z.leb_le in Hconv; lia.
        * intros Hlt. exfalso.
          assert (0 < 2 ^ 970) by (vm_compute; reflexivity). lia. }
  destruct z as [ | p | p ].
  - split; [ intros _; vm_compute; reflexivity | reflexivity ].
  - apply Hpos. lia.
  - change (Zneg p) with (- Zpos p). rewrite convertible_opp, Z.abs_opp.
    apply Hpos. lia.
Qed.


Lemma convertible_limit (z : Z) :
  convertible z = true <-> Z.abs z < float_limit.
Proof. exact (convertible_iff z). Qed.

Lemma not_convertible_limit (z : Z) :
  convertible z = false <-> float_limit <= Z.abs z.
Proof.
  pose proof (convertible_limit z) as H.
  destruct (convertible z); split; intros H'; try reflexivity; try discriminate.
  - assert (Z.abs z < float_limit) by (apply H; reflexivity). lia.
  - destruct (Z_lt_le_dec (Z.abs z) float_limit) as [ Hlt | Hle ]; [ | exact Hle ].
    apply H in Hlt. discriminate Hlt.
Qed.

(** * The tabulator *)

Lemma all_rows_ok_Forall2 (res : Blast.t) (alns : list Alignment.t) :
  forallb (row_ok res) alns = true ->
  exists g, Forall2 (fun aln r => tabulate_row res aln = Ok r) alns g.
Proof.
  induction alns as [ | aln alns IH ]; cbn [forallb].
  - intros _. exists []. constructor.
  - intros [Ha Hrest]%andb_prop.
    destruct (proj1 (row_ok_iff res aln) Ha) as [r Hr].
    destruct (IH Hrest) as [g Hg].
    exists (r :: g). constructor; assumption.
Qed.

(** A run in which no row computation raises ends normally, with one group
    of rows per record, one row per taken alignment. *)
Lemma all_rows_ok_groups (result : list Blast.t) (n : Z) :
  all_rows_ok result n = true ->
  exists groups,
    tabulate_hsp_xml result n = (List.concat groups, None) /\
    Forall2 (fun res g =>
               Forall2 (fun aln r => tabulate_row res aln = Ok r) (taken res n) g)
            result groups.
Proof.
  intros Hok.
  assert (Hg : exists groups,
             Forall2 (fun res g =>
                        Forall2 (fun aln r => tabulate_row res aln = Ok r)
                                (taken res n) g) result groups).
  { unfold all_rows_ok in Hok.
    induction result as [ | res result IH ]; cbn [forallb] in Hok.
    - exists []. constructor.
    - apply andb_prop in Hok as [Hres Hrest].
      destruct (all_rows_ok_Forall2 res _ Hres) as [g Hg].
      destruct (IH Hrest) as [groups Hgroups].
      exists (g :: groups). constructor; assumption. }
  destruct Hg as [groups Hg]. exists groups. split; [ | exact Hg ].
  apply tabulate_hsp_xml_None. exists groups. split; [ reflexivity | exact Hg ].
Qed.

(** C1 (as amended): for every input and every top_n = n >= 0 on which no
    row computation of a taken match raises, the tabulator ends normally and
    its rows are, record after record in input order, exactly min(k, n) rows
    for a record with k matches: the rows of its first matches, in their
    order. *)
Theorem tabulate_top_n (result : list Blast.t) (n : Z) :
  0 <= n ->
  all_rows_ok result n = true ->
  exists groups,
    tabulate_hsp_xml result n = (List.concat groups, None) /\
    Forall2 (fun res g =>
               Z.of_nat (List.length g)
               = Z.min (Z.of_nat (List.length (Blast.alignments res))) n /\
               Forall2 (fun aln r => tabulate_row res aln = Ok r)
                       (firstn (Z.to_nat n) (Blast.alignments res)) g)
            result groups.
Proof.
  intros Hn Hok.
  destruct (all_rows_ok_groups result n Hok) as (groups & Ht & Hg).
  exists groups. split; [ exact Ht | ].
  eapply Forall2_impl; [ | exact Hg ].
  intros res g Hrg. unfold taken in Hrg.
  destruct (slice0_nonneg (Blast.alignments res) n Hn) as [Hs Hl].
  split.
  - rewrite <- Hl. f_equal. symmetry. eapply Forall2_length. exact Hrg.
  - rewrite <- Hs. exact Hrg.
Qed.

Lemma tabulate_top_n_witness :
  0 <= 2 /\ all_rows_ok three_matches 2 = true /\
  exists groups,
    tabulate_hsp_xml three_matches 2 = (List.concat groups, None) /\
    Forall2 (fun res g =>
               Z.of_nat (List.length g)
               = Z.min (Z.of_nat (List.length (Blast.alignments res))) 2 /\
               Forall2 (fun aln r => tabulate_row res aln = Ok r)
                       (firstn (Z.to_nat 2) (Blast.alignments res)) g)
            three_matches groups.
Proof.
  split; [ lia | ]. split; [ vm_compute; reflexivity | ].
  apply (tabulate_top_n three_matches 2); [ lia | vm_compute; reflexivity ].
Defined.

(** C1 as stated fails: with lengths that a double cannot hold the run
    stops with [OverflowError] before the row of the first match, though
    min(k, n) = 1; and with an alignment of length 0 in its second match,
    the second record gives one row, though min(k, n) = 3. *)
Lemma tabulate_top_n_counterexample :
  (tabulate_hsp_xml huge_lengths 1 = ([], Some OverflowError) /\
   map (fun res => Z.min (Z.of_nat (List.length (Blast.alignments res))) 1)
       huge_lengths = [1]) /\
  (List.length (fst (tabulate_hsp_xml zero_length 10)) = 2%nat /\
   snd (tabulate_hsp_xml zero_length 10) = Some ZeroDivisionError /\
   map (fun res => Z.min (Z.of_nat (List.length (Blast.alignments res))) 10)
       zero_length = [1; 3]).
Proof. repeat split; vm_compute; reflexivity. Qed.

(** Two of three matches are kept with top_n = 2, and the query without
    matches gives no row. *)
Example three_matches_top_2 :
  map (row_texts float_repr) (fst (tabulate_hsp_xml three_matches 2))
  = [ Ok [ "contig_1"; "A/duck/1"; "100.0"; "95.0"; "95"; "100"; "1"; "100";
           "1"; "100"; "100"; "100"; "1e-50" ];
      Ok [ "contig_1"; "A/duck/2"; "90.0"; "97.77777777777777"; "88"; "90";
           "1"; "100"; "1"; "100"; "100"; "120"; "1e-50" ] ]
  /\ snd (tabulate_hsp_xml three_matches 2) = None.
Proof. split; vm_compute; reflexivity. Qed.

(** The rows of the inner loop are those of the alignments before the
    first whose row computation raises. *)
Lemma tabulate_alignments_pairs (res : Blast.t) (alns : list Alignment.t) :
  exists k : nat,
    (k <= List.length alns)%nat /\
    Forall2 (fun aln r => tabulate_row res aln = Ok r)
            (firstn k alns) (fst (tabulate_alignments res alns)) /\
    match snd (tabulate_alignments res alns) with
    | None => k = List.length alns
    | Some e => exists aln, nth_error alns k = Some aln /\
                            tabulate_row res aln = Raise e
    end.
Proof.
  induction alns as [ | aln alns IH ].
  - exists 0%nat. cbn. repeat split; [ lia | constructor ].
  - cbn [tabulate_alignments].
    destruct (tabulate_row res aln) as [ r | e ] eqn:Er.
    + destruct IH as (k & Hk & Hrows & Hend).
      destruct (tabulate_alignments res alns) as [rs o]. cbn [fst snd] in *.
      exists (S k). cbn [firstn List.length nth_error].
      split; [ lia | ]. split; [ constructor; assumption | ].
      destruct o as [ e | ]; [ exact Hend | lia ].
    + exists 0%nat. cbn [fst snd firstn List.length nth_error].
      split; [ lia | ]. split; [ constructor | ].
      exists aln. split; [ reflexivity | exact Er ].
Qed.

Lemma Forall2_map_pair (res : Blast.t) (alns : list Alignment.t) (rs : list row) :
  Forall2 (fun aln r => tabulate_row res aln = Ok r) alns rs ->
  Forall2 (fun (p : Blast.t * Alignment.t) r => tabulate_row (fst p) (snd p) = Ok r)
          (map (pair res) alns) rs.
Proof.
  induction 1 as [ | aln r alns rs Hr _ IH ]; cbn [map]; constructor; assumption.
Qed.

(** The rows of a run are those of the pairs visited before the first
    whose row computation raises. *)
Lemma tabulate_hsp_xml_pairs (result : list Blast.t) (n : Z) :
  exists k : nat,
    Forall2 (fun (p : Blast.t * Alignment.t) r => tabulate_row (fst p) (snd p) = Ok r)
            (firstn k (taken_pairs result n)) (fst (tabulate_hsp_xml result n)) /\
    match snd (tabulate_hsp_xml result n) with
    | None => k = List.length (taken_pairs result n)
    | Some e => exists p, nth_error (taken_pairs result n) k = Some p /\
                          tabulate_row (fst p) (snd p) = Raise e
    end.
Proof.
  induction result as [ | res result IH ].
  - exists 0%nat. cbn. split; [ constructor | reflexivity ].
  - rewrite tabulate_hsp_xml_cons.
    change (taken_pairs (res :: result) n)
      with (map (pair res) (taken res n) ++ taken_pairs result n).
    destruct (tabulate_alignments_pairs res (taken res n)) as (k1 & Hk1 & Hrows1 & Hend1).
    destruct (tabulate_alignments res (taken res n)) as [rs [ e | ]]; cbn [fst snd] in *.
    + exists k1. destruct Hend1 as (aln & Hnth & Hraise).
      split.
      * rewrite firstn_app.
        replace (k1 - List.length (map (pair res) (taken res n)))%nat with 0%nat
          by (rewrite length_map; lia).
        cbn [firstn]. rewrite app_nil_r, firstn_map.
        apply Forall2_map_pair. exact Hrows1.
      * exists (res, aln). split; [ | exact Hraise ].
        rewrite nth_error_app1.
        -- apply map_nth_error. exact Hnth.
        -- rewrite length_map. apply nth_error_Some. rewrite Hnth. discriminate.
    + subst k1. rewrite firstn_all in Hrows1.
      destruct IH as (k2 & Hrows2 & Hend2).
      destruct (tabulate_hsp_xml result n) as [rs' o]. cbn [fst snd] in *.
      exists (List.length (map (pair res) (taken res n)) + k2)%nat.
      split.
      * rewrite firstn_app_2. apply Forall2_app; [ | exact Hrows2 ].
        apply Forall2_map_pair. exact Hrows1.
      * destruct o as [ e | ].
        -- destruct Hend2 as (p & Hnth & Hraise). exists p.
           split; [ | exact Hraise ].
           rewrite nth_error_app2 by lia.
           replace (_ + k2 - _)%nat with k2 by lia. exact Hnth.
        -- rewrite length_app. lia.
Qed.

(** C2: the rows the tabulator yields are, one for one and in order, the
    rows of the (record, alignment) pairs it visits: of every pair when the
    run ends normally, of the pairs before the first whose computation
    raises otherwise.  The row of a pair is computed from the first HSP of
    the alignment alone (the alignment stripped of its other HSPs gives the
    same row): the coverage is the absolute value of
    [100. * align_length / query_length], the identity is
    [100. * identities / align_length] without an absolute value, both in
    binary64 arithmetic on the converted ints, and the other eleven fields
    are passed through. *)
Theorem rows_from_first_hsp (result : list Blast.t) (n : Z) :
  exists k : nat,
    Forall2 (fun (p : Blast.t * Alignment.t) (r : row) =>
               exists hsp rest,
                 Alignment.hsps (snd p) = hsp :: rest /\
                 tabulate_row (fst p)
                   (Alignment.mk (Alignment.hit_def (snd p))
                                 (Alignment.length (snd p)) [hsp]) = Ok r /\
                 r = [ PStr (Blast.query (fst p));
                       PStr (Alignment.hit_def (snd p));
                       PFloat (float_abs
                                 (SFdiv prec emax
                                    (SFmul prec emax float_100
                                       (nearest_double (HSP.align_length hsp)))
                                    (nearest_double (Blast.query_length (fst p)))));
                       PFloat (SFdiv prec emax
                                 (SFmul prec emax float_100
                                    (nearest_double (HSP.identities hsp)))
                                 (nearest_double (HSP.align_length hsp)));
                       PInt (HSP.identities hsp);
                       PInt (HSP.align_length hsp);
                       PInt (HSP.query_start hsp);
                       PInt (HSP.query_end hsp);
                       PInt (HSP.sbjct_start hsp);
                       PInt (HSP.sbjct_end hsp);
                       PInt (Blast.query_length (fst p));
                       PInt (Alignment.length (snd p));
                       PFloat (HSP.expect hsp) ])
            (firstn k (taken_pairs result n))
            (fst (tabulate_hsp_xml result n)) /\
    match snd (tabulate_hsp_xml result n) with
    | None => k = List.length (taken_pairs result n)
    | Some e =>
        exists p, nth_error (taken_pairs result n) k = Some p /\
                  tabulate_row (fst p) (snd p) = Raise e
    end.
Proof.
  destruct (tabulate_hsp_xml_pairs result n) as (k & Hrows & Hend).
  exists k. split; [ | exact Hend ].
  eapply Forall2_impl; [ | exact Hrows ].
  intros [res aln] r Hr. cbn [fst snd] in *.
  pose proof Hr as Hr'.
  apply tabulate_row_Ok in Hr' as (hsp & rest & Hh & -> & _).
  exists hsp, rest. repeat split; try assumption.
  rewrite <- tabulate_row_first_hsp with (rest := rest). rewrite <- Hh.
  destruct aln; exact Hr.
Qed.

(** The pairs visited in three records with top_n = 2, and the rows. *)
Example three_matches_pairs :
  map (fun p => (Blast.query (fst p), Alignment.hit_def (snd p)))
      (taken_pairs three_matches 2)
  = map (fun r => match r with
                  | PStr q :: PStr s :: _ => (q, s)
                  | _ => (EmptyString, EmptyString)
                  end)
        (fst (tabulate_hsp_xml three_matches 2))
  /\ List.length (taken_pairs three_matches 2) = 2%nat.
Proof. split; vm_compute; reflexivity. Qed.

(** The scenario of one query of length 100 and one match with 95
    identities over 100 positions: identity 95.0 and coverage 100.0. *)
Example one_match_row :
  tabulate_hsp_xml one_match 10 =
  ([ [ PStr "contig_1"; PStr "A/duck/1";
       PFloat float_100; PFloat (S754_finite false 6685030696878080 (-46));
       PInt 95; PInt 100; PInt 1; PInt 100; PInt 1; PInt 100; PInt 100;
       PInt 100; PFloat float_1e_50 ] ], None)
  /\ float_repr (S754_finite false 6685030696878080 (-46)) = "95.0"
  /\ float_repr float_100 = "100.0".
Proof. repeat split; vm_compute; reflexivity. Qed.

(** The identity keeps its sign where the coverage loses it. *)
Example negative_length_row :
  map (row_texts float_repr) (fst (tabulate_hsp_xml
    [ Blast.mk "contig_1" 100 [ Alignment.mk "A/duck/1" 100 [ sample_hsp 5 (-5) ] ] ] 10))
  = [ Ok [ "contig_1"; "A/duck/1"; "5.0"; "-100.0"; "5"; "-5"; "1"; "100"; "1";
           "100"; "100"; "100"; "1e-50" ] ].
Proof. vm_compute. reflexivity. Qed.

(** C3 (as amended): the run ends in [ZeroDivisionError], the only error
    for a degenerate length, exactly when the first row computation that
    raises belongs to an alignment whose first HSP has [align_length] 0, or
    a non-zero [align_length] under a record with [query_length] 0, the ints
    read before converting to floats; the rows are then those of the records
    and alignments before it.  The message of the exception is the fixed
    text [float division by zero].  A negative length is no failure: for an
    alignment with a first HSP, when identities, align_length and
    query_length are below 2^1024 - 2^970 in absolute value and neither
    length is 0, the row is yielded, whatever the signs. *)
Theorem zero_length_raises (result : list Blast.t) (n : Z) (rows : list row) :
  (tabulate_hsp_xml result n = (rows, Some ZeroDivisionError) <->
   exists pre res post before aln after hsp rest rs1 rs2,
     result = pre ++ res :: post /\
     taken res n = before ++ aln :: after /\
     tabulate_hsp_xml pre n = (rs1, None) /\
     tabulate_alignments res before = (rs2, None) /\
     rows = rs1 ++ rs2 /\
     Alignment.hsps aln = hsp :: rest /\
     convertible (HSP.identities hsp) = true /\
     (HSP.align_length hsp = 0 \/
      (convertible (HSP.align_length hsp) = true /\ Blast.query_length res = 0))) /\
  exn_message ZeroDivisionError = "float division by zero" /\
  (forall (res : Blast.t) (aln : Alignment.t) (hsp : HSP.t) (rest : list HSP.t),
     Alignment.hsps aln = hsp :: rest ->
     Z.abs (HSP.identities hsp) < float_limit ->
     0 < Z.abs (HSP.align_length hsp) < float_limit ->
     0 < Z.abs (Blast.query_length res) < float_limit ->
     exists r, tabulate_row res aln = Ok r).
Proof.
  split; [ | split; [ reflexivity | ] ].
  - rewrite tabulate_hsp_xml_Some. split.
    + intros (pre & res & post & before & aln & after & rs1 & rs2 &
              Hres & Htaken & Hpre & Hbefore & Hrow & Hrows).
      apply tabulate_row_ZeroDivisionError in Hrow as (hsp & rest & Hh & Hi & Hz).
      exists pre, res, post, before, aln, after, hsp, rest, rs1, rs2.
      repeat split; assumption.
    + intros (pre & res & post & before & aln & after & hsp & rest & rs1 & rs2 &
              Hres & Htaken & Hpre & Hbefore & Hrows & Hh & Hi & Hz).
      exists pre, res, post, before, aln, after, rs1, rs2.
      repeat split; try assumption.
      apply tabulate_row_ZeroDivisionError. exists hsp, rest.
      repeat split; assumption.
  - intros res aln hsp rest Hh Hi [Ha0 Ha] [Hq0 Hq].
    apply row_ok_iff. unfold row_ok. rewrite Hh.
    apply convertible_limit in Hi, Ha, Hq. rewrite Hi, Ha, Hq.
    destruct (Z.eqb_spec (HSP.align_length hsp) 0); [ lia | ].
    destruct (Z.eqb_spec (Blast.query_length res) 0); [ lia | ].
    reflexivity.
Qed.

Lemma zero_length_raises_witness :
  (exists pre res post before aln after hsp rest rs1 rs2,
     zero_length = pre ++ res :: post /\
     taken res 10 = before ++ aln :: after /\
     tabulate_hsp_xml pre 10 = (rs1, None) /\
     tabulate_alignments res before = (rs2, None) /\
     fst (tabulate_hsp_xml zero_length 10) = rs1 ++ rs2 /\
     Alignment.hsps aln = hsp :: rest /\
     convertible (HSP.identities hsp) = true /\
     (HSP.align_length hsp = 0 \/
      (convertible (HSP.align_length hsp) = true /\ Blast.query_length res = 0))) /\
  (exists r,
     tabulate_row (Blast.mk "contig_1" (-100) [])
                  (Alignment.mk "A/duck/1" 100 [ sample_hsp (-5) (-5) ]) = Ok r).
Proof.
  destruct (zero_length_raises zero_length 10 (fst (tabulate_hsp_xml zero_length 10)))
    as (Hzero & _ & Hneg).
  split.
  - apply (proj1 Hzero). vm_compute. reflexivity.
  - apply (Hneg (Blast.mk "contig_1" (-100) [])
                (Alignment.mk "A/duck/1" 100 [ sample_hsp (-5) (-5) ])
                (sample_hsp (-5) (-5)) []).
    + reflexivity.
    + vm_compute. reflexivity.
    + split; vm_compute; reflexivity.
    + split; vm_compute; reflexivity.
Defined.

(** C3 as stated fails: for an alignment of length 0 the exception is
    Python's [ZeroDivisionError], whose message names neither the query nor
    the subject; for a negative length nothing is raised and the row is
    yielded. *)
Lemma zero_length_raises_counterexample :
  (snd (tabulate_hsp_xml zero_length 10) = Some ZeroDivisionError /\
   exn_message ZeroDivisionError = "float division by zero" /\
   contains "contig_2" (exn_message ZeroDivisionError) = false /\
   contains "A/duck/3" (exn_message ZeroDivisionError) = false) /\
  (snd (tabulate_hsp_xml negative_length 10) = None /\
   List.length (fst (tabulate_hsp_xml negative_length 10)) = 1%nat).
Proof. repeat split; vm_compute; reflexivity. Qed.

(** * The report *)

Lemma fs_store_same (fs : filesystem) (path content : string) :
  fs_store fs path content path = Some content.
Proof. unfold fs_store. rewrite String.eqb_refl. reflexivity. Qed.

Lemma names_plain_rows (repr : float -> string) (result : list Blast.t) (n : Z) :
  (forall x, plain (repr x) = true) ->
  names_plain result n = true ->
  Forall (simple_row repr) (fst (tabulate_hsp_xml result n)).
Proof.
  intros Hrepr Hnames.
  pose proof (tabulate_hsp_xml_rows result n) as Hrows.
  eapply Forall_impl; [ | exact Hrows ].
  intros r (res & aln & Hres & Haln & Hr).
  apply tabulate_row_Ok in Hr as (hsp & rest & _ & -> & _).
  unfold names_plain in Hnames.
  rewrite forallb_forall in Hnames. specialize (Hnames res Hres).
  rewrite forallb_forall in Hnames. specialize (Hnames aln Haln).
  apply andb_prop in Hnames as [Hq Hs].
  apply row_values_simple; assumption.
Qed.


Lemma column_names_simple :
  simple_fields [ "Query"; "Matching Strain"; "Query Coverage"; "Percent ID";
                   "Identities"; "Alignment Length"; "Query Start"; "Query End";
                   "Subject Start"; "Subject End"; "Query Length"; "Strain Length";
                   "e-value" ].
Proof. split; [ cbn; lia | repeat constructor ]. Qed.

(** The texts of rows with plain names split back at the tabs. *)
Lemma read_tsv_written (repr : float -> string) (rows : list row)
    (texts : list (list string)) :
  Forall (simple_row repr) rows ->
  Forall2 (Forall2 (fun v s => py_str repr v = Ok s)) rows texts ->
  read_tsv (csv_line [ "Query"; "Matching Strain"; "Query Coverage"; "Percent ID";
                        "Identities"; "Alignment Length"; "Query Start"; "Query End";
                        "Subject Start"; "Subject End"; "Query Length"; "Strain Length";
                        "e-value" ]
            ++ report_text texts)%string
  = [ "Query"; "Matching Strain"; "Query Coverage"; "Percent ID";
      "Identities"; "Alignment Length"; "Query Start"; "Query End";
      "Subject Start"; "Subject End"; "Query Length"; "Strain Length";
      "e-value" ] :: texts.
Proof.
  intros Hsimple Htexts.
  change (csv_line ?h ++ report_text texts)%string
    with (report_text (h :: texts)).
  apply read_tsv_report. constructor; [ exact column_names_simple | ].
  induction Htexts as [ | r fields rows texts Hr _ IH ]; [ constructor | ].
  inversion Hsimple as [ | r' rows' Hsr Hsrows ]; subst.
  constructor; [ eapply simple_row_fields; eassumption | apply IH; exact Hsrows ].
Qed.

Lemma Forall_app_l {A : Type} (P : A -> Prop) (a b : list A) :
  Forall P (a ++ b) -> Forall P a.
Proof. intros H. apply Forall_app in H. apply H. Qed.


Section RoundTrip.

Variable repr : float -> string.
Hypothesis repr_plain : forall x, plain (repr x) = true.


End RoundTrip.


(** The two rows of [long_coordinate] are computed whatever the
    coordinate is. *)
Lemma long_coordinate_rows (z : Z) :
  tabulate_hsp_xml (long_coordinate z) 10 =
  ([ [ PStr "contig_1"; PStr "A/duck/1";
       PFloat float_100; PFloat (S754_finite false 6685030696878080 (-46));
       PInt 95; PInt 100; PInt 1; PInt 100; PInt 1; PInt 100; PInt 100;
       PInt 100; PFloat float_1e_50 ];
     [ PStr "contig_1"; PStr "A/duck/2";
       PFloat (S754_finite false 6333186975989760 (-46));
       PFloat (S754_finite false 6880499430704924 (-46));
       PInt 88; PInt 90; PInt 1; PInt 100; PInt 1; PInt z; PInt 100;
       PInt 120; PFloat float_1e_50 ] ], None).
Proof. vm_compute. reflexivity. Qed.

(** With a coordinate of more than 4300 digits the second row is not
    written. *)
Lemma long_coordinate_report (z : Z) (rest : list row) (o : option exn)
    (result : list Blast.t) :
  int_max_str_digits < int_digits z ->
  tabulate_hsp_xml result 10
  = (fst (tabulate_hsp_xml (long_coordinate z) 10) ++ rest, o) ->
  blast_report float_repr no_files "TopBLASTHits.txt" result 10
  = (fs_store no_files "TopBLASTHits.txt"
       (csv_line [ "Query"; "Matching Strain"; "Query Coverage"; "Percent ID";
                   "Identities"; "Alignment Length"; "Query Start"; "Query End";
                   "Subject Start"; "Subject End"; "Query Length"; "Strain Length";
                   "e-value" ]
        ++ csv_line [ "contig_1"; "A/duck/1"; "100.0"; "95.0"; "95"; "100"; "1";
                      "100"; "1"; "100"; "100"; "100"; "1e-50" ])%string,
     Some ValueError).
Proof.
  intros Hz Hrun. rewrite long_coordinate_rows in Hrun. cbn [fst app] in Hrun.
  match type of Hrun with
  | _ = (?r1 :: ?r2 :: _, _) =>
      rewrite (blast_report_refused float_repr no_files "TopBLASTHits.txt"
                 result 10 o [ r1 ]
                 [ [ "contig_1"; "A/duck/1"; "100.0"; "95.0"; "95"; "100"; "1";
                     "100"; "1"; "100"; "100"; "100"; "1e-50" ] ]
                 r2 rest z)
  end.
  - cbn [report_text]. rewrite string_app_nil_r. reflexivity.
  - exact Hrun.
  - constructor; [ vm_compute; reflexivity | constructor ].
  - do 9 right. left. reflexivity.
  - exact Hz.
Qed.


(** The report of three matches with top_n = 2, split at the tabs. *)
Example three_matches_report :
  option_map read_tsv
    (fst (blast_report float_repr no_files "TopBLASTHits.txt" three_matches 2)
         "TopBLASTHits.txt")
  = Some [ [ "Query"; "Matching Strain"; "Query Coverage"; "Percent ID";
             "Identities"; "Alignment Length"; "Query Start"; "Query End";
             "Subject Start"; "Subject End"; "Query Length"; "Strain Length";
             "e-value" ];
           [ "contig_1"; "A/duck/1"; "100.0"; "95.0"; "95"; "100"; "1"; "100";
             "1"; "100"; "100"; "100"; "1e-50" ];
           [ "contig_1"; "A/duck/2"; "90.0"; "97.77777777777777"; "88"; "90";
             "1"; "100"; "1"; "100"; "100"; "120"; "1e-50" ] ]
  /\ snd (blast_report float_repr no_files "TopBLASTHits.txt" three_matches 2) = None.
Proof. split; vm_compute; reflexivity. Qed.

(** Without rows the report is the header line. *)
Example top_0_report :
  fst (blast_report float_repr no_files "TopBLASTHits.txt" three_matches 0)
      "TopBLASTHits.txt"
  = Some (csv_line [ "Query"; "Matching Strain"; "Query Coverage"; "Percent ID";
                     "Identities"; "Alignment Length"; "Query Start"; "Query End";
                     "Subject Start"; "Subject End"; "Query Length"; "Strain Length";
                     "e-value" ]).
Proof. vm_compute. reflexivity. Qed.

(** * The percentages *)

(** C5 (as amended): for a taken alignment whose first HSP has
    0 <= identities <= align_length, 1 <= align_length and
    25 * align_length below 2^53, the identity of the yielded row is a float
    between 0.0 and 100.0, and it is 100.0 when identities equals
    align_length. *)
Theorem identity_perc_0_100 (res : Blast.t) (aln : Alignment.t)
    (hsp : HSP.t) (rest : list HSP.t) (r : row) :
  Alignment.hsps aln = hsp :: rest ->
  0 <= HSP.identities hsp <= HSP.align_length hsp ->
  1 <= HSP.align_length hsp ->
  25 * HSP.align_length hsp < 2 ^ 53 ->
  tabulate_row res aln = Ok r ->
  exists x,
    nth_error r 3 = Some (PFloat x) /\
    float_le float_zero x = true /\ float_le x float_100 = true /\
    (HSP.identities hsp = HSP.align_length hsp -> x = float_100).
Proof.
  intros Hh Hi Ha H25 Hr.
  apply tabulate_row_Ok in Hr as (hsp' & rest' & Hh' & -> & _).
  rewrite Hh in Hh'. injection Hh' as <- <-.
  eexists. split; [ reflexivity | ].
  apply identity_perc_bounds; assumption.
Qed.

Lemma identity_perc_0_100_witness :
  exists x,
    nth_error [ PStr "contig_1"; PStr "A/duck/1";
                PFloat float_100; PFloat (S754_finite false 6685030696878080 (-46));
                PInt 95; PInt 100; PInt 1; PInt 100; PInt 1; PInt 100; PInt 100;
                PInt 100; PFloat float_1e_50 ] 3 = Some (PFloat x) /\
    float_le float_zero x = true /\ float_le x float_100 = true /\
    (95 = 100 -> x = float_100).
Proof.
  apply (identity_perc_0_100
           (Blast.mk "contig_1" 100 [])
           (Alignment.mk "A/duck/1" 100 [ sample_hsp 95 100 ])
           (sample_hsp 95 100) []).
  - reflexivity.
  - cbn. lia.
  - cbn. lia.
  - cbn. lia.
  - vm_compute. reflexivity.
Defined.

(** C5 as stated fails: with identities = align_length = 360287970189643
    the product [100. * identities] is rounded, and the quotient is the
    double after 100.0. *)
Lemma identity_perc_0_100_counterexample :
  tabulate_hsp_xml long_match 1 =
  ([ [ PStr "contig_1"; PStr "A/duck/1";
       PFloat (S754_finite false 7036874417766401 (-46));
       PFloat (S754_finite false 7036874417766401 (-46));
       PInt 360287970189643; PInt 360287970189643; PInt 1; PInt 100;
       PInt 1; PInt 100; PInt 360287970189643; PInt 360287970189643;
       PFloat float_1e_50 ] ], None) /\
  float_le (S754_finite false 7036874417766401 (-46)) float_100 = false /\
  float_repr (S754_finite false 7036874417766401 (-46)) = "100.00000000000001".
Proof. repeat split; vm_compute; reflexivity. Qed.

(** C6: the coverage of every yielded row is a float that is not below
    zero, whatever the signs of the lengths. *)
Theorem query_cov_not_negative (result : list Blast.t) (n : Z) :
  Forall (fun r =>
            exists x, nth_error r 2 = Some (PFloat x) /\
                      float_le float_zero x = true)
         (fst (tabulate_hsp_xml result n)).
Proof.
  eapply Forall_impl; [ | apply tabulate_hsp_xml_rows ].
  intros r (res & aln & _ & _ & Hr).
  apply tabulate_row_Ok in Hr as (hsp & rest & _ & -> & _ & Ha & _ & Hq & Hq0).
  eexists. split; [ reflexivity | ].
  pose proof (convertible_Ok _ Hq) as Hfq.
  eapply query_cov_nonneg.
  - apply convertible_Ok. exact Ha.
  - exact Hfq.
  - rewrite (int_to_float_is_zero _ _ Hfq). apply Z.eqb_neq. exact Hq0.
Qed.

(** * Failures *)

(** C7: when the run of the tabulator ends in an exception, whatever its
    kind, the rows yielded are the rows of a complete run over the records
    before the failing one, followed by the rows of the alignments taken
    before the failing one.  The report file holds the header line and the
    lines of the rows written before the failure, and nothing else: all the
    rows yielded, the report ending in the exception of the tabulator, when
    no row holds an int of more than 4300 digits; the rows before the first
    such row, the report ending in the [ValueError] of the writer, since
    the tabulator is then never resumed.  With plain names the lines split
    at the tabs into the texts of these rows. *)
Theorem rows_before_failure_kept (repr : float -> string) (fs : filesystem)
    (reportpath : string) (result : list Blast.t) (n : Z)
    (rows : list row) (e : exn) :
  tabulate_hsp_xml result n = (rows, Some e) ->
  (exists pre res post before aln after rs1 rs2,
     result = pre ++ res :: post /\
     taken res n = before ++ aln :: after /\
     tabulate_row res aln = Raise e /\
     tabulate_hsp_xml pre n = (rs1, None) /\
     tabulate_alignments res before = (rs2, None) /\
     rows = rs1 ++ rs2) /\
  exists (content : string) (written rest : list row)
         (texts : list (list string)),
    fst (blast_report repr fs reportpath result n) reportpath = Some content /\
    rows = written ++ rest /\
    Forall2 (Forall2 (fun v s => py_str repr v = Ok s)) written texts /\
    content =
      (csv_line [ "Query"; "Matching Strain"; "Query Coverage"; "Percent ID";
                  "Identities"; "Alignment Length"; "Query Start"; "Query End";
                  "Subject Start"; "Subject End"; "Query Length"; "Strain Length";
                  "e-value" ]
       ++ report_text texts)%string /\
    match rest with
    | [] => snd (blast_report repr fs reportpath result n) = Some e
    | r :: _ =>
        snd (blast_report repr fs reportpath result n) = Some ValueError /\
        exists z, In (PInt z) r /\ int_max_str_digits < int_digits z
    end /\
    (Forall (Forall (fun v => forall z, v = PInt z ->
                                        int_digits z <= int_max_str_digits)) rows ->
     rest = []) /\
    ((forall x, plain (repr x) = true) -> names_plain result n = true ->
     read_tsv content =
       [ "Query"; "Matching Strain"; "Query Coverage"; "Percent ID";
         "Identities"; "Alignment Length"; "Query Start"; "Query End";
         "Subject Start"; "Subject End"; "Query Length"; "Strain Length";
         "e-value" ]
       :: texts).
Proof.
  intros Hrun. split.
  - destruct (proj1 (tabulate_hsp_xml_Some result n rows e) Hrun)
      as (pre & res & post & before & aln & after & rs1 & rs2 &
          Hres & Htaken & Hpre & Hbefore & Hrow & Hrows).
    exists pre, res, post, before, aln, after, rs1, rs2.
    repeat split; assumption.
  - destruct (blast_report_spec repr fs reportpath result n)
      as (written & rest & texts & Hrows & Htexts & Hfile & Hend).
    rewrite Hrun in Hrows, Hend. cbn [fst snd] in Hrows, Hend.
    eexists. exists written, rest, texts.
    split; [ rewrite Hfile; apply fs_store_same | ].
    split; [ exact Hrows | ]. split; [ exact Htexts | ].
    split; [ reflexivity | ]. split; [ exact Hend | ].
    split.
    + intros Hsmall. destruct rest as [ | r rest ]; [ reflexivity | ].
      destruct Hend as (_ & z & Hin & Hz).
      rewrite Hrows in Hsmall. apply Forall_app in Hsmall as [_ Hsmall].
      inversion Hsmall as [ | r' rest' Hr _ ]; subst.
      rewrite Forall_forall in Hr. specialize (Hr (PInt z) Hin z eq_refl). lia.
    + intros Hrepr Hnames.
      apply (read_tsv_written repr written); [ | exact Htexts ].
      apply (Forall_app_l _ written rest). rewrite <- Hrows.
      replace rows with (fst (tabulate_hsp_xml result n)) by (rewrite Hrun; reflexivity).
      apply names_plain_rows; assumption.
Qed.

Lemma rows_before_failure_kept_witness :
  (exists pre res post before aln after rs1 rs2,
     zero_length = pre ++ res :: post /\
     taken res 10 = before ++ aln :: after /\
     tabulate_row res aln = Raise ZeroDivisionError /\
     tabulate_hsp_xml pre 10 = (rs1, None) /\
     tabulate_alignments res before = (rs2, None) /\
     fst (tabulate_hsp_xml zero_length 10) = rs1 ++ rs2) /\
  exists (content : string) (written rest : list row)
         (texts : list (list string)),
    fst (blast_report float_repr no_files "TopBLASTHits.txt" zero_length 10)
        "TopBLASTHits.txt" = Some content /\
    fst (tabulate_hsp_xml zero_length 10) = written ++ rest /\
    Forall2 (Forall2 (fun v s => py_str float_repr v = Ok s)) written texts /\
    content =
      (csv_line [ "Query"; "Matching Strain"; "Query Coverage"; "Percent ID";
                  "Identities"; "Alignment Length"; "Query Start"; "Query End";
                  "Subject Start"; "Subject End"; "Query Length"; "Strain Length";
                  "e-value" ]
       ++ report_text texts)%string /\
    match rest with
    | [] => snd (blast_report float_repr no_files "TopBLASTHits.txt" zero_length 10)
            = Some ZeroDivisionError
    | r :: _ =>
        snd (blast_report float_repr no_files "TopBLASTHits.txt" zero_length 10)
        = Some ValueError /\
        exists z, In (PInt z) r /\ int_max_str_digits < int_digits z
    end /\
    (Forall (Forall (fun v => forall z, v = PInt z ->
                                        int_digits z <= int_max_str_digits))
            (fst (tabulate_hsp_xml zero_length 10)) ->
     rest = []) /\
    ((forall x, plain (float_repr x) = true) -> names_plain zero_length 10 = true ->
     read_tsv content =
       [ "Query"; "Matching Strain"; "Query Coverage"; "Percent ID";
         "Identities"; "Alignment Length"; "Query Start"; "Query End";
         "Subject Start"; "Subject End"; "Query Length"; "Strain Length";
         "e-value" ]
       :: texts).
Proof.
  apply (rows_before_failure_kept float_repr no_files "TopBLASTHits.txt"
           zero_length 10 (fst (tabulate_hsp_xml zero_length 10)) ZeroDivisionError).
  vm_compute. reflexivity.
Defined.

(** A row that cannot be written comes before the record that makes the
    tabulator fail: the report holds the header and the row before it and
    ends in [ValueError]; the tabulator, run to its end, would have yielded
    four rows and ended in [ZeroDivisionError]. *)
Example long_coordinate_before_failure :
  List.length (fst (tabulate_hsp_xml (long_coordinate (10 ^ 4300) ++ zero_length) 10))
  = 4%nat
  /\ snd (tabulate_hsp_xml (long_coordinate (10 ^ 4300) ++ zero_length) 10)
     = Some ZeroDivisionError
  /\ option_map read_tsv
       (fst (blast_report float_repr no_files "TopBLASTHits.txt"
               (long_coordinate (10 ^ 4300) ++ zero_length) 10) "TopBLASTHits.txt")
     = Some [ [ "Query"; "Matching Strain"; "Query Coverage"; "Percent ID";
               "Identities"; "Alignment Length"; "Query Start"; "Query End";
               "Subject Start"; "Subject End"; "Query Length"; "Strain Length";
               "e-value" ];
              [ "contig_1"; "A/duck/1"; "100.0"; "95.0"; "95"; "100"; "1"; "100";
                "1"; "100"; "100"; "100"; "1e-50" ] ]
  /\ snd (blast_report float_repr no_files "TopBLASTHits.txt"
            (long_coordinate (10 ^ 4300) ++ zero_length) 10) = Some ValueError.
Proof.
  assert (Hrun : tabulate_hsp_xml (long_coordinate (10 ^ 4300) ++ zero_length) 10
                 = (fst (tabulate_hsp_xml (long_coordinate (10 ^ 4300)) 10)
                    ++ fst (tabulate_hsp_xml zero_length 10),
                    Some ZeroDivisionError)).
  { rewrite tabulate_hsp_xml_app, long_coordinate_rows. cbn [fst].
    destruct (tabulate_hsp_xml zero_length 10) as [rb o] eqn:E.
    vm_compute in E. injection E as <- <-. reflexivity. }
  rewrite (long_coordinate_report (10 ^ 4300) _ _ _ int_digits_limit Hrun).
  rewrite Hrun, long_coordinate_rows. cbn [fst snd]. rewrite fs_store_same.
  repeat match goal with |- _ /\ _ => split end;
    [ vm_compute; reflexivity | reflexivity | vm_compute; reflexivity | reflexivity ].
Qed.

(** The report left behind by the run that fails in its second record. *)
Example zero_length_report :
  option_map read_tsv
    (fst (blast_report float_repr no_files "TopBLASTHits.txt" zero_length 10)
         "TopBLASTHits.txt")
  = Some [ [ "Query"; "Matching Strain"; "Query Coverage"; "Percent ID";
             "Identities"; "Alignment Length"; "Query Start"; "Query End";
             "Subject Start"; "Subject End"; "Query Length"; "Strain Length";
             "e-value" ];
           [ "contig_1"; "A/duck/1"; "100.0"; "95.0"; "95"; "100"; "1"; "100";
             "1"; "100"; "100"; "100"; "1e-50" ];
           [ "contig_2"; "A/duck/2"; "90.0"; "97.77777777777777"; "88"; "90";
             "1"; "100"; "1"; "100"; "100"; "120"; "1e-50" ] ].
Proof. vm_compute. reflexivity. Qed.



(** * Determinism *)

(** C8: two loops over generators started on the same records with the
    same top_n see the same rows and the same ending. *)
Theorem tabulate_deterministic (result : list Blast.t) (n : Z)
    (rs1 rs2 : list row) (o1 o2 : option exn) :
  drains (gen_start result n) rs1 o1 ->
  drains (gen_start result n) rs2 o2 ->
  rs1 = rs2 /\ o1 = o2.
Proof.
  intros H1 H2.
  apply drains_trace in H1. apply drains_trace in H2.
  rewrite H1 in H2. injection H2 as <- <-. split; reflexivity.
Qed.

(** Such a loop always comes to an end, with the trace of
    [tabulate_hsp_xml]. *)
Lemma tabulate_drains (result : list Blast.t) (n : Z) :
  drains (gen_start result n)
         (fst (tabulate_hsp_xml result n)) (snd (tabulate_hsp_xml result n)).
Proof.
  apply trace_drains. rewrite gen_start_trace.
  destruct (tabulate_hsp_xml result n); reflexivity.
Qed.

Lemma tabulate_deterministic_witness :
  drains (gen_start three_matches 2)
         (fst (tabulate_hsp_xml three_matches 2)) (snd (tabulate_hsp_xml three_matches 2)) /\
  (fst (tabulate_hsp_xml three_matches 2) = fst (tabulate_hsp_xml three_matches 2) /\
   snd (tabulate_hsp_xml three_matches 2) = snd (tabulate_hsp_xml three_matches 2)).
Proof.
  split; [ apply tabulate_drains | ].
  apply (tabulate_deterministic three_matches 2); apply tabulate_drains.
Defined.

(** * Negative limits *)

(** C9 (as amended): for top_n = -m with m >= 1, on an input on which no
    row computation of a taken match raises, the tabulator ends normally and
    yields for a record with k matches max(k - m, 0) rows: those of all its
    matches but the last m (or but all k when k < m), in order. *)
Theorem tabulate_negative_top (result : list Blast.t) (m : Z) :
  1 <= m ->
  all_rows_ok result (- m) = true ->
  exists groups,
    tabulate_hsp_xml result (- m) = (List.concat groups, None) /\
    Forall2 (fun res g =>
               Z.of_nat (List.length g)
               = Z.max (Z.of_nat (List.length (Blast.alignments res)) - m) 0 /\
               exists first last,
                 Blast.alignments res = first ++ last /\
                 Z.of_nat (List.length last)
                 = Z.min m (Z.of_nat (List.length (Blast.alignments res))) /\
                 Forall2 (fun aln r => tabulate_row res aln = Ok r) first g)
            result groups.
Proof.
  intros Hm Hok.
  destruct (all_rows_ok_groups result (- m) Hok) as (groups & Ht & Hg).
  exists groups. split; [ exact Ht | ].
  eapply Forall2_impl; [ | exact Hg ].
  intros res g Hrg. unfold taken in Hrg.
  destruct (slice0_negative (Blast.alignments res) m Hm) as (Hl & last & Hsplit & Hlast).
  split.
  - rewrite <- Hl. f_equal. symmetry. eapply Forall2_length. exact Hrg.
  - exists (slice0 (Blast.alignments res) (- m)), last.
    repeat split; assumption.
Qed.

Lemma tabulate_negative_top_witness :
  1 <= 1 /\ all_rows_ok three_matches (- 1) = true /\
  exists groups,
    tabulate_hsp_xml three_matches (- 1) = (List.concat groups, None) /\
    Forall2 (fun res g =>
               Z.of_nat (List.length g)
               = Z.max (Z.of_nat (List.length (Blast.alignments res)) - 1) 0 /\
               exists first last,
                 Blast.alignments res = first ++ last /\
                 Z.of_nat (List.length last)
                 = Z.min 1 (Z.of_nat (List.length (Blast.alignments res))) /\
                 Forall2 (fun aln r => tabulate_row res aln = Ok r) first g)
            three_matches groups.
Proof.
  split; [ lia | ]. split; [ vm_compute; reflexivity | ].
  apply (tabulate_negative_top three_matches 1); [ lia | vm_compute; reflexivity ].
Defined.

(** C9 as stated fails: with top_n = -1 and two matches, the first of them
    with lengths that a double cannot hold, the run stops with
    [OverflowError] and yields nothing, though max(k - m, 0) = 1. *)
Lemma tabulate_negative_top_counterexample :
  tabulate_hsp_xml huge_lengths (- 1) = ([], Some OverflowError) /\
  map (fun res => Z.max (Z.of_nat (List.length (Blast.alignments res)) - 1) 0)
      huge_lengths = [1].
Proof. split; vm_compute; reflexivity. Qed.

(** With top_n = -1 the last of three matches is left out. *)
Example three_matches_all_but_last :
  tabulate_hsp_xml three_matches (- 1) = tabulate_hsp_xml three_matches 2 /\
  List.length (fst (tabulate_hsp_xml three_matches (- 1))) = 2%nat.
Proof. split; vm_compute; reflexivity. Qed.

(** * Further properties: edge cases, limits, the report decoded, names and paths *)

(** * Further properties of the tabulator *)

Lemma slice0_0 {A : Type} (l : list A) : slice0 l 0 = [].
Proof. destruct (slice0_nonneg l 0 ltac:(lia)) as [-> _]. reflexivity. Qed.

(** X1: with top_n = 0 no alignment is visited: the run yields nothing and ends
    normally on every input, also on records whose rows could not be
    computed, and the report is the header line alone. *)
Theorem top_0_header_only (repr : float -> string) (fs : filesystem)
    (reportpath : string) (result : list Blast.t) :
  tabulate_hsp_xml result 0 = ([], None) /\
  blast_report repr fs reportpath result 0 =
    (fs_store fs reportpath
       (csv_line [ "Query"; "Matching Strain"; "Query Coverage"; "Percent ID";
                   "Identities"; "Alignment Length"; "Query Start"; "Query End";
                   "Subject Start"; "Subject End"; "Query Length"; "Strain Length";
                   "e-value" ]),
     None).
Proof.
  assert (H : tabulate_hsp_xml result 0 = ([], None)).
  { induction result as [ | res result IH ]; [ reflexivity | ].
    rewrite tabulate_hsp_xml_cons. unfold taken. rewrite slice0_0.
    cbn [tabulate_alignments]. rewrite IH. reflexivity. }
  split; [ exact H | ].
  unfold blast_report. rewrite writerow_headers, H. reflexivity.
Qed.

(** X2: the run over two inputs one after the other: the rows of the first,
    then, only if the first ended normally, those of the second. *)
Theorem tabulate_concatenated (a b : list Blast.t) (n : Z) :
  tabulate_hsp_xml (a ++ b) n =
  match snd (tabulate_hsp_xml a n) with
  | Some e => (fst (tabulate_hsp_xml a n), Some e)
  | None => (fst (tabulate_hsp_xml a n) ++ fst (tabulate_hsp_xml b n),
             snd (tabulate_hsp_xml b n))
  end.
Proof.
  rewrite tabulate_hsp_xml_app.
  destruct (tabulate_hsp_xml a n) as [ra [ e | ]]; cbn [fst snd]; [ reflexivity | ].
  destruct (tabulate_hsp_xml b n) as [rb o]. reflexivity.
Qed.

(** X3: records without alignments leave no mark: dropping them from the input
    changes neither the rows nor the ending. *)
Theorem empty_records_skipped (result : list Blast.t) (n : Z) :
  tabulate_hsp_xml
    (filter (fun res => match Blast.alignments res with [] => false | _ => true end)
            result) n
  = tabulate_hsp_xml result n.
Proof.
  induction result as [ | res result IH ]; [ reflexivity | ].
  cbn [filter]. destruct (Blast.alignments res) as [ | aln alns ] eqn:Ea.
  - rewrite IH, (tabulate_hsp_xml_cons res). unfold taken, slice0. rewrite Ea.
    rewrite firstn_nil. cbn [tabulate_alignments].
    destruct (tabulate_hsp_xml result n) as [rs o]. reflexivity.
  - rewrite !tabulate_hsp_xml_cons, IH. reflexivity.
Qed.

Lemma slice0_all {A : Type} (l : list A) (n : Z) :
  Z.of_nat (List.length l) <= n -> slice0 l n = l.
Proof.
  intros Hn. destruct (slice0_nonneg l n ltac:(lia)) as [-> _].
  apply firstn_all2. lia.
Qed.

(** X4: a limit that no record reaches is no limit: every alignment is visited,
    and any two such limits give the same run. *)
Theorem large_top_n_irrelevant (result : list Blast.t) (n n' : Z) :
  Forall (fun res => Z.of_nat (List.length (Blast.alignments res)) <= n) result ->
  n <= n' ->
  Forall (fun res => taken res n = Blast.alignments res) result /\
  tabulate_hsp_xml result n' = tabulate_hsp_xml result n.
Proof.
  intros Hall Hn. split.
  - eapply Forall_impl; [ | exact Hall ]. intros res Hres. apply slice0_all. exact Hres.
  - induction Hall as [ | res result Hres _ IH ]; [ reflexivity | ].
    rewrite !tabulate_hsp_xml_cons. unfold taken.
    rewrite !slice0_all by lia. rewrite IH. reflexivity.
Qed.

Lemma slice0_slice0 {A : Type} (l : list A) (n n' : Z) :
  0 <= n <= n' -> slice0 l n = firstn (Z.to_nat n) (slice0 l n').
Proof.
  intros Hn.
  destruct (slice0_nonneg l n ltac:(lia)) as [-> _].
  destruct (slice0_nonneg l n' ltac:(lia)) as [-> _].
  rewrite firstn_firstn. f_equal. lia.
Qed.

Lemma Forall2_firstn {A B : Type} (P : A -> B -> Prop) (k : nat) :
  forall (l : list A) (l' : list B),
    Forall2 P l l' -> Forall2 P (firstn k l) (firstn k l').
Proof.
  induction k as [ | k IH ]; intros l l' H; [ constructor | ].
  destruct H as [ | x y l l' Hxy H ]; cbn [firstn]; constructor;
    [ assumption | apply IH; assumption ].
Qed.

(** X5: lowering the limit never makes a run fail: if the run with limit n'
    ends normally, so does the run with any limit 0 <= n <= n', and its rows
    are those of the larger run with each record's rows cut to the first
    n. *)
Theorem lower_top_n_truncates (result : list Blast.t) (n n' : Z) :
  0 <= n <= n' ->
  snd (tabulate_hsp_xml result n') = None ->
  exists groups,
    Forall2 (fun res g =>
               Forall2 (fun aln r => tabulate_row res aln = Ok r) (taken res n') g)
            result groups /\
    tabulate_hsp_xml result n' = (List.concat groups, None) /\
    tabulate_hsp_xml result n =
      (List.concat (map (firstn (Z.to_nat n)) groups), None).
Proof.
  intros Hn Hend.
  destruct (tabulate_hsp_xml result n') as [rows o] eqn:Hrun. cbn [snd] in Hend.
  subst o.
  destruct (proj1 (tabulate_hsp_xml_None result n' rows) Hrun) as (groups & -> & Hg).
  exists groups. split; [ exact Hg | ]. split; [ reflexivity | ].
  apply tabulate_hsp_xml_None.
  exists (map (firstn (Z.to_nat n)) groups). split; [ reflexivity | ].
  clear Hrun. induction Hg as [ | res g result groups Hrg _ IH ]; cbn [map].
  - constructor.
  - constructor; [ | exact IH ].
    unfold taken in *. rewrite (slice0_slice0 _ n n' Hn).
    apply Forall2_firstn. exact Hrg.
Qed.

Lemma lower_top_n_truncates_witness :
  0 <= 1 <= 2 /\ snd (tabulate_hsp_xml three_matches 2) = None /\
  exists groups,
    Forall2 (fun res g =>
               Forall2 (fun aln r => tabulate_row res aln = Ok r) (taken res 2) g)
            three_matches groups /\
    tabulate_hsp_xml three_matches 2 = (List.concat groups, None) /\
    tabulate_hsp_xml three_matches 1 =
      (List.concat (map (firstn (Z.to_nat 1)) groups), None).
Proof.
  split; [ lia | ]. split; [ vm_compute; reflexivity | ].
  apply (lower_top_n_truncates three_matches 1 2); [ lia | vm_compute; reflexivity ].
Defined.

Lemma large_top_n_irrelevant_witness :
  Forall (fun res => Z.of_nat (List.length (Blast.alignments res)) <= 3) three_matches /\
  3 <= 10 /\
  Forall (fun res => taken res 3 = Blast.alignments res) three_matches /\
  tabulate_hsp_xml three_matches 10 = tabulate_hsp_xml three_matches 3.
Proof.
  assert (H : Forall (fun res => Z.of_nat (List.length (Blast.alignments res)) <= 3)
                     three_matches).
  { repeat constructor; cbn; lia. }
  split; [ exact H | ]. split; [ lia | ].
  apply (large_top_n_irrelevant three_matches 3 10 H). lia.
Defined.

(** X6: whether it ends normally or not, a run with limit n >= 0 yields its
    rows record by record, for a leading part of the records; the rows of a
    record are the rows of its first alignments, one for one and in order,
    and never more than min(k, n) of them for a record with k
    alignments. *)
Theorem never_more_than_top_n (result : list Blast.t) (n : Z) :
  0 <= n ->
  exists groups,
    fst (tabulate_hsp_xml result n) = List.concat groups /\
    Forall2 (fun res g =>
               Forall2 (fun aln r => tabulate_row res aln = Ok r)
                       (firstn (List.length g) (Blast.alignments res)) g /\
               Z.of_nat (List.length g)
               <= Z.min (Z.of_nat (List.length (Blast.alignments res))) n)
            (firstn (List.length groups) result) groups.
Proof.
  intros Hn. induction result as [ | res result IH ].
  - exists []. split; [ reflexivity | constructor ].
  - rewrite tabulate_hsp_xml_cons.
    assert (Hg : Forall2 (fun aln r => tabulate_row res aln = Ok r)
                   (firstn (List.length (fst (tabulate_alignments res (taken res n))))
                           (Blast.alignments res))
                   (fst (tabulate_alignments res (taken res n))) /\
                 Z.of_nat (List.length (fst (tabulate_alignments res (taken res n))))
                 <= Z.min (Z.of_nat (List.length (Blast.alignments res))) n).
    { destruct (tabulate_alignments_pairs res (taken res n)) as (k & Hk & Hrows & _).
      pose proof (Forall2_length Hrows) as Hlen.
      rewrite length_firstn in Hlen.
      destruct (slice0_nonneg (Blast.alignments res) n Hn) as [Hs Hl].
      fold (taken res n) in Hs, Hl.
      assert (Hkl : List.length (fst (tabulate_alignments res (taken res n))) = k)
        by lia.
      rewrite Hkl. split; [ | lia ].
      assert (Hf : firstn k (taken res n) = firstn k (Blast.alignments res)).
      { rewrite Hs, firstn_firstn. f_equal. lia. }
      rewrite <- Hf. exact Hrows. }
    destruct (tabulate_alignments res (taken res n)) as [rs [ e | ]] eqn:Ea;
      cbn [fst] in Hg.
    + exists [rs]. cbn [fst List.concat List.length firstn]. rewrite app_nil_r.
      split; [ reflexivity | ]. constructor; [ exact Hg | constructor ].
    + destruct IH as (groups & Hrows & Hgroups).
      destruct (tabulate_hsp_xml result n) as [rs' o]. cbn [fst] in *.
      exists (rs :: groups). cbn [List.concat List.length firstn].
      split; [ rewrite Hrows; reflexivity | ].
      constructor; [ exact Hg | exact Hgroups ].
Qed.

Lemma never_more_than_top_n_witness :
  0 <= 10 /\
  exists groups,
    fst (tabulate_hsp_xml zero_length 10) = List.concat groups /\
    Forall2 (fun res g =>
               Forall2 (fun aln r => tabulate_row res aln = Ok r)
                       (firstn (List.length g) (Blast.alignments res)) g /\
               Z.of_nat (List.length g)
               <= Z.min (Z.of_nat (List.length (Blast.alignments res))) 10)
            (firstn (List.length groups) zero_length) groups.
Proof.
  split; [ lia | ]. apply (never_more_than_top_n zero_length 10). lia.
Defined.

(** X7: a [for] loop over the generator comes to an end on every input, and
    what it sees, rows and ending, is the trace of [tabulate_hsp_xml]. *)
Theorem for_loop_sees_trace (result : list Blast.t) (n : Z)
    (rs : list row) (o : option exn) :
  drains (gen_start result n) rs o <-> tabulate_hsp_xml result n = (rs, o).
Proof.
  split.
  - intros H. apply drains_trace in H. exact H.
  - intros H. apply trace_drains. exact H.
Qed.


(** * Further properties of the percentages *)

Lemma signed_false_nonneg (x : float) :
  signed_as false x -> float_le float_zero x = true.
Proof. intros [ | | m e ]; reflexivity. Qed.

Lemma signed_true_nonpos (x : float) :
  signed_as true x -> float_le x float_zero = true.
Proof. intros [ | | m e ]; reflexivity. Qed.

(** The quotient [100. * i / a] of two ints that convert, [a] not zero, is
    never a NaN; it is a zero when [i] is 0 and else carries the sign of
    [i] times the sign of [a]. *)
Lemma quotient_signed (i a : Z) (yi ya : float) :
  int_to_float i = Ok yi -> int_to_float a = Ok ya -> a <> 0 ->
  (i = 0 /\ exists s, SFdiv prec emax (SFmul prec emax float_100 yi) ya = S754_zero s) \/
  (i <> 0 /\
   signed_as (xorb (i <? 0) (a <? 0)) (SFdiv prec emax (SFmul prec emax float_100 yi) ya)).
Proof.
  intros Hi Ha Ha0.
  destruct (int_to_float_Ok a ya Ha) as [ [Hz _] | [_ (ma & ea & ->)] ];
    [ contradiction | ].
  destruct (int_to_float_Ok i yi Hi) as [ [-> ->] | [Hi0 (mi & ei & ->)] ].
  - left. split; [ reflexivity | ]. eexists. reflexivity.
  - right. split; [ exact Hi0 | ].
    apply SFdiv_signed. apply SFmul_100_signed.
Qed.

(** X8: the identity of a row is never a NaN and has the sign of
    identities * align_length: it is not below zero when the two ints have
    the same sign and not above zero when they have opposite signs, whatever
    their size. *)
Theorem identity_perc_sign (res : Blast.t) (aln : Alignment.t)
    (hsp : HSP.t) (rest : list HSP.t) (r : row) :
  Alignment.hsps aln = hsp :: rest ->
  tabulate_row res aln = Ok r ->
  exists x,
    nth_error r 3 = Some (PFloat x) /\ x <> S754_nan /\
    (0 <= HSP.identities hsp * HSP.align_length hsp -> float_le float_zero x = true) /\
    (HSP.identities hsp * HSP.align_length hsp <= 0 -> float_le x float_zero = true).
Proof.
  intros Hh Hr.
  apply tabulate_row_Ok in Hr as (hsp' & rest' & Hh' & -> & Hi & Ha & Ha0 & _).
  rewrite Hh in Hh'. injection Hh' as <- <-.
  exists (SFdiv prec emax
            (SFmul prec emax float_100 (nearest_double (HSP.identities hsp)))
            (nearest_double (HSP.align_length hsp))).
  split; [ reflexivity | ].
  destruct (quotient_signed _ _ _ _ (convertible_Ok _ Hi) (convertible_Ok _ Ha) Ha0)
    as [ [Hi0 [s Hs]] | [Hi0 Hsign] ].
  - rewrite Hs. repeat split; try discriminate; intros _; reflexivity.
  - repeat split.
    + intros Hx. rewrite Hx in Hsign. inversion Hsign.
    + intros Hprod.
      replace (xorb (HSP.identities hsp <? 0) (HSP.align_length hsp <? 0))
        with false in Hsign.
      * apply signed_false_nonneg. exact Hsign.
      * destruct (Z.ltb_spec (HSP.identities hsp) 0),
                 (Z.ltb_spec (HSP.align_length hsp) 0); try reflexivity; nia.
    + intros Hprod.
      replace (xorb (HSP.identities hsp <? 0) (HSP.align_length hsp <? 0))
        with true in Hsign.
      * apply signed_true_nonpos. exact Hsign.
      * destruct (Z.ltb_spec (HSP.identities hsp) 0),
                 (Z.ltb_spec (HSP.align_length hsp) 0); try reflexivity; nia.
Qed.

Lemma identity_perc_sign_witness :
  exists x,
    nth_error [ PStr "contig_1"; PStr "A/duck/1";
                PFloat float_100; PFloat (S754_finite false 6685030696878080 (-46));
                PInt 95; PInt 100; PInt 1; PInt 100; PInt 1; PInt 100; PInt 100;
                PInt 100; PFloat float_1e_50 ] 3 = Some (PFloat x) /\
    x <> S754_nan /\
    (0 <= 95 * 100 -> float_le float_zero x = true) /\
    (95 * 100 <= 0 -> float_le x float_zero = true).
Proof.
  apply (identity_perc_sign
           (Blast.mk "contig_1" 100 [])
           (Alignment.mk "A/duck/1" 100 [ sample_hsp 95 100 ])
           (sample_hsp 95 100) []).
  - reflexivity.
  - vm_compute. reflexivity.
Defined.

Lemma float_abs_in_range (x : float) :
  float_le float_zero x = true -> float_le x float_100 = true ->
  float_le float_zero (float_abs x) = true /\
  float_le (float_abs x) float_100 = true /\
  (x = float_100 -> float_abs x = float_100).
Proof.
  destruct x as [ s | s | | s m e ]; try discriminate.
  - intros _ _. repeat split. discriminate.
  - destruct s; discriminate.
  - destruct s; [ discriminate | ]. intros _ H. repeat split.
    + exact H.
    + intros Hx. exact Hx.
Qed.

(** X9: the coverage of an alignment no longer than its query, with
    25 * query_length below 2^53, is between 0.0 and 100.0, and it is 100.0
    when the alignment spans the query. *)
Theorem query_cov_at_most_100 (res : Blast.t) (aln : Alignment.t)
    (hsp : HSP.t) (rest : list HSP.t) (r : row) :
  Alignment.hsps aln = hsp :: rest ->
  1 <= HSP.align_length hsp <= Blast.query_length res ->
  25 * Blast.query_length res < 2 ^ 53 ->
  tabulate_row res aln = Ok r ->
  exists x,
    nth_error r 2 = Some (PFloat x) /\
    float_le float_zero x = true /\ float_le x float_100 = true /\
    (HSP.align_length hsp = Blast.query_length res -> x = float_100).
Proof.
  intros Hh Ha H25 Hr.
  apply tabulate_row_Ok in Hr as (hsp' & rest' & Hh' & -> & _).
  rewrite Hh in Hh'. injection Hh' as <- <-.
  exists (float_abs
            (SFdiv prec emax
               (SFmul prec emax float_100 (nearest_double (HSP.align_length hsp)))
               (nearest_double (Blast.query_length res)))).
  split; [ reflexivity | ].
  destruct (identity_perc_bounds (HSP.align_length hsp) (Blast.query_length res))
    as (H0 & H100 & Heq); try lia.
  destruct (float_abs_in_range _ H0 H100) as (A0 & A100 & Aeq).
  repeat split; try assumption.
  intros Hlen. apply Aeq, Heq. exact Hlen.
Qed.

Lemma query_cov_at_most_100_witness :
  exists x,
    nth_error [ PStr "contig_1"; PStr "A/duck/2";
                PFloat (S754_finite false 6333186975989760 (-46));
                PFloat (S754_finite false 6880499430704924 (-46));
                PInt 88; PInt 90; PInt 1; PInt 100; PInt 1; PInt 100; PInt 100;
                PInt 120; PFloat float_1e_50 ] 2 = Some (PFloat x) /\
    float_le float_zero x = true /\ float_le x float_100 = true /\
    (90 = 100 -> x = float_100).
Proof.
  apply (query_cov_at_most_100
           (Blast.mk "contig_1" 100 [])
           (Alignment.mk "A/duck/2" 120 [ sample_hsp 88 90 ])
           (sample_hsp 88 90) []).
  - reflexivity.
  - cbn. lia.
  - cbn. lia.
  - vm_compute. reflexivity.
Defined.


(** A percentage that is a whole number is computed exactly. *)
Lemma quotient_whole (i a c : Z) :
  0 < i <= a -> 25 * a < 2 ^ 53 -> 100 * i = c * a ->
  SFdiv prec emax (SFmul prec emax float_100 (nearest_double i)) (nearest_double a)
  = nearest_double c.
Proof.
  intros Hi H25 Hc.
  assert (Ha53 : 0 < a < 2 ^ 53) by lia.
  assert (Hi53 : 0 < i < 2 ^ 53) by lia.
  assert (Hc100 : 0 < c <= 100) by nia.
  assert (Hc53 : 0 < c < 2 ^ 53) by lia.
  destruct (nearest_double_small a Ha53) as (qa & Eqa & Hqa).
  destruct (normal_mantissa a Ha53) as [HdA HmA]. rewrite <- Hqa in HmA.
  pose proof (mul_100_exact _ i (proj1 Hi53) ltac:(lia) (nearest_double_small i Hi53))
    as (Q & EQ & HQ).
  assert (H25i : 0 < 25 * i < 2 ^ 53) by lia.
  destruct (normal_mantissa (25 * i) H25i) as [HdP HmP]. rewrite <- HQ in HmP.
  destruct (nearest_double_small c Hc53) as (qc & Eqc & Hqc).
  destruct (normal_mantissa c Hc53) as [HdC HmC]. rewrite <- Hqc in HmC.
  pose proof (Zdigits2_bounds (25 * i) (proj1 H25i)) as HbP.
  pose proof (Zdigits2_bounds a (proj1 Ha53)) as HbA.
  pose proof (Zdigits2_bounds c (proj1 Hc53)) as HbC.
  pose proof (Zdigits2_pos a (proj1 Ha53)) as HdA0.
  pose proof (Zdigits2_pos (25 * i) (proj1 H25i)) as HdP0.
  pose proof (Zdigits2_pos c (proj1 Hc53)) as HdC0.
  set (dP := Zdigits2 (25 * i)) in *. set (dA := Zdigits2 a) in *.
  set (dC := Zdigits2 c) in *.
  assert (Hd : dP <= dA + 5).
  { destruct (Z_le_gt_dec dP (dA + 5)) as [ | Hgt ]; [ assumption | exfalso ].
    assert (2 ^ (dA + 5) <= 2 ^ (dP - 1)) by (apply Z.pow_le_mono_r; lia).
    rewrite pow2_split in H by lia. change (2 ^ 5) with 32 in H. lia. }
  rewrite EQ, Eqa, Eqc.
  rewrite SFdiv_normal by (try assumption; lia).
  set (e := 2 + dP - 53 - (0 + dA - 53) - 53).
  set (u := 53 - dP) in *. set (v := 53 - dA) in *.
  assert (He : - e = (u + 51) - v) by (subst e u v; lia).
  assert (Hpv : 0 < 2 ^ v) by (apply Z.pow_pos_nonneg; subst v; lia).
  assert (Hpe : 0 < 2 ^ (- e)) by (apply Z.pow_pos_nonneg; subst u v; lia).
  (* the quotient of the mantissas is [c * 2^(-e)], without remainder *)
  assert (Hex : Zpos Q * 2 ^ 53 = c * 2 ^ (- e) * Zpos qa).
  { rewrite HQ, Hqa, He.
    replace (c * 2 ^ (u + 51 - v) * (a * 2 ^ v))
      with (c * a * (2 ^ (u + 51 - v) * 2 ^ v)) by ring.
    rewrite <- pow2_split by (subst u v; lia).
    replace (u + 51 - v + v) with (u + 51) by lia.
    rewrite <- Hc, (pow2_split u 51) by (subst u; lia).
    change (2 ^ 53) with (4 * 2 ^ 51). ring. }
  rewrite Hex, Z.div_mul, Z.mod_mul, new_location_exact by lia.
  (* which is the mantissa of [c] shifted *)
  assert (Hq52 : 2 ^ 52 <= c * 2 ^ (- e)).
  { assert (H1 : 2 ^ 52 * Zpos qa <= Zpos Q * 2 ^ 53).
    { change (2 ^ 53) with (2 ^ 52 * 2) in *. nia. }
    rewrite Hex in H1. nia. }
  assert (Hn : 53 - dC <= - e).
  { destruct (Z_le_gt_dec (53 - dC) (- e)) as [ | Hgt ]; [ assumption | exfalso ].
    assert (H1 : 2 ^ (- e) <= 2 ^ (52 - dC)) by (apply Z.pow_le_mono_r; subst u v; lia).
    assert (H2 : 2 ^ 52 = 2 ^ dC * 2 ^ (52 - dC)).
    { rewrite <- pow2_split by lia. f_equal. lia. }
    assert (0 < 2 ^ (52 - dC)) by (apply Z.pow_pos_nonneg; lia).
    nia. }
  replace (c * 2 ^ (- e)) with (Zpos qc * 2 ^ (- e - (53 - dC))).
  - rewrite binary_round_aux_exact by (try assumption; lia).
    f_equal. lia.
  - rewrite Hqc, <- Z.mul_assoc, <- pow2_split by lia. f_equal. f_equal. lia.
Qed.

(** X10: when align_length divides 100 * identities, with
    0 <= identities <= align_length and 25 * align_length below 2^53, the
    identity of the row is exactly the float of the whole percentage. *)
Theorem identity_perc_whole (res : Blast.t) (aln : Alignment.t)
    (hsp : HSP.t) (rest : list HSP.t) (r : row) (c : Z) :
  Alignment.hsps aln = hsp :: rest ->
  0 <= HSP.identities hsp <= HSP.align_length hsp ->
  1 <= HSP.align_length hsp ->
  25 * HSP.align_length hsp < 2 ^ 53 ->
  100 * HSP.identities hsp = c * HSP.align_length hsp ->
  tabulate_row res aln = Ok r ->
  nth_error r 3 = Some (PFloat (nearest_double c)).
Proof.
  intros Hh Hi Ha H25 Hc Hr.
  apply tabulate_row_Ok in Hr as (hsp' & rest' & Hh' & -> & _).
  rewrite Hh in Hh'. injection Hh' as <- <-.
  cbn [row_values nth_error]. f_equal. f_equal.
  destruct (Z.eq_dec (HSP.identities hsp) 0) as [ Hi0 | Hi0 ].
  - assert (c = 0) by nia. subst c. rewrite Hi0.
    destruct (nearest_double_small (HSP.align_length hsp) ltac:(lia)) as (qa & -> & _).
    reflexivity.
  - apply quotient_whole; lia.
Qed.

Lemma identity_perc_whole_witness :
  nth_error [ PStr "contig_1"; PStr "A/duck/1";
              PFloat float_100; PFloat (S754_finite false 6685030696878080 (-46));
              PInt 95; PInt 100; PInt 1; PInt 100; PInt 1; PInt 100; PInt 100;
              PInt 100; PFloat float_1e_50 ] 3 = Some (PFloat (nearest_double 95)).
Proof.
  apply (identity_perc_whole
           (Blast.mk "contig_1" 100 [])
           (Alignment.mk "A/duck/1" 100 [ sample_hsp 95 100 ])
           (sample_hsp 95 100) []).
  - reflexivity.
  - cbn. lia.
  - cbn. lia.
  - cbn. lia.
  - cbn. lia.
  - vm_compute. reflexivity.
Defined.


(** * The range of the conversion to float *)

(** X11: a row raises OverflowError exactly when one of the three ints
    that are converted to a float has reached the limit; the query length is
    only converted when the alignment length is not zero. *)
Theorem row_overflow_iff (res : Blast.t) (aln : Alignment.t)
    (hsp : HSP.t) (rest : list HSP.t) :
  Alignment.hsps aln = hsp :: rest ->
  tabulate_row res aln = Raise OverflowError <->
  float_limit <= Z.abs (HSP.identities hsp)
  \/ float_limit <= Z.abs (HSP.align_length hsp)
  \/ (HSP.align_length hsp <> 0
      /\ float_limit <= Z.abs (Blast.query_length res)).
Proof.
  intros Hh. rewrite tabulate_row_eq, Hh.
  rewrite <- !not_convertible_limit.
  destruct (convertible (HSP.identities hsp));
    [ | split; [ intros _; left; reflexivity | reflexivity ] ].
  destruct (convertible (HSP.align_length hsp));
    [ | split; [ intros _; right; left; reflexivity | reflexivity ] ].
  cbn [negb].
  destruct (Z.eqb_spec (HSP.align_length hsp) 0) as [ Ha | Ha ].
  - split; [ discriminate | ].
    intros [ H | [ H | [H _] ] ]; [ discriminate H | discriminate H | contradiction ].
  - destruct (convertible (Blast.query_length res)).
    + cbn [negb]. split.
      * destruct (Blast.query_length res =? 0); discriminate.
      * intros [ H | [ H | [_ H] ] ]; discriminate H.
    + cbn [negb]. split; [ intros _; right; right; split; [ exact Ha | reflexivity ] | reflexivity ].
Qed.

Lemma row_overflow_iff_witness :
  tabulate_row (Blast.mk "contig_1" (2 ^ 1024) []) (Alignment.mk "A/duck/1" 120 [ sample_hsp 88 90 ])
  = Raise OverflowError <->
  float_limit <= Z.abs (HSP.identities (sample_hsp 88 90))
  \/ float_limit <= Z.abs (HSP.align_length (sample_hsp 88 90))
  \/ (HSP.align_length (sample_hsp 88 90) <> 0
      /\ float_limit <= Z.abs (Blast.query_length (Blast.mk "contig_1" (2 ^ 1024) []))).
Proof.
  apply (row_overflow_iff (Blast.mk "contig_1" (2 ^ 1024) [])
           (Alignment.mk "A/duck/1" 120 [ sample_hsp 88 90 ]) (sample_hsp 88 90) []).
  reflexivity.
Defined.

(** X12: a row is produced exactly when the alignment has an HSP, the
    two divisors are not zero and the three converted ints are below the
    limit. *)
Theorem row_produced_iff (res : Blast.t) (aln : Alignment.t) :
  (exists r, tabulate_row res aln = Ok r) <->
  exists hsp rest,
    Alignment.hsps aln = hsp :: rest
    /\ Z.abs (HSP.identities hsp) < float_limit
    /\ 0 < Z.abs (HSP.align_length hsp) < float_limit
    /\ 0 < Z.abs (Blast.query_length res) < float_limit.
Proof.
  rewrite <- row_ok_iff. unfold row_ok.
  destruct (Alignment.hsps aln) as [ | hsp rest ].
  - split; [ discriminate | intros (h & t & H & _); discriminate H ].
  - split.
    + intros H. exists hsp, rest. split; [ reflexivity | ].
      rewrite <- !convertible_limit.
      destruct (convertible (HSP.identities hsp)); [ | discriminate H ].
      destruct (convertible (HSP.align_length hsp)); [ | discriminate H ].
      destruct (Z.eqb_spec (HSP.align_length hsp) 0); [ discriminate H | ].
      destruct (convertible (Blast.query_length res)); [ | discriminate H ].
      destruct (Z.eqb_spec (Blast.query_length res) 0); [ discriminate H | ].
      repeat split; lia.
    + intros (h & t & [= <- <-] & Hi & [Ha0 Ha] & [Hq0 Hq]).
      apply convertible_limit in Hi, Ha, Hq. rewrite Hi, Ha, Hq.
      destruct (Z.eqb_spec (HSP.align_length hsp) 0); [ lia | ].
      destruct (Z.eqb_spec (Blast.query_length res) 0); [ lia | ].
      reflexivity.
Qed.


(** * Decoding a report *)

Lemma reader_run_app (st : reader) (a b : string) :
  reader_run st (a ++ b) = reader_run (reader_run st a) b.
Proof.
  revert st. induction a as [ | c a IH ]; intros st; cbn [append reader_run].
  - reflexivity.
  - apply IH.
Qed.

(** Inside quotes the doubled quotes of the writer are read as single
    ones. *)
Lemma reader_run_quoted (s : string) :
  forall recs flds f,
    reader_run (mk_reader recs flds f Quoted) (double_quotes s)
    = mk_reader recs flds (f ++ s) Quoted.
Proof.
  induction s as [ | c s IH ]; intros recs flds f; cbn [double_quotes].
  - rewrite string_app_nil_r. reflexivity.
  - destruct (Ascii.eqb c quotechar) eqn:Ec; cbn [reader_run].
    + unfold reader_step at 2. cbn [rd_mode]. rewrite Ec.
      unfold rd_set_mode, reader_step. cbn [rd_mode rd_records rd_fields rd_field].
      unfold rd_outside. apply Ascii.eqb_eq in Ec. subst c.
      cbn [Ascii.eqb Bool.eqb quotechar delimiter andb].
      unfold rd_push. cbn [rd_records rd_fields rd_field].
      rewrite IH, string_app_assoc. reflexivity.
    + unfold reader_step. cbn [rd_mode]. rewrite Ec.
      unfold rd_push. cbn [rd_records rd_fields rd_field].
      rewrite IH, string_app_assoc. reflexivity.
Qed.

Lemma special_false (c : ascii) :
  special c = false ->
  Ascii.eqb c delimiter = false /\ Ascii.eqb c "013" = false /\
  Ascii.eqb c "010" = false /\ Ascii.eqb c quotechar = false.
Proof.
  unfold special, lineterminator. cbn [mem_char].
  intros H. apply orb_false_elim in H as [H Hl].
  apply orb_false_elim in H as [Hd Hq].
  apply orb_false_elim in Hl as [Hcr Hl].
  apply orb_false_elim in Hl as [Hlf _].
  repeat split; assumption.
Qed.

(** Outside quotes a run of plain characters is added to the field. *)
Lemma reader_run_unquoted (s : string) :
  plain s = true ->
  forall recs flds f,
    reader_run (mk_reader recs flds f Unquoted) s
    = mk_reader recs flds (f ++ s) Unquoted.
Proof.
  induction s as [ | c s IH ]; intros Hs recs flds f.
  - rewrite string_app_nil_r. reflexivity.
  - rewrite plain_String in Hs. apply andb_prop in Hs as [Hc Hs].
    apply negb_true_iff in Hc. apply special_false in Hc as (Hd & Hcr & Hlf & Hq).
    cbn [reader_run]. unfold reader_step. cbn [rd_mode].
    unfold rd_outside. rewrite Hd, Hcr, Hlf, Hq.
    unfold rd_push. cbn [rd_records rd_fields rd_field].
    rewrite (IH Hs), string_app_assoc. reflexivity.
Qed.

(** A field as written, met at the start of a field, is read back into the
    field buffer; the mode tells whether quotes were met. *)
Lemma reader_run_field (s : string) (recs : list (list string))
    (flds : list string) (mode : reader_mode) :
  mode = RecordStart \/ mode = FieldStart ->
  reader_run (mk_reader recs flds EmptyString mode) (csv_field s)
  = mk_reader recs flds s
      (if needs_quote s then QuoteSeen
       else match s with EmptyString => mode | _ => Unquoted end).
Proof.
  intros Hmode. unfold csv_field. destruct (needs_quote s) eqn:Hq.
  - (* quote, doubled content, quote *)
    cbn [reader_run].
    assert (H1 : reader_step (mk_reader recs flds EmptyString mode) quotechar
                 = mk_reader recs flds EmptyString Quoted).
    { destruct Hmode as [ -> | -> ]; reflexivity. }
    rewrite H1, reader_run_app, reader_run_quoted. reflexivity.
  - destruct s as [ | c s ]; [ reflexivity | ].
    cbn [needs_quote] in Hq. apply orb_false_elim in Hq as [Hc Hs].
    pose proof (special_false c Hc) as (Hd & Hcr & Hlf & Hqc).
    cbn [reader_run].
    assert (H1 : reader_step (mk_reader recs flds EmptyString mode) c
                 = mk_reader recs flds (String c EmptyString) Unquoted).
    { destruct Hmode as [ -> | -> ]; unfold reader_step; cbn [rd_mode];
        unfold rd_outside; rewrite Hd, Hcr, Hlf, Hqc; reflexivity. }
    rewrite H1, reader_run_unquoted by (unfold plain; rewrite Hs; reflexivity).
    reflexivity.
Qed.

(** The fields after the first, up to the end of the line. *)
Lemma reader_run_fields (fields : list string) :
  forall (recs : list (list string)) (flds : list string) (f : string),
    reader_run (mk_reader recs flds EmptyString FieldStart)
               (join delimiter (map csv_field (f :: fields)) ++ lineterminator)
    = mk_reader (recs ++ [flds ++ f :: fields]) [] EmptyString RecordStart.
Proof.
  induction fields as [ | g fields IH ]; intros recs flds f.
  - cbn [map join]. rewrite reader_run_app, reader_run_field by (right; reflexivity).
    destruct (needs_quote f); [ reflexivity | ].
    destruct f; reflexivity.
  - change (join delimiter (map csv_field (f :: g :: fields)))
      with (csv_field f ++ String delimiter (join delimiter (map csv_field (g :: fields))))%string.
    rewrite string_app_assoc, reader_run_app.
    rewrite reader_run_field by (right; reflexivity).
    cbn [append reader_run].
    assert (H1 : reader_step
                   (mk_reader recs flds f
                      (if needs_quote f then QuoteSeen
                       else match f with EmptyString => FieldStart | _ => Unquoted end))
                   delimiter
                 = mk_reader recs (flds ++ [f]) EmptyString FieldStart).
    { destruct (needs_quote f); [ reflexivity | ]. destruct f; reflexivity. }
    rewrite H1, IH. rewrite <- app_assoc. reflexivity.
Qed.

Lemma csv_field_empty (s : string) : csv_field s = EmptyString -> s = EmptyString.
Proof.
  unfold csv_field. destruct (needs_quote s); [ discriminate | ]. intros H. exact H.
Qed.

(** One line of the writer is read back as one record. *)
Lemma reader_run_line (fields : list string) (recs : list (list string)) :
  reader_run (mk_reader recs [] EmptyString RecordStart) (csv_line fields)
  = mk_reader (recs ++ [fields]) [] EmptyString RecordStart.
Proof.
  unfold csv_line. destruct fields as [ | f [ | g fields ] ].
  - reflexivity.
  - cbn [map join]. destruct (csv_field f) eqn:Ef.
    + apply csv_field_empty in Ef. subst f. reflexivity.
    + rewrite <- Ef, reader_run_app, reader_run_field by (left; reflexivity).
      destruct (needs_quote f) eqn:Hq; [ reflexivity | ].
      destruct f; [ | reflexivity ].
      unfold csv_field in Ef. rewrite Hq in Ef. discriminate.
  - pose proof (join_two_nonempty delimiter (csv_field f) (csv_field g)
                  (map csv_field fields)) as Hne.
    cbn [map].
    destruct (join delimiter (csv_field f :: csv_field g :: map csv_field fields))
      as [ | c body ] eqn:Ej; [ contradiction | ].
    rewrite <- Ej.
    change (join delimiter (csv_field f :: csv_field g :: map csv_field fields))
      with (csv_field f ++ String delimiter (join delimiter (map csv_field (g :: fields))))%string.
    rewrite string_app_assoc, reader_run_app.
    rewrite reader_run_field by (left; reflexivity).
    cbn [append reader_run].
    assert (H1 : reader_step
                   (mk_reader recs [] f
                      (if needs_quote f then QuoteSeen
                       else match f with EmptyString => RecordStart | _ => Unquoted end))
                   delimiter
                 = mk_reader recs [f] EmptyString FieldStart).
    { destruct (needs_quote f); [ reflexivity | ]. destruct f; reflexivity. }
    rewrite H1, reader_run_fields. reflexivity.
Qed.

Lemma reader_run_report (records : list (list string)) :
  forall recs,
    reader_run (mk_reader recs [] EmptyString RecordStart) (report_text records)
    = mk_reader (recs ++ records) [] EmptyString RecordStart.
Proof.
  induction records as [ | fields records IH ]; intros recs.
  - cbn. rewrite app_nil_r. reflexivity.
  - cbn [report_text]. rewrite reader_run_app, reader_run_line, IH.
    rewrite <- app_assoc. reflexivity.
Qed.

(** The decoder undoes the writer, whatever the fields contain. *)
Lemma decode_report_text (records : list (list string)) :
  decode (report_text records) = records.
Proof. unfold decode, reader_init. rewrite reader_run_report. reflexivity. Qed.

Lemma report_text_injective (records records' : list (list string)) :
  report_text records = report_text records' -> records = records'.
Proof.
  intros H. rewrite <- (decode_report_text records), H.
  apply decode_report_text.
Qed.

(** X13: whatever the names contain (tabs, quotes, line ends), the text of
    a report determines what was written: two reports that end normally
    and leave files with the same content were written from rows with the
    same texts, row by row and field by field. *)
Theorem report_determines_texts (repr : float -> string)
    (fs fs' : filesystem) (reportpath reportpath' : string)
    (result result' : list Blast.t) (n n' : Z) :
  snd (blast_report repr fs reportpath result n) = None ->
  snd (blast_report repr fs' reportpath' result' n') = None ->
  fst (blast_report repr fs reportpath result n) reportpath
  = fst (blast_report repr fs' reportpath' result' n') reportpath' ->
  exists texts : list (list string),
    Forall2 (Forall2 (fun v s => py_str repr v = Ok s))
            (fst (tabulate_hsp_xml result n)) texts /\
    Forall2 (Forall2 (fun v s => py_str repr v = Ok s))
            (fst (tabulate_hsp_xml result' n')) texts.
Proof.
  intros Hend Hend' Hsame.
  destruct (blast_report_spec repr fs reportpath result n)
    as (written & rest & texts & Hrows & Htexts & Hfile & Hrest).
  destruct (blast_report_spec repr fs' reportpath' result' n')
    as (written' & rest' & texts' & Hrows' & Htexts' & Hfile' & Hrest').
  destruct rest as [ | r rest ];
    [ | destruct Hrest as [Hr _]; rewrite Hend in Hr; discriminate Hr ].
  destruct rest' as [ | r' rest' ];
    [ | destruct Hrest' as [Hr _]; rewrite Hend' in Hr; discriminate Hr ].
  rewrite app_nil_r in Hrows, Hrows'.
  rewrite Hfile, Hfile', !fs_store_same in Hsame.
  assert (Hc : forall t,
            (csv_line [ "Query"; "Matching Strain"; "Query Coverage"; "Percent ID";
                        "Identities"; "Alignment Length"; "Query Start"; "Query End";
                        "Subject Start"; "Subject End"; "Query Length"; "Strain Length";
                        "e-value" ]
             ++ report_text t)%string
            = report_text ([ "Query"; "Matching Strain"; "Query Coverage"; "Percent ID";
                             "Identities"; "Alignment Length"; "Query Start"; "Query End";
                             "Subject Start"; "Subject End"; "Query Length"; "Strain Length";
                             "e-value" ]
                           :: t)) by reflexivity.
  rewrite !Hc in Hsame.
  assert (Hrec : [ "Query"; "Matching Strain"; "Query Coverage"; "Percent ID";
                   "Identities"; "Alignment Length"; "Query Start"; "Query End";
                   "Subject Start"; "Subject End"; "Query Length"; "Strain Length";
                   "e-value" ] :: texts
                 = [ "Query"; "Matching Strain"; "Query Coverage"; "Percent ID";
                     "Identities"; "Alignment Length"; "Query Start"; "Query End";
                     "Subject Start"; "Subject End"; "Query Length"; "Strain Length";
                     "e-value" ] :: texts')
    by (apply report_text_injective; congruence).
  injection Hrec as Hsame'.
  exists texts. rewrite Hrows, Hrows'. split; [ exact Htexts | ].
  rewrite Hsame'. exact Htexts'.
Qed.

Lemma report_determines_texts_witness :
  exists texts : list (list string),
    Forall2 (Forall2 (fun v s => py_str float_repr v = Ok s))
            (fst (tabulate_hsp_xml awkward_names 5)) texts /\
    Forall2 (Forall2 (fun v s => py_str float_repr v = Ok s))
            (fst (tabulate_hsp_xml (Blast.mk "contig_9" 50 [] :: awkward_names) 1))
            texts.
Proof.
  apply (report_determines_texts float_repr no_files no_files
           "TopBLASTHits.txt" "report.txt"
           awkward_names (Blast.mk "contig_9" 50 [] :: awkward_names) 5 1);
    vm_compute; reflexivity.
Defined.

(** The report of rows with a tab, a quote and a line end in their names,
    decoded. *)
Example awkward_names_decoded :
  option_map (fun content => map (@Ok (list string)) (decode content))
    (fst (blast_report float_repr no_files "TopBLASTHits.txt" awkward_names 5)
         "TopBLASTHits.txt")
  = Some (Ok [ "Query"; "Matching Strain"; "Query Coverage"; "Percent ID";
               "Identities"; "Alignment Length"; "Query Start"; "Query End";
               "Subject Start"; "Subject End"; "Query Length"; "Strain Length";
               "e-value" ]
          :: map (row_texts float_repr) (fst (tabulate_hsp_xml awkward_names 5)))
  /\ List.length (fst (tabulate_hsp_xml awkward_names 5)) = 2%nat.
Proof. split; vm_compute; reflexivity. Qed.

(** The limit of [str] lies between the ints of 4300 and of 4301 digits,
    whatever the sign. *)
Example str_limit :
  py_str float_repr (PInt (10 ^ 4299)) = Ok (int_str (10 ^ 4299))
  /\ py_str float_repr (PInt (- 10 ^ 4299)) = Ok (int_str (- 10 ^ 4299))
  /\ py_str float_repr (PInt (10 ^ 4300)) = Raise ValueError
  /\ py_str float_repr (PInt (- 10 ^ 4300)) = Raise ValueError.
Proof.
  assert (H4299 : int_digits (10 ^ 4299) = 4300) by exact (int_digits_pow10 4299).
  assert (H4300 : int_digits (10 ^ 4300) = 4301) by exact (int_digits_pow10 4300).
  cbn [py_str]. rewrite !int_digits_opp, H4299, H4300.
  repeat split.
Qed.


(** * Names, paths and the annotation command *)

Lemma str_length_app (a b : string) :
  String.length (a ++ b) = (String.length a + String.length b)%nat.
Proof. induction a as [ | c a IH ]; cbn; [ reflexivity | rewrite IH; reflexivity ]. Qed.

Lemma str_drop_app (a b : string) : str_drop (String.length a) (a ++ b) = b.
Proof. induction a as [ | c a IH ]; cbn; [ reflexivity | exact IH ]. Qed.

Lemma str_take_app (a b : string) : str_take (String.length a) (a ++ b) = a.
Proof. induction a as [ | c a IH ]; cbn; [ reflexivity | rewrite IH; reflexivity ]. Qed.

Lemma str_take_all (s : string) : str_take (String.length s) s = s.
Proof. induction s as [ | c s IH ]; cbn; [ reflexivity | rewrite IH; reflexivity ]. Qed.

Lemma str_take_drop (n : nat) (s : string) : (str_take n s ++ str_drop n s)%string = s.
Proof.
  revert s. induction n as [ | n IH ]; intros s; [ reflexivity | ].
  destruct s as [ | c s ]; cbn; [ reflexivity | rewrite IH; reflexivity ].
Qed.

Lemma str_drop_length (n : nat) (s : string) :
  String.length (str_drop n s) = (String.length s - n)%nat.
Proof.
  revert s. induction n as [ | n IH ]; intros s; cbn; [ lia | ].
  destruct s as [ | c s ]; cbn; [ reflexivity | apply IH ].
Qed.

Lemma slice_stop_inside (len i : Z) : 0 <= i <= len -> slice_stop len i = i.
Proof. intros H. unfold slice_stop. destruct (Z.ltb_spec i 0); lia. Qed.

(** [p[:i] + p[i:] == p] for every index. *)
Lemma str_to_from (p : string) (i : Z) : (str_to p i ++ str_from p i)%string = p.
Proof.
  unfold str_to, str_from, str_slice.
  set (len := Z.of_nat (String.length p)).
  pose proof (slice_stop_bounds len i ltac:(lia)) as Hi.
  rewrite (slice_stop_inside len 0), (slice_stop_inside len len) by lia.
  set (a := slice_stop len i) in *.
  cbn [Z.to_nat str_drop]. rewrite Z.sub_0_r.
  replace (str_take (Z.to_nat (len - a)) (str_drop (Z.to_nat a) p))
    with (str_drop (Z.to_nat a) p).
  - apply str_take_drop.
  - rewrite <- (str_take_all (str_drop (Z.to_nat a) p)) at 1.
    f_equal. rewrite str_drop_length. subst len. lia.
Qed.

Lemma str_from_app (a b : string) :
  str_from (a ++ b) (Z.of_nat (String.length a)) = b.
Proof.
  unfold str_from, str_slice. rewrite str_length_app.
  rewrite !slice_stop_inside by lia.
  rewrite Nat2Z.id, str_drop_app.
  replace (Z.to_nat _) with (String.length b) by lia.
  apply str_take_all.
Qed.

Lemma str_to_app (a b : string) :
  str_to (a ++ b) (Z.of_nat (String.length a)) = a.
Proof.
  unfold str_to, str_slice. rewrite str_length_app.
  rewrite !slice_stop_inside by lia.
  cbn [Z.to_nat str_drop]. rewrite Z.sub_0_r, Nat2Z.id.
  apply str_take_app.
Qed.

Lemma str_from_0 (p : string) : str_from p 0 = p.
Proof. exact (str_from_app EmptyString p). Qed.

Lemma str_to_0 (p : string) : str_to p 0 = EmptyString.
Proof. exact (str_to_app EmptyString p). Qed.

Lemma str_slice_char (a b : string) (c : ascii) :
  str_slice (a ++ String c b) (Z.of_nat (String.length a))
            (Z.of_nat (String.length a) + 1)
  = String c EmptyString.
Proof.
  unfold str_slice. rewrite str_length_app. cbn [String.length].
  rewrite !slice_stop_inside by lia.
  rewrite Nat2Z.id, str_drop_app.
  replace (Z.to_nat _) with 1%nat by lia. reflexivity.
Qed.

(** *** The last occurrence of a character *)

Lemma rfind_ge (c : ascii) (s : string) : -1 <= rfind c s.
Proof.
  induction s as [ | x s IH ]; cbn [rfind]; [ lia | ].
  destruct (Z.leb_spec 0 (rfind c s)); [ lia | ].
  destruct (Ascii.eqb x c); lia.
Qed.

Lemma rfind_absent (c : ascii) (s : string) :
  mem_char c s = false -> rfind c s = -1.
Proof.
  induction s as [ | x s IH ]; cbn [rfind mem_char]; [ reflexivity | ].
  intros [Hx Hs]%orb_false_elim. rewrite (IH Hs). cbn.
  rewrite Ascii.eqb_sym, Hx. reflexivity.
Qed.

Lemma rfind_last (c : ascii) (a b : string) :
  mem_char c b = false ->
  rfind c (a ++ String c b) = Z.of_nat (String.length a).
Proof.
  intros Hb. induction a as [ | x a IH ].
  - cbn [append rfind String.length]. rewrite (rfind_absent c b Hb). cbn.
    rewrite Ascii.eqb_refl. reflexivity.
  - cbn [append rfind String.length]. rewrite IH.
    replace (0 <=? Z.of_nat (String.length a)) with true
      by (symmetry; apply Z.leb_le; lia).
    lia.
Qed.

Lemma split_last (c : ascii) (s : string) :
  mem_char c s = true ->
  exists a b, s = (a ++ String c b)%string /\ mem_char c b = false.
Proof.
  induction s as [ | x s IH ]; cbn [mem_char]; [ discriminate | ].
  destruct (mem_char c s) eqn:Hs.
  - intros _. destruct (IH eq_refl) as (a & b & -> & Hb).
    exists (String x a), b. split; [ reflexivity | exact Hb ].
  - rewrite orb_false_r. intros Hx. apply Ascii.eqb_eq in Hx. subst x.
    exists EmptyString, s. split; [ reflexivity | exact Hs ].
Qed.

(** *** [basename] *)

Lemma basename_plain (name : string) :
  mem_char sep name = false -> basename name = name.
Proof.
  intros H. unfold basename. rewrite (rfind_absent sep name H). apply str_from_0.
Qed.

Lemma basename_dir (dir name : string) :
  mem_char sep name = false -> basename (dir ++ String sep name) = name.
Proof.
  intros H. unfold basename. rewrite (rfind_last sep dir name H).
  replace (dir ++ String sep name)%string
    with ((dir ++ String sep EmptyString) ++ name)%string
    by (rewrite string_app_assoc; reflexivity).
  replace (Z.of_nat (String.length dir) + 1)
    with (Z.of_nat (String.length (dir ++ String sep EmptyString)))
    by (rewrite str_length_app; cbn [String.length]; lia).
  apply str_from_app.
Qed.

Lemma basename_no_sep (p : string) : mem_char sep (basename p) = false.
Proof.
  destruct (mem_char sep p) eqn:Hp.
  - destruct (split_last sep p Hp) as (a & b & -> & Hb).
    rewrite basename_dir; assumption.
  - rewrite basename_plain; assumption.
Qed.

(** *** [splitext] *)

Lemma splitext_scan_spec (tail a2 : string) :
  forall a1 : string,
    splitext_scan (String.length a2) (a1 ++ a2 ++ tail)
                  (Z.of_nat (String.length a1))
                  (Z.of_nat (String.length (a1 ++ a2)))
    = if only_dots a2 then ((a1 ++ a2 ++ tail)%string, EmptyString)
      else ((a1 ++ a2)%string, tail).
Proof.
  induction a2 as [ | c a2 IH ]; intros a1.
  - cbn [String.length splitext_scan only_dots]. rewrite str_to_0. reflexivity.
  - cbn [String.length splitext_scan only_dots].
    change ((a1 ++ String c a2 ++ tail)%string)
      with ((a1 ++ String c (a2 ++ tail))%string).
    rewrite str_slice_char.
    destruct (Ascii.eqb c extsep) eqn:Hc.
    + apply Ascii.eqb_eq in Hc. subst c. cbn [String.eqb Ascii.eqb Bool.eqb negb andb extsep].
      specialize (IH (a1 ++ String extsep EmptyString)%string).
      rewrite !string_app_assoc in IH. cbn [append] in IH.
      rewrite str_length_app in IH. cbn [String.length] in IH.
      replace (Z.of_nat (String.length a1) + 1)
        with (Z.of_nat (String.length a1 + 1)) by lia.
      replace (Z.of_nat (String.length (a1 ++ String extsep a2)))
        with (Z.of_nat (String.length (a1 ++ String extsep a2))) by reflexivity.
      exact IH.
    + cbn [String.eqb]. rewrite Hc. cbn [negb andb].
      replace ((a1 ++ String c (a2 ++ tail))%string)
        with (((a1 ++ String c a2) ++ tail)%string)
        by (rewrite string_app_assoc; reflexivity).
      rewrite str_to_app, str_from_app. reflexivity.
Qed.

(** A name without a slash and without a dot has no extension. *)
Lemma splitext_no_dot (name : string) :
  mem_char extsep name = false -> splitext name = (name, EmptyString).
Proof.
  intros Hd. unfold splitext. rewrite (rfind_absent extsep name Hd).
  pose proof (rfind_ge sep name).
  replace (rfind sep name <? -1) with false by (symmetry; apply Z.ltb_ge; lia).
  rewrite str_to_0. reflexivity.
Qed.

(** A name without a slash splits at its last dot, unless only dots come
    before it. *)
Lemma splitext_last_dot (stem ext : string) :
  mem_char sep (stem ++ String extsep ext) = false ->
  mem_char extsep ext = false ->
  splitext (stem ++ String extsep ext)
  = if only_dots stem then ((stem ++ String extsep ext)%string, EmptyString)
    else (stem, String extsep ext).
Proof.
  intros Hs He. unfold splitext.
  rewrite (rfind_absent sep _ Hs), (rfind_last extsep stem ext He).
  replace (-1 <? Z.of_nat (String.length stem)) with true
    by (symmetry; apply Z.ltb_lt; lia).
  cbv zeta. replace (Z.to_nat (Z.of_nat (String.length stem) - (-1 + 1)))
    with (String.length stem) by lia.
  pose proof (splitext_scan_spec (String extsep ext) stem EmptyString) as H.
  cbn [append String.length] in H. exact H.
Qed.

(** [root + ext == p] *)
Lemma splitext_scan_rejoin (k : nat) (p : string) (fi di : Z) :
  (fst (splitext_scan k p fi di) ++ snd (splitext_scan k p fi di))%string = p.
Proof.
  revert fi. induction k as [ | k IH ]; intros fi; cbn [splitext_scan].
  - cbn [fst snd]. rewrite str_to_0. apply string_app_nil_r.
  - destruct (negb _); [ cbn [fst snd]; apply str_to_from | apply IH ].
Qed.




Lemma only_dots_false_nonempty (s : string) :
  only_dots s = false -> s <> EmptyString.
Proof. intros H ->. discriminate H. Qed.

Lemma strain_name_plain (name : string) :
  mem_char sep name = false -> strain_name name = fst (splitext name).
Proof. intros H. unfold strain_name. rewrite (basename_plain name H). reflexivity. Qed.

Lemma strain_name_no_sep (fasta : string) :
  mem_char sep (strain_name fasta) = false.
Proof.
  unfold strain_name.
  pose proof (basename_no_sep fasta) as Hb.
  set (q := basename fasta) in *.
  destruct (mem_char extsep q) eqn:Hd.
  - destruct (split_last extsep q Hd) as (a & e & Hq & He).
    rewrite Hq in Hb |- *. rewrite (splitext_last_dot a e Hb He).
    destruct (only_dots a); cbn [fst]; [ exact Hb | ].
    rewrite mem_char_app in Hb. apply orb_false_elim in Hb. apply Hb.
  - rewrite (splitext_no_dot q Hd). exact Hb.
Qed.

Lemma endswith_spec (c : ascii) (a : string) (x : ascii) :
  endswith c (a ++ String x EmptyString) = Ascii.eqb x c.
Proof.
  induction a as [ | y a IH ]; [ reflexivity | ].
  cbn [append endswith].
  destruct (a ++ String x EmptyString)%string eqn:E; [ | exact IH ].
  destruct a; discriminate E.
Qed.

Lemma string_snoc (s : string) :
  s <> EmptyString -> exists a x, s = (a ++ String x EmptyString)%string.
Proof.
  induction s as [ | c s IH ]; [ intros H; contradiction | intros _ ].
  destruct s as [ | d s ].
  - exists EmptyString, c. reflexivity.
  - destruct IH as (a & x & E); [ discriminate | ].
    exists (String c a), x. cbn [append]. rewrite <- E. reflexivity.
Qed.

Lemma endswith_absent (c : ascii) (a b : string) :
  b <> EmptyString -> mem_char c b = false -> endswith c (a ++ b) = false.
Proof.
  intros Hne Hb. destruct (string_snoc b Hne) as (b' & x & ->).
  rewrite <- string_app_assoc, endswith_spec.
  rewrite mem_char_app in Hb. apply orb_false_elim in Hb. destruct Hb as [_ Hx].
  cbn [mem_char] in Hx. rewrite orb_false_r in Hx.
  rewrite Ascii.eqb_sym. exact Hx.
Qed.

Lemma prefix_sep_absent (b : string) :
  mem_char sep b = false -> prefix (String sep EmptyString) b = false.
Proof.
  destruct b as [ | x b ]; [ reflexivity | ].
  cbn [mem_char prefix]. intros [Hx _]%orb_false_elim.
  destruct (ascii_dec sep x) as [ E | E ].
  - subst x. rewrite Ascii.eqb_refl in Hx. discriminate Hx.
  - reflexivity.
Qed.

(** Joining a relative, non-empty, slash-free component: the result ends
    with that component, after a slash unless the directory is empty or
    already ends with one. *)
Lemma join_step_component (path b : string) :
  b <> EmptyString -> mem_char sep b = false ->
  exists d : string,
    join_step path b = (d ++ b)%string
    /\ (d = EmptyString \/ endswith sep d = true)
    /\ endswith sep (join_step path b) = false
    /\ join_step path b <> EmptyString.
Proof.
  intros Hne Hb. unfold join_step. rewrite (prefix_sep_absent b Hb).
  assert (Hnz : forall d : string, (d ++ b)%string <> EmptyString).
  { intros d E. destruct d; [ exact (Hne E) | discriminate E ]. }
  destruct path as [ | c path ].
  - exists EmptyString. cbn [append].
    repeat split; [ left; reflexivity | exact (endswith_absent sep EmptyString b Hne Hb) | exact Hne ].
  - destruct (endswith sep (String c path)) eqn:He.
    + exists (String c path).
      repeat split; [ right; exact He | apply endswith_absent; assumption | apply Hnz ].
    + exists (String c path ++ String sep EmptyString)%string.
      rewrite string_app_assoc. cbn [append].
      repeat split.
      * right. change (String c (path ++ String sep EmptyString))%string
          with ((String c path) ++ String sep EmptyString)%string.
        rewrite endswith_spec. apply Ascii.eqb_refl.
      * replace (String c (path ++ String sep b))
          with ((String c (path ++ String sep EmptyString)) ++ b)%string
          by (cbn [append]; rewrite string_app_assoc; reflexivity).
        apply endswith_absent; assumption.
      * discriminate.
Qed.

Lemma join_step_after (path b : string) :
  path <> EmptyString -> endswith sep path = false ->
  mem_char sep b = false ->
  join_step path b = (path ++ String sep b)%string.
Proof.
  intros Hne He Hb. unfold join_step. rewrite (prefix_sep_absent b Hb).
  destruct path; [ contradiction | ]. rewrite He. reflexivity.
Qed.

(** X14: the strain name does not depend on the directory the file is in. *)
Theorem strain_name_ignores_directory (dir name : string) :
  mem_char sep name = false ->
  strain_name (dir ++ String sep name) = strain_name name
  /\ mem_char sep (strain_name name) = false.
Proof.
  intros H. split; [ | apply strain_name_no_sep ].
  unfold strain_name. rewrite (basename_dir dir name H), (basename_plain name H).
  reflexivity.
Qed.

Lemma strain_name_ignores_directory_witness :
  strain_name "/data/run1/contigs.fasta" = strain_name "contigs.fasta"
  /\ mem_char sep (strain_name "contigs.fasta") = false.
Proof. apply (strain_name_ignores_directory "/data/run1" "contigs.fasta"). reflexivity. Defined.

(** X15: exactly the last extension is removed. *)
Theorem strain_name_strips_last_extension (stem ext : string) :
  mem_char sep stem = false ->
  only_dots stem = false ->
  mem_char sep ext = false ->
  mem_char extsep ext = false ->
  strain_name (stem ++ String extsep ext) = stem.
Proof.
  intros Hs Hd He1 He2.
  assert (Hq : mem_char sep (stem ++ String extsep ext) = false).
  { rewrite mem_char_app, Hs. cbn [mem_char orb]. exact He1. }
  rewrite (strain_name_plain _ Hq), (splitext_last_dot stem ext Hq He2), Hd.
  reflexivity.
Qed.

Lemma strain_name_strips_last_extension_witness :
  strain_name "A.goose.2014.fasta" = "A.goose.2014".
Proof.
  apply (strain_name_strips_last_extension "A.goose.2014" "fasta"); reflexivity.
Defined.

(** X16: names without an extension are kept whole. *)
Theorem strain_name_keeps_plain_names (name : string) :
  mem_char sep name = false ->
  mem_char extsep name = false \/ only_dots name = true
  \/ (exists dots rest, name = (dots ++ String extsep rest)%string
        /\ only_dots dots = true /\ mem_char extsep rest = false) ->
  strain_name name = name.
Proof.
  intros Hs H. rewrite (strain_name_plain name Hs).
  destruct (mem_char extsep name) eqn:Hd.
  - destruct (split_last extsep name Hd) as (a & e & Hq & He).
    assert (Ha : only_dots a = true).
    { destruct H as [ H | [ H | (dots & rest & E & Hdots & Hrest) ] ].
      - discriminate H.
      - rewrite Hq in H. clear - H. induction a as [ | c a IH ]; [ reflexivity | ].
        cbn [append only_dots] in H |- *. apply andb_prop in H. destruct H as [-> H].
        exact (IH H).
      - assert (Hlen : Z.of_nat (String.length a) = Z.of_nat (String.length dots)).
        { rewrite <- (rfind_last extsep a e He), <- (rfind_last extsep dots rest Hrest).
          rewrite <- Hq, <- E. reflexivity. }
        assert (a = dots); [ | subst a; exact Hdots ].
        rewrite <- (str_take_app a (String extsep e)), <- (str_take_app dots (String extsep rest)).
        rewrite <- Hq, <- E. f_equal. lia. }
    rewrite Hq in Hs |- *. rewrite (splitext_last_dot a e Hs He), Ha. reflexivity.
  - rewrite (splitext_no_dot name Hd). reflexivity.
Qed.

Lemma strain_name_keeps_plain_names_witness :
  strain_name "contigs" = "contigs" /\ strain_name "..bashrc" = "..bashrc".
Proof.
  split.
  - apply (strain_name_keeps_plain_names "contigs"); [ reflexivity | left; reflexivity ].
  - apply (strain_name_keeps_plain_names "..bashrc"); [ reflexivity | ].
    right. right. exists ".", "bashrc". repeat split.
Defined.


(** X17: the strain name is the base name of the file without its extension:
    the base name is the strain name followed by nothing or by a dot and a
    dot-free rest, and the strain name contains no slash. *)
Theorem strain_name_is_basename_stem (fasta : string) :
  exists ext : string,
    basename fasta = (strain_name fasta ++ ext)%string
    /\ (ext = EmptyString
        \/ exists e, ext = String extsep e /\ mem_char extsep e = false)
    /\ mem_char sep (strain_name fasta) = false.
Proof.
  unfold strain_name.
  pose proof (basename_no_sep fasta) as Hb.
  set (q := basename fasta) in *.
  destruct (mem_char extsep q) eqn:Hd.
  - destruct (split_last extsep q Hd) as (a & e & Hq & He).
    rewrite Hq in Hb |- *. rewrite (splitext_last_dot a e Hb He).
    destruct (only_dots a); cbn [fst].
    + exists EmptyString. rewrite string_app_nil_r.
      repeat split; [ left; reflexivity | exact Hb ].
    + exists (String extsep e). repeat split.
      * right. exists e. split; [ reflexivity | exact He ].
      * rewrite mem_char_app in Hb. apply orb_false_elim in Hb. apply Hb.
  - rewrite (splitext_no_dot q Hd). cbn [fst]. exists EmptyString.
    rewrite string_app_nil_r. repeat split; [ left; reflexivity | exact Hb ].
Qed.


Lemma prokka_annotate_eq (ran : processes) (prokka_dir fasta : string) (cores : Z) :
  strain_name fasta <> EmptyString ->
  let strain := strain_name fasta in
  let outdir := path_join prokka_dir [strain] in
  prokka_annotate ran prokka_dir fasta cores
  = (ran ++ [[ "prokka"; "--kingdom"; "Viruses"; "--outdir"; outdir;
               "--prefix"; strain; "--locustag"; strain;
               "--cpus"; int_str cores; fasta ]],
     (outdir ++ String sep (strain ++ ".ffn"))%string)
  /\ mem_char sep (strain ++ ".ffn") = false.
Proof.
  intros Hne strain outdir.
  pose proof (strain_name_no_sep fasta) as Hs. fold strain in Hs, Hne.
  assert (Hf : mem_char sep (strain ++ ".ffn") = false).
  { rewrite mem_char_app, Hs. reflexivity. }
  split; [ | exact Hf ].
  unfold prokka_annotate. fold strain. cbv zeta. f_equal.
  unfold path_join. cbn [fold_left]. fold (path_join prokka_dir [strain]).
  change (path_join prokka_dir [strain]) with (join_step prokka_dir strain).
  subst outdir. change (path_join prokka_dir [strain]) with (join_step prokka_dir strain).
  destruct (join_step_component prokka_dir strain Hne Hs) as (d & _ & _ & He & Hnz).
  apply join_step_after; assumption.
Qed.



(** X19: the strain name of the annotation file is the strain name of the
    contigs file. *)
Theorem prokka_annotate_keeps_strain
    (ran : processes) (prokka_dir fasta : string) (cores : Z) :
  only_dots (strain_name fasta) = false ->
  strain_name (snd (prokka_annotate ran prokka_dir fasta cores))
  = strain_name fasta.
Proof.
  intros Hd.
  destruct (prokka_annotate_eq ran prokka_dir fasta cores
              (only_dots_false_nonempty _ Hd)) as [E Hf].
  rewrite E. cbn [snd].
  unfold strain_name at 1. rewrite (basename_dir _ _ Hf).
  change (strain_name fasta ++ ".ffn")%string
    with (strain_name fasta ++ String extsep "ffn")%string in Hf |- *.
  rewrite (splitext_last_dot _ "ffn" Hf eq_refl), Hd. reflexivity.
Qed.

Lemma prokka_annotate_keeps_strain_witness :
  strain_name (snd (prokka_annotate [] "out" "runs/A.goose.fasta" 4))
  = strain_name "runs/A.goose.fasta".
Proof.
  apply (prokka_annotate_keeps_strain [] "out" "runs/A.goose.fasta" 4).
  reflexivity.
Defined.


